(** * Reconcilers of the Tetration Ansible modules

    A shallow embedding of the [main] functions of the modules under
    [tetration-ansible/library] (tenant, user, role, user-role binding,
    agent NAT config, interface intent, and [tetration_user_sevt.py], a
    variant of the user module that reuses disabled accounts) and the
    properties of their present / absent / query reconciliation.

    Every module talks to the remote platform through the shared client
    wrapper ([tet_module.get_object] and [tet_module.run_method]).  A module
    is embedded as a finite tree of such calls: each node is one call and
    has one sub-tree per possible answer.  Running a tree against a handler
    (any remote system) yields the outcome of the invocation, the list of
    calls issued and the final state of the remote system.  A call always
    gets an answer: transport and authentication failures are the business
    of the client wrapper.

    Records of the API are typed: a record has the fields that [main]
    reads, with the types the platform gives them. *)

From Stdlib Require Import ZArith Lia Ascii String.
From stdpp Require Import base strings list gmap pretty.
From Equations Require Import Equations.

Local Open Scope Z_scope.

(** ** Shared vocabulary *)

(** The [state] parameter of every module. *)
Inductive state := present | absent | query.

(** HTTP verbs of [run_method]; [get_object] is a filtered GET. *)
Inductive method := GET | POST | PUT | DELETE.

Global Instance state_eq_dec : EqDecision state.
Proof. solve_decision. Defined.
Global Instance method_eq_dec : EqDecision method.
Proof. solve_decision. Defined.

Definition mutating (m : method) : bool :=
  match m with GET => false | POST | PUT | DELETE => true end.

(** Uncaught Python exceptions (the module dies with a traceback). *)
Inductive exception := KeyError | TypeError | ValueError | IndexError.

(** Python truthiness of an optional string: [None] and [''] are false. *)
Definition truthy_str (o : option string) : bool :=
  match o with Some s => bool_decide (s ≠ "") | None => false end.

(** Python truthiness of an optional integer: [None] and [0] are false. *)
Definition truthy_int (o : option Z) : bool :=
  match o with Some z => bool_decide (z ≠ 0) | None => false end.

(** [c in s] for a one-character needle. *)
Fixpoint contains_char (c : ascii) (s : string) : bool :=
  match s with
  | EmptyString => false
  | String a rest => if decide (a = c) then true else contains_char c rest
  end.

(** ['%s' % x] for an optional string: [None] prints as ["None"]. *)
Definition fmt_str (o : option string) : string :=
  match o with Some s => s | None => "None" end.

(** The builtin [int] applied to a string parameter: the parsed integer, or
    [None] when Python raises [ValueError].  The reconcilers only need that
    it is a partial function. *)
Class PyInt := py_int : string → option Z.

(** ** Programs over the API client *)

(** A program issuing calls described by [E] ([E R] is a call answered by a
    value of type [R]) and ending in [module.exit_json] ([Ret]),
    [module.fail_json] or an uncaught exception. *)
Inductive prog (E : Type → Type) (A : Type) : Type :=
| Ret (a : A)
| FailJson (msg : string)
| Raise (exn : exception)
| Call {R : Type} (e : E R) (k : R → prog E A).

Arguments Ret {E A} a.
Arguments FailJson {E A} msg.
Arguments Raise {E A} exn.
Arguments Call {E A R} e k.

Fixpoint bind {E A B} (p : prog E A) (f : A → prog E B) : prog E B :=
  match p with
  | Ret a => f a
  | FailJson msg => FailJson msg
  | Raise exn => Raise exn
  | Call e k => Call e (λ r, bind (k r) f)
  end.

Global Instance prog_ret {E} : MRet (prog E) := λ _ a, Ret a.
Global Instance prog_bind {E} : MBind (prog E) := λ _ _ f p, bind p f.

(** One call to the client wrapper. *)
Definition call {E R} (e : E R) : prog E R := Call e Ret.

(** Every call has an HTTP verb. *)
Class ApiEvent (E : Type → Type) := method_name : ∀ R, E R → method.
Arguments method_name {E _ R} e.

(** A call as recorded in the trace of an invocation. *)
Inductive issued (E : Type → Type) : Type :=
| Issued {R : Type} (e : E R).
Arguments Issued {E R} e.

Definition issued_method {E} `{ApiEvent E} (c : issued E) : method :=
  match c with Issued e => method_name e end.

(** The verbs of a trace, in order. *)
Definition methods {E} `{ApiEvent E} (t : list (issued E)) : list method :=
  issued_method <$> t.

(** No POST, PUT or DELETE in the trace. *)
Definition read_only {E} `{ApiEvent E} (t : list (issued E)) : Prop :=
  Forall (λ m, mutating m = false) (methods t).

(** How an invocation ends. *)
Inductive outcome (A : Type) :=
| Exited (a : A)
| Failed (msg : string)
| Crashed (exn : exception).
Arguments Exited {A} a.
Arguments Failed {A} msg.
Arguments Crashed {A} exn.

(** The remote system: a state and an answer to every call. *)
Definition handler (E : Type → Type) (S : Type) := ∀ R, E R → S → R * S.

Fixpoint exec {E S A} (h : handler E S) (p : prog E A) (s : S)
  : outcome A * list (issued E) * S :=
  match p with
  | Ret a => (Exited a, [], s)
  | FailJson msg => (Failed msg, [], s)
  | Raise exn => (Crashed exn, [], s)
  | Call e k =>
      let '(r, s1) := h _ e s in
      let '(o, t, s2) := exec h (k r) s1 in
      (o, Issued e :: t, s2)
  end.

Definition exec_outcome {E S A} (h : handler E S) (p : prog E A) (s : S) : outcome A :=
  (exec h p s).1.1.
Definition exec_trace {E S A} (h : handler E S) (p : prog E A) (s : S) : list (issued E) :=
  (exec h p s).1.2.
Definition exec_state {E S A} (h : handler E S) (p : prog E A) (s : S) : S :=
  (exec h p s).2.

(** [quiet p]: no path of [p] contains a POST, PUT or DELETE. *)
Inductive quiet {E A} `{ApiEvent E} : prog E A → Prop :=
| quiet_Ret a : quiet (Ret a)
| quiet_FailJson msg : quiet (FailJson msg)
| quiet_Raise exn : quiet (Raise exn)
| quiet_Call R (e : E R) k :
    mutating (method_name e) = false → (∀ r, quiet (k r)) → quiet (Call e k).

(** ** tetration_tenant.py *)

Module Tenant.

(** A tenant (VRF) as the API returns it; only the fields [main] reads. *)
Record tenant := Tenant {
  t_id : Z;
  t_name : string;
  t_switch_vrfs : list string;
}.

Global Instance tenant_eq_dec : EqDecision tenant.
Proof. solve_decision. Defined.

(** The variable [id] of [main]: the string parameter, or an integer (read
    from a record or generated). *)
Inductive pyid := IdStr (s : string) | IdInt (z : Z).

Global Instance pyid_eq_dec : EqDecision pyid.
Proof. solve_decision. Defined.

(** The dictionary [new_object]; a key that is not set is [None]. *)
Record payload := NewObject {
  n_switch_vrfs : option (list string);
  n_name : option string;
  n_id : option pyid;
}.

Global Instance payload_eq_dec : EqDecision payload.
Proof. solve_decision. Defined.

(** The values [existing_object] and [result['object']] take. *)
Inductive object :=
| ONone
| OEmptyDict
| OTenant (t : tenant)
| OTenants (l : list tenant)
| ONew (n : payload).

Global Instance object_eq_dec : EqDecision object.
Proof. solve_decision. Defined.

Definition truthy (o : object) : bool :=
  match o with
  | ONone | OEmptyDict => false
  | OTenant _ => true
  | OTenants l => bool_decide (l ≠ [])
  | ONew _ => true
  end.

Inductive query_type := single | all.

Global Instance query_type_eq_dec : EqDecision query_type.
Proof. solve_decision. Defined.

Record params := Params {
  p_state : state;
  p_name : option string;
  p_id : option string;
  p_switch_vrfs : option (list string);
  p_query_type : query_type;
  check_mode : bool;
}.

Record result := Result {
  changed : bool;
  failed : bool;
  r_object : object;
}.

Inductive lookup := by_id (i : Z) | by_name (n : string).

(** Calls on [TETRATION_API_TENANT]. *)
Inductive tenantE : Type → Type :=
| get_object (filter : lookup) : tenantE (option tenant)
| get_all : tenantE (list tenant)
| post (req_payload : payload) : tenantE tenant
| put (id : pyid) (req_payload : payload) : tenantE unit
| get (id : pyid) : tenantE (option tenant)
| delete (id : pyid) : tenantE unit.

Global Instance tenant_api : ApiEvent tenantE := λ _ e,
  match e with
  | get_object _ | get_all | get _ => GET
  | post _ => POST
  | put _ _ => PUT
  | delete _ => DELETE
  end.

(** [while id in existing_ids: id -= 1] *)
Equations? countdown (id : Z) (existing_ids : list Z) : Z
  by wf (length (filter (λ x, (x ≤ id)%Z) existing_ids)) lt :=
  countdown id existing_ids with decide (id ∈ existing_ids) => {
    | left _ := countdown (id - 1) existing_ids;
    | right _ := id }.
Proof.
  clear countdown. rename e into Hin.
  induction existing_ids as [|a l IH]; [by inversion Hin|].
  assert (Hmono : (length (filter (λ x, (x ≤ id - 1)%Z) l)
                   ≤ length (filter (λ x, (x ≤ id)%Z) l))%nat).
  { clear. induction l as [|b l IH]; [done|].
    rewrite !filter_cons. repeat case_decide; simpl; lia. }
  rewrite !filter_cons. destruct (decide (a = id)) as [->|Hne].
  - repeat case_decide; simpl; lia.
  - apply elem_of_cons in Hin as [?|Hin]; [congruence|].
    specialize (IH Hin). repeat case_decide; simpl; lia.
Qed.

(** [id = 676769] followed by the loop. *)
Definition generate_id (existing_ids : list Z) : Z :=
  countdown 676769 existing_ids.

(** [set(a) != set(b)] *)
Definition set_ne (a b : list string) : bool :=
  bool_decide (list_to_set a ≠@{gset string} list_to_set b).

Section Main.
Context `{PyInt}.

(** Get current state of the object: the first [if]/[elif] chain.  Returns
    [existing_object] and [id]. *)
Definition fetch (p : params) : prog tenantE (object * option pyid) :=
  let single_lookup :=
    bool_decide (p_state p ≠ query) || bool_decide (p_query_type p = single) in
  match (if single_lookup then p_id p else None) with
  | Some i =>
      match py_int i with
      | None => Raise ValueError
      | Some z =>
          existing_object ← call (get_object (by_id z));
          mret (from_option OTenant ONone existing_object, Some (IdStr i))
      end
  | None =>
      match (if single_lookup then p_name p else None) with
      | Some n =>
          existing_object ← call (get_object (by_name n));
          (* id = int(existing_object['id']) if existing_object else None;
             the ID of a record is an integer already *)
          mret (from_option OTenant ONone existing_object,
                (λ t, IdInt (t_id t)) <$> existing_object)
      | None =>
          if bool_decide (p_state p = query) && bool_decide (p_query_type p = all) then
            existing_object ← call get_all;
            mret (OTenants
                    (List.filter
                       (λ _, bool_decide
                               (p_name p ∉ [Some "Tetration"; Some "Unknown"; Some "Default"]))
                       existing_object),
                  IdStr <$> p_id p)
          else mret (OEmptyDict, IdStr <$> p_id p)
      end
  end.

(** [if id is None:] create an ID. *)
Definition ensure_id (id : option pyid) : prog tenantE pyid :=
  match id with
  | Some i => mret i
  | None =>
      query_result ← call get_all;
      mret (IdInt (generate_id (t_id <$> query_result)))
  end.

(** The condition of the update: name or switch VRFs do not match. *)
Definition differs (p : params) (existing : tenant) : bool :=
  match p_name p with Some n => bool_decide (t_name existing ≠ n) | None => false end
  || match p_switch_vrfs p with
     | Some vrfs => set_ne (t_switch_vrfs existing) vrfs
     | None => false
     end.

(** "decide what value to return" at the end of the [present] branch. *)
Definition return_present (p : params) (changed : bool) (existing_object : object)
    (new_object : payload) (id : pyid) : prog tenantE result :=
  if negb changed then mret (Result changed false existing_object)
  else if check_mode p then mret (Result changed false (ONew new_object))
  else
    query_result ← call (get id);
    mret (Result changed false (from_option OTenant ONone query_result)).

Definition enforce_present (p : params) (existing_object : object) (id : pyid)
  : prog tenantE result :=
  let new_object := NewObject (p_switch_vrfs p) (p_name p) None in
  if negb (truthy existing_object) then
    let new_object := NewObject (p_switch_vrfs p) (p_name p) (Some id) in
    if check_mode p then return_present p true existing_object new_object id
    else
      query_result ← call (post new_object);
      return_present p true existing_object new_object (IdInt (t_id query_result))
  else
    match existing_object with
    | OTenant existing =>
        if differs p existing then
          if check_mode p then return_present p true existing_object new_object id
          else
            _ ← call (put id new_object);
            return_present p true existing_object new_object id
        else return_present p false existing_object new_object id
    | _ => Raise TypeError
    end.

Definition enforce_absent (p : params) (existing_object : object) (id : pyid)
  : prog tenantE result :=
  if truthy existing_object then
    if check_mode p then mret (Result true false ONone)
    else
      _ ← call (delete id);
      mret (Result true false ONone)
  else mret (Result false false ONone).

Definition main (p : params) : prog tenantE result :=
  if bool_decide (p_state p ∈ [present; absent])
     && (negb (truthy_str (p_name p)) && negb (truthy_str (p_id p)))
  then FailJson "Either name or id is required"
  else
    '(existing_object, id) ← fetch p;
    id ← ensure_id id;
    match p_state p with
    | present => enforce_present p existing_object id
    | absent => enforce_absent p existing_object id
    | query => mret (Result false false existing_object)
    end.

End Main.

End Tenant.

(** ** tetration_user.py *)

Module User.

(** A user account as the API returns it.  A JSON [null] is [None]. *)
Record user := UserRec {
  u_id : string;
  u_email : string;
  u_first_name : option string;
  u_last_name : option string;
  u_app_scope_id : option string;
  u_disabled_at : option Z;
  u_role_ids : list string;
}.

Global Instance user_eq_dec : EqDecision user.
Proof. solve_decision. Defined.

(** An app scope; only [id] is read. *)
Record scope := Scope { s_id : string; s_name : string }.

(** The dictionary [new_object]: [email] is always set. *)
Record payload := NewObject {
  n_email : string;
  n_first_name : option string;
  n_last_name : option string;
  n_app_scope_id : option string;
}.

Global Instance payload_eq_dec : EqDecision payload.
Proof. solve_decision. Defined.

Inductive object :=
| ONone
| OUser (u : user)
| ONew (n : payload).

Global Instance object_eq_dec : EqDecision object.
Proof. solve_decision. Defined.

Record params := Params {
  p_state : state;
  p_email : string;
  p_first_name : option string;
  p_last_name : option string;
  p_app_scope_id : option string;
  p_app_scope_name : option string;
  check_mode : bool;
}.

Record result := Result {
  changed : bool;
  failed : bool;
  r_object : object;
}.

(** Calls on [TETRATION_API_USER] and [TETRATION_API_SCOPES]. *)
Inductive userE : Type → Type :=
| get_object (email : string) : userE (option user)
| get_scope (name : string) : userE (option scope)
| post (req_payload : payload) : userE user
| post_enable (id : option string) : userE unit
| put (id : option string) (req_payload : payload) : userE unit
| get (id : option string) : userE (option user)
| delete (id : option string) : userE unit.

Global Instance user_api : ApiEvent userE := λ _ e,
  match e with
  | get_object _ | get_scope _ | get _ => GET
  | post _ | post_enable _ => POST
  | put _ _ => PUT
  | delete _ => DELETE
  end.

Definition error_message : string :=
  "You specified an app scope name that does not exist. Try again with a valid name or exclude both app_scope_name and app_scope_id to create a Service Provider user. Only root scopes are allowed. For example, Default is valid but Default:Datacenter is not a valid scope name for user accounts.".

(** "Get the app scope id if name is passed": returns the updated
    [new_object] and [module.params['app_scope_id']]. *)
Definition resolve_scope (p : params) (new_object : payload)
  : prog userE (payload * option string) :=
  match p_app_scope_name p with
  | Some app_scope_name =>
      if truthy_str (Some app_scope_name) then
        app_scope ← call (get_scope app_scope_name);
        match app_scope with
        | None => FailJson error_message
        | Some sc =>
            if contains_char ":" app_scope_name then FailJson error_message
            else
              mret (NewObject (n_email new_object) (n_first_name new_object)
                      (n_last_name new_object) (Some (s_id sc)),
                    Some (s_id sc))
        end
      else mret (new_object, p_app_scope_id p)
  | None => mret (new_object, p_app_scope_id p)
  end.

(** [module.params[k] is not None and existing_object[k] != module.params[k]] *)
Definition mismatch (param existing : option string) : bool :=
  match param with
  | Some v => bool_decide (existing ≠ Some v)
  | None => false
  end.

(** The loop over ['first_name', 'last_name', 'app_scope_id']. *)
Definition update_needed (p : params) (app_scope_id : option string) (existing : user) : bool :=
  mismatch (p_first_name p) (u_first_name existing)
  || mismatch (p_last_name p) (u_last_name existing)
  || mismatch app_scope_id (u_app_scope_id existing).

(** "decide what value to return" *)
Definition return_present (p : params) (changed : bool) (existing_object : option user)
    (new_object : payload) (id : option string) : prog userE result :=
  if negb changed then mret (Result changed false (from_option OUser ONone existing_object))
  else if check_mode p then mret (Result changed false (ONew new_object))
  else
    query_result ← call (get id);
    mret (Result changed false (from_option OUser ONone query_result)).

Definition enforce_present (p : params) (existing_object : option user)
    (disabled_user : bool) (id : option string) : prog userE result :=
  let new_object :=
    NewObject (p_email p) (p_first_name p) (p_last_name p) (p_app_scope_id p) in
  '(new_object, app_scope_id) ← resolve_scope p new_object;
  match existing_object with
  | None =>
      if check_mode p then return_present p true existing_object new_object id
      else
        query_result ← call (post new_object);
        return_present p true existing_object new_object (Some (u_id query_result))
  | Some existing =>
      _ ← (if disabled_user then call (post_enable id) else mret ());
      let changed := disabled_user in
      if update_needed p app_scope_id existing then
        if check_mode p then return_present p true existing_object new_object id
        else
          _ ← call (put id new_object);
          return_present p true existing_object new_object id
      else return_present p changed existing_object new_object id
  end.

(** [now] is the value of [int(time.time())]. *)
Definition enforce_absent (now : Z) (p : params) (existing_object : option user)
    (disabled_user : bool) (id : option string) : prog userE result :=
  match existing_object with
  | Some existing =>
      if negb disabled_user then
        if check_mode p then
          mret (Result true false
                  (OUser (UserRec (u_id existing) (u_email existing) (u_first_name existing)
                            (u_last_name existing) (u_app_scope_id existing) (Some now)
                            (u_role_ids existing))))
        else
          _ ← call (delete id);
          existing_object ← call (get_object (p_email p));
          mret (Result true false (from_option OUser ONone existing_object))
      else mret (Result false false (OUser existing))
  | None => mret (Result false false ONone)
  end.

Definition main (now : Z) (p : params) : prog userE result :=
  existing_object ← call (get_object (p_email p));
  let disabled_user :=
    match existing_object with
    | None => false
    | Some u => bool_decide (u_disabled_at u ≠ None)
    end in
  let id := u_id <$> existing_object in
  match p_state p with
  | present => enforce_present p existing_object disabled_user id
  | absent => enforce_absent now p existing_object disabled_user id
  | query => mret (Result false false (from_option OUser ONone existing_object))
  end.

End User.

(** ** tetration_role.py *)

Module Role.

(** A capability of a role. *)
Record capability := Capability {
  c_ability : string;
  c_app_scope_id : option string;
}.

Global Instance capability_eq_dec : EqDecision capability.
Proof. solve_decision. Defined.

(** A role as the API returns it; [r_capabilities] is [None] when the
    record has no ['capabilities'] key. *)
Record role := RoleRec {
  r_id : string;
  r_name : string;
  r_description : string;
  r_app_scope_id : string;
  r_capabilities : option (list capability);
}.

Global Instance role_eq_dec : EqDecision role.
Proof. solve_decision. Defined.

(** The choices of [capability_ability]. *)
Inductive ability := read | write | execute | developer | enforce | owner.

(** The table [CAPABILITIES]. *)
Definition CAPABILITIES (a : ability) : string :=
  match a with
  | read => "SCOPE_READ"
  | write => "SCOPE_WRITE"
  | execute => "EXECUTE"
  | developer => "DEVELOPER"
  | enforce => "ENFORCE"
  | owner => "SCOPE_OWNER"
  end.

Record payload := NewObject {
  n_description : option string;
  n_name : option string;
  n_app_scope_id : option string;
}.

Global Instance payload_eq_dec : EqDecision payload.
Proof. solve_decision. Defined.

Inductive object :=
| ONone
| OEmptyDict
| ORole (r : role)
| ONew (n : payload).

Global Instance object_eq_dec : EqDecision object.
Proof. solve_decision. Defined.

Definition truthy (o : object) : bool :=
  match o with
  | ONone | OEmptyDict => false
  | ORole _ | ONew _ => true
  end.

Record params := Params {
  p_state : state;
  p_name : option string;
  p_description : option string;
  p_app_scope_id : string;
  p_id : option string;
  p_capability_appscope : option string;
  p_capability_ability : option ability;
  check_mode : bool;
}.

Record result := Result {
  changed : bool;
  failed : bool;
  r_object : object;
}.

Inductive lookup :=
| by_id (id : string)
| by_name_scope (name : string) (app_scope_id : string).

(** Calls on [TETRATION_API_ROLE]. *)
Inductive roleE : Type → Type :=
| get_object (filter : lookup) : roleE (option role)
| get (id : option string) : roleE role
| post (req_payload : payload) : roleE role
| put (id : option string) (req_payload : payload) : roleE unit
| post_capability (id : option string) (req_payload : capability) : roleE unit
| delete (id : option string) : roleE unit.

Global Instance role_api : ApiEvent roleE := λ _ e,
  match e with
  | get_object _ | get _ => GET
  | post _ | post_capability _ _ => POST
  | put _ _ => PUT
  | delete _ => DELETE
  end.

Definition error_message : string :=
  "The ID specified does not exist. To create a new object, do not specify an ID as Tetration will assign one to every new object.".

(** Get current state of the object.  Returns [existing_object] and [id]. *)
Definition fetch (p : params) : prog roleE (object * option string) :=
  match p_id p with
  | Some id =>
      existing_object ← call (get_object (by_id id));
      match existing_object with
      | Some _ =>
          existing_object ← call (get (Some id));
          mret (ORole existing_object, Some id)
      | None =>
          if bool_decide (p_state p = present) then FailJson error_message
          else mret (ONone, Some id)
      end
  | None =>
      match p_name p with
      | Some name =>
          existing_object ← call (get_object (by_name_scope name (p_app_scope_id p)));
          match existing_object with
          | Some found =>
              existing_object ← call (get (Some (r_id found)));
              mret (ORole existing_object, Some (r_id found))
          | None => mret (ONone, None)
          end
      | None => mret (OEmptyDict, None)
      end
  end.

(** The condition of the update: name or description do not match. *)
Definition differs (p : params) (existing : role) : bool :=
  match p_name p with Some n => bool_decide (r_name existing ≠ n) | None => false end
  || match p_description p with
     | Some d => bool_decide (r_description existing ≠ d)
     | None => false
     end.

(** The list [t] of (ability, app_scope_id) pairs of the existing record. *)
Definition capability_pairs (existing_object : object) : list (string * option string) :=
  match existing_object with
  | ORole r =>
      match r_capabilities r with
      | Some caps => (λ obj, (c_ability obj, c_app_scope_id obj)) <$> caps
      | None => []
      end
  | _ => []
  end.

(** "now we need to see if we should add the capabilities specified":
    returns the new value of [changed]. *)
Definition add_capability (p : params) (existing_object : object) (id : option string)
    (changed : bool) : prog roleE bool :=
  match p_capability_ability p with
  | Some a =>
      let my_ability := CAPABILITIES a in
      let my_scope := p_capability_appscope p in
      let t := capability_pairs existing_object in
      if bool_decide ((my_ability, my_scope) ∉ t) then
        if check_mode p then mret true
        else
          _ ← call (post_capability id (Capability my_ability my_scope));
          mret true
      else mret changed
  | None => mret changed
  end.

(** "decide what value to return" *)
Definition return_present (p : params) (changed : bool) (existing_object : object)
    (new_object : payload) (id : option string) : prog roleE result :=
  if negb changed then mret (Result changed false existing_object)
  else if check_mode p then mret (Result changed false (ONew new_object))
  else
    query_result ← call (get id);
    mret (Result changed false (ORole query_result)).

Definition enforce_present (p : params) (existing_object : object) (id : option string)
  : prog roleE result :=
  let new_object := NewObject (p_description p) (p_name p) None in
  if negb (truthy existing_object) then
    let new_object :=
      if bool_decide (p_app_scope_id p ≠ "")
      then NewObject (p_description p) (p_name p) (Some (p_app_scope_id p))
      else new_object in
    id ← (if check_mode p then mret id
          else query_result ← call (post new_object); mret (Some (r_id query_result)));
    changed ← add_capability p existing_object id true;
    return_present p changed existing_object new_object id
  else
    match existing_object with
    | ORole existing =>
        changed ← (if differs p existing then
                     if check_mode p then mret true
                     else _ ← call (put id new_object); mret true
                   else mret false);
        changed ← add_capability p existing_object id changed;
        return_present p changed existing_object new_object id
    | _ => Raise TypeError
    end.

Definition enforce_absent (p : params) (existing_object : object) (id : option string)
  : prog roleE result :=
  if truthy existing_object then
    if check_mode p then mret (Result true false ONone)
    else
      _ ← call (delete id);
      mret (Result true false ONone)
  else mret (Result false false ONone).

Definition main (p : params) : prog roleE result :=
  '(existing_object, id) ← fetch p;
  match p_state p with
  | present => enforce_present p existing_object id
  | absent => enforce_absent p existing_object id
  | query => mret (Result false false existing_object)
  end.

End Role.

(** ** tetration_user_role.py *)

Module UserRole.

Record params := Params {
  p_state : state;
  p_email : string;
  p_role_ids : list string;
  check_mode : bool;
}.

Record result := Result {
  changed : bool;
  failed : bool;
  r_object : option User.user;
}.

(** Calls on [TETRATION_API_USER] and [TETRATION_API_ROLE]. *)
Inductive user_roleE : Type → Type :=
| get_object (email : string) : user_roleE (option User.user)
| put_add_role (id : string) (role_id : string) : user_roleE unit
| get_roles : user_roleE (list Role.role)
| delete_remove_role (id : string) (role_id : string) : user_roleE unit
| get (id : string) : user_roleE (option User.user).

Global Instance user_role_api : ApiEvent user_roleE := λ _ e,
  match e with
  | get_object _ | get_roles | get _ => GET
  | put_add_role _ _ => PUT
  | delete_remove_role _ _ => DELETE
  end.

Definition error_message : string :=
  "The user whose email address you specified does not exist or is disabled. Roles cannot be added or removed from a disabled or nonexistent user.".

(** "step through the list and add all roles that don't already exist";
    returns [changed]. *)
Fixpoint add_roles (check_mode : bool) (id : string) (existing_list : list string)
    (requested_list : list string) (changed : bool) : prog user_roleE bool :=
  match requested_list with
  | [] => mret changed
  | role :: rest =>
      if bool_decide (role ∉ existing_list) then
        if check_mode then add_roles check_mode id existing_list rest true
        else
          _ ← call (put_add_role id role);
          add_roles check_mode id existing_list rest true
      else add_roles check_mode id existing_list rest changed
  end.

(** "step through the list and remove all roles that exist"; returns
    [changed]. *)
Fixpoint remove_roles (check_mode : bool) (id : string) (existing_list : list string)
    (active_role_ids : list string) (requested_list : list string) (changed : bool)
  : prog user_roleE bool :=
  match requested_list with
  | [] => mret changed
  | role :: rest =>
      if bool_decide (role ∈ existing_list) then
        if negb check_mode && bool_decide (role ∈ active_role_ids) then
          _ ← call (delete_remove_role id role);
          remove_roles check_mode id existing_list active_role_ids rest true
        else remove_roles check_mode id existing_list active_role_ids rest true
      else remove_roles check_mode id existing_list active_role_ids rest changed
  end.

(** "Now enforce the desired state (present, absent)"; returns [changed]. *)
Definition enforce (p : params) (id : string) (existing_list : list string)
  : prog user_roleE bool :=
  match p_state p with
  | present => add_roles (check_mode p) id existing_list (p_role_ids p) false
  | absent =>
      active_roles ← call get_roles;
      let active_role_ids := Role.r_id <$> (active_roles : list Role.role) in
      remove_roles (check_mode p) id existing_list active_role_ids (p_role_ids p) false
  | query => mret false
  end.

Definition main (p : params) : prog user_roleE result :=
  existing_object ← call (get_object (p_email p));
  match existing_object with
  | None => FailJson error_message
  | Some existing =>
      let id := User.u_id existing in
      let existing_list := User.u_role_ids existing in
      changed ← enforce p id existing_list;
      query_result ← call (get id);
      mret (Result changed false query_result)
  end.

End UserRole.

(** ** tetration_agent_nat_config.py *)

Module NatConfig.

(** A NAT configuration as the API returns it. *)
Record nat_config := NatConfigRec {
  c_id : string;
  c_vrf_id : Z;
  c_src_subnet : string;
  c_src_port_range_start : Z;
  c_src_port_range_end : Z;
}.

Global Instance nat_config_eq_dec : EqDecision nat_config.
Proof. solve_decision. Defined.

(** The dictionary [new_object], also the filter of the lookup. *)
Record payload := NewObject {
  n_src_subnet : option string;
  n_src_port_range_start : option Z;
  n_src_port_range_end : option Z;
  n_vrf_id : option Z;
}.

Global Instance payload_eq_dec : EqDecision payload.
Proof. solve_decision. Defined.

Inductive object :=
| ONone
| ONat (c : nat_config)
| ONew (n : payload).

Global Instance object_eq_dec : EqDecision object.
Proof. solve_decision. Defined.

Record params := Params {
  p_state : state;
  p_src_subnet : option string;
  p_src_port_range_start : option Z;
  p_src_port_range_end : option Z;
  p_vrf_name : option string;
  p_vrf_id : option Z;
  p_nat_config_id : option string;
  p_api_version : string;
  p_server_endpoint : string;
  check_mode : bool;
}.

Record result := Result {
  changed : bool;
  api_version : string;
  tetration : string;
  r_object : object;
}.

(** Calls on [TETRATION_API_AGENT_NAT_CONFIG] and [TETRATION_API_TENANT]. *)
Inductive natE : Type → Type :=
| get_object_by_id (id : string) : natE (option nat_config)
| get_object (filter : payload) : natE (option nat_config)
| get_vrf (name : option string) : natE (option Tenant.tenant)
| post (req_payload : payload) : natE nat_config
| delete (id : string) : natE unit.

Global Instance nat_api : ApiEvent natE := λ _ e,
  match e with
  | get_object_by_id _ | get_object _ | get_vrf _ => GET
  | post _ => POST
  | delete _ => DELETE
  end.

Definition absent_message : string :=
  "Either a valid nat config id or vrf, src_subnet, src_port_range_start, and src_port_range_end is required for state 'absent'".

Definition vrf_message (vrf_name : option string) : string :=
  "A vrf could not be found matching vrf name: " +:+ fmt_str vrf_name.

(** Get current state of the object.  Returns [existing_object] and
    [vrf_id]. *)
Definition fetch (p : params) : prog natE (option nat_config * option Z) :=
  match (if truthy_str (p_nat_config_id p) then p_nat_config_id p else None) with
  | Some nat_config_id =>
      existing_object ← call (get_object_by_id nat_config_id);
      mret (existing_object, p_vrf_id p)
  | None =>
      if truthy_int (p_vrf_id p) then
        existing_object ←
          call (get_object (NewObject (p_src_subnet p) (p_src_port_range_start p)
                              (p_src_port_range_end p) (p_vrf_id p)));
        mret (existing_object, p_vrf_id p)
      else
        existing_object ← call (get_vrf (p_vrf_name p));
        match existing_object with
        | None => FailJson (vrf_message (p_vrf_name p))
        | Some vrf =>
            let vrf_id := Some (Tenant.t_id vrf) in
            existing_object ←
              call (get_object (NewObject (p_src_subnet p) (p_src_port_range_start p)
                                  (p_src_port_range_end p) vrf_id));
            mret (existing_object, vrf_id)
        end
  end.

Definition enforce_present (p : params) (existing_object : option nat_config)
    (vrf_id : option Z) : prog natE result :=
  let new_object :=
    NewObject (p_src_subnet p) (p_src_port_range_start p) (p_src_port_range_end p) vrf_id in
  match existing_object with
  | None =>
      if check_mode p then
        mret (Result true (p_api_version p) (p_server_endpoint p) (ONew new_object))
      else
        post_result ← call (post new_object);
        mret (Result true (p_api_version p) (p_server_endpoint p) (ONat post_result))
  | Some existing =>
      mret (Result false (p_api_version p) (p_server_endpoint p) (ONat existing))
  end.

Definition enforce_absent (p : params) (existing_object : option nat_config)
  : prog natE result :=
  match existing_object with
  | None => mret (Result false (p_api_version p) (p_server_endpoint p) ONone)
  | Some existing =>
      if check_mode p then
        mret (Result true (p_api_version p) (p_server_endpoint p) ONone)
      else
        _ ← call (delete (c_id existing));
        mret (Result true (p_api_version p) (p_server_endpoint p) ONone)
  end.

Definition main (p : params) : prog natE result :=
  if bool_decide (p_state p = absent)
     && negb (truthy_str (p_nat_config_id p))
     && negb (truthy_int (p_vrf_id p) || truthy_str (p_vrf_name p))
     && negb (truthy_str (p_src_subnet p) && truthy_int (p_src_port_range_end p)
              && truthy_int (p_src_port_range_start p))
  then FailJson absent_message
  else
    '(existing_object, vrf_id) ← fetch p;
    match p_state p with
    | present => enforce_present p existing_object vrf_id
    | absent => enforce_absent p existing_object
    | query =>
        mret (Result false (p_api_version p) (p_server_endpoint p)
                (from_option ONat ONone existing_object))
    end.

End NatConfig.

(** ** tetration_interface_intent.py *)

Module InterfaceIntent.

(** The interpreter decides [None >= 0]: Python 2 orders [None] below every
    integer, Python 3 raises [TypeError]. *)
Inductive python := Python2 | Python3.

(** A VRF ID as [main] holds it: the string parameter, the integer of a
    tenant record, or [None].  An integer never equals a string. *)
Inductive scalar := SNone | SInt (z : Z) | SStr (s : string).

Global Instance scalar_eq_dec : EqDecision scalar.
Proof. solve_decision. Defined.

Definition truthy_scalar (v : scalar) : bool :=
  match v with
  | SNone => false
  | SInt z => bool_decide (z ≠ 0)
  | SStr s => bool_decide (s ≠ "")
  end.

Definition fmt_scalar (v : scalar) : string :=
  match v with
  | SNone => "None"
  | SInt z => pretty z
  | SStr s => s
  end.

(** An inventory filter; only [id] is read. *)
Record inventory_filter := InventoryFilter { f_id : string; f_name : string }.

Global Instance inventory_filter_eq_dec : EqDecision inventory_filter.
Proof. solve_decision. Defined.

(** One interface config intent.  [i_inventory_filter] and [i_vrf_name] are
    the keys that check mode adds to the last intent of the list; a key
    that is not set is [None]. *)
Record intent := Intent {
  i_vrf_id : scalar;
  i_inventory_filter_id : option string;
  i_inventory_filter : option (option inventory_filter);
  i_vrf_name : option string;
}.

Global Instance intent_eq_dec : EqDecision intent.
Proof. solve_decision. Defined.

Inductive object :=
| ONone
| OIntent (i : intent)
| OIntents (l : list intent)
| OResponse (r : option (list intent)).

Inductive query_type := single | all.

Global Instance query_type_eq_dec : EqDecision query_type.
Proof. solve_decision. Defined.

Record params := Params {
  p_state : state;
  p_vrf_name : option string;
  p_vrf_id : option string;
  p_inventory_filter_id : option string;
  p_inventory_filter_name : option string;
  p_query_type : query_type;
  check_mode : bool;
}.

Record result := Result {
  changed : bool;
  r_object : object;
}.

Inductive vrf_lookup := vrf_by_name (name : option string) | vrf_by_id (id : scalar).

Inductive filter_lookup :=
| filter_by_name (name : option string) (app_scope_id : string)
| filter_by_id (id : option string).

(** Calls on [TETRATION_API_TENANT], [TETRATION_API_SCOPES],
    [TETRATION_API_INVENTORY_FILTER] and [TETRATION_API_INTERFACE_INTENTS].
    The answer to [get_intents] is [None] when it is empty, and the list
    under its ['intents'] key otherwise. *)
Inductive intentE : Type → Type :=
| get_vrf (filter : vrf_lookup) : intentE (option Tenant.tenant)
| get_scope (name : string) : intentE (option User.scope)
| get_filter (filter : filter_lookup) : intentE (option inventory_filter)
| get_intents : intentE (option (list intent))
| post_intents (intents : list intent) : intentE unit.

Global Instance intent_api : ApiEvent intentE := λ _ e,
  match e with
  | get_vrf _ | get_scope _ | get_filter _ | get_intents => GET
  | post_intents _ => POST
  end.

Definition app_scope : string := "Default".

(** [target_object_index >= 0] *)
Definition ge0 (py : python) (target_object_index : option nat) : option bool :=
  match target_object_index, py with
  | Some _, _ => Some true
  | None, Python2 => Some false
  | None, Python3 => None
  end.

(** The [for idx, intent in enumerate(current_intents)] loop, from index
    [idx] on: [target_object_index] and [result['changed']]. *)
Fixpoint find_intent (vrf_id : scalar) (inventory_filter_id : option string)
    (idx : nat) (current_intents : list intent) : option nat * bool :=
  match current_intents with
  | [] => (None, false)
  | intent :: rest =>
      if bool_decide (i_vrf_id intent = vrf_id) then
        (Some idx, bool_decide (i_inventory_filter_id intent ≠ inventory_filter_id))
      else find_intent vrf_id inventory_filter_id (S idx) rest
  end.

(** [current_intents[-1][...] = ...] for the two keys set in check mode. *)
Definition annotate_last (current_intents : list intent)
    (filter_object : option inventory_filter) (vrf_name : string) : list intent :=
  match reverse current_intents with
  | [] => []
  | last :: before =>
      reverse before ++
      [Intent (i_vrf_id last) (i_inventory_filter_id last) (Some filter_object) (Some vrf_name)]
  end.

(** Resolution of the VRF: "Get VRF ID if name passed". *)
Definition resolve_vrf (p : params) : prog intentE scalar :=
  let vrf_id := from_option SStr SNone (p_vrf_id p) in
  vrf_id ← (if negb (truthy_scalar vrf_id) then
              vrf_object ← call (get_vrf (vrf_by_name (p_vrf_name p)));
              mret (from_option (λ t, SInt (Tenant.t_id t)) SNone vrf_object)
            else mret vrf_id);
  if negb (truthy_scalar vrf_id) && bool_decide (p_state p ≠ query) then
    FailJson ("A VRF could not be found matching name: " +:+ fmt_str (p_vrf_name p))
  else mret vrf_id.

(** Resolution of the filter: "Get inventory filter id if name is passed". *)
Definition resolve_filter (p : params) : prog intentE (option string) :=
  inventory_filter_id ←
    (if negb (truthy_str (p_inventory_filter_id p)) then
       scope_object ← call (get_scope app_scope);
       match scope_object with
       | None => FailJson ("An app scope cannot be found with name: " +:+ app_scope)
       | Some sc =>
           filter_object ←
             call (get_filter (filter_by_name (p_inventory_filter_name p) (User.s_id sc)));
           mret (f_id <$> (filter_object : option inventory_filter))
       end
     else mret (p_inventory_filter_id p));
  if negb (truthy_str inventory_filter_id) && bool_decide (p_state p ≠ query) then
    FailJson ("An inventory filter could not be found matching name: "
              +:+ fmt_str (p_inventory_filter_name p))
  else mret inventory_filter_id.

Definition enforce_present (py : python) (p : params) (vrf_id : scalar)
    (inventory_filter_id : option string) (current_intents : list intent)
    (target_object_index : option nat) (changed : bool) : prog intentE result :=
  let new_object := Intent vrf_id inventory_filter_id None None in
  match ge0 py target_object_index with
  | None => Raise TypeError
  | Some found =>
      if negb found || changed then
        let current_intents :=
          if negb changed then current_intents ++ [new_object]
          else match target_object_index with
               | Some idx => <[idx := new_object]> current_intents
               | None => current_intents
               end in
        if negb (check_mode p) then
          _ ← call (post_intents current_intents);
          response ← call get_intents;
          mret (Result true (OResponse response))
        else
          filter_object ← call (get_filter (filter_by_id inventory_filter_id));
          vrf_object ← call (get_vrf (vrf_by_id vrf_id));
          match vrf_object with
          | None => Raise TypeError
          | Some vrf =>
              mret (Result true
                      (OIntents (annotate_last current_intents filter_object
                                   (Tenant.t_name vrf))))
          end
      else mret (Result false (OIntents current_intents))
  end.

Definition enforce_absent (py : python) (p : params) (vrf_id : scalar)
    (inventory_filter_id : option string) (current_intents : list intent)
    (target_object_index : option nat) (changed : bool) : prog intentE result :=
  match ge0 py target_object_index with
  | None => Raise TypeError
  | Some found =>
      if found && negb changed then
        let current_intents :=
          match target_object_index with
          | Some idx => delete idx current_intents
          | None => current_intents
          end in
        if negb (check_mode p) then
          _ ← call (post_intents current_intents);
          mret (Result true (OIntents current_intents))
        else mret (Result true (OIntents current_intents))
      else if changed then
        FailJson ("Inventory filter id " +:+ fmt_str inventory_filter_id
                  +:+ " does not match current filter associated with vrf "
                  +:+ fmt_scalar vrf_id +:+ " config intent")
      else mret (Result changed (OIntents current_intents))
  end.

Definition enforce_query (py : python) (p : params) (current_intents : list intent)
    (target_object_index : option nat) (changed : bool) : prog intentE result :=
  match p_query_type p with
  | single =>
      match ge0 py target_object_index with
      | None => Raise TypeError
      | Some true =>
          match target_object_index ≫= λ idx, current_intents !! idx with
          | Some intent => mret (Result changed (OIntent intent))
          | None => Raise IndexError
          end
      | Some false => mret (Result changed ONone)
      end
  | all => mret (Result changed (OIntents current_intents))
  end.

Definition main (py : python) (p : params) : prog intentE result :=
  if (bool_decide (p_state p ≠ query) || bool_decide (p_query_type p ≠ all))
     && negb (truthy_str (p_vrf_name p) || truthy_str (p_vrf_id p))
  then FailJson "One of the following parameters is required: vrf_name or vrf_id"
  else if (bool_decide (p_state p ≠ query) || bool_decide (p_query_type p ≠ all))
     && negb (truthy_str (p_inventory_filter_name p) || truthy_str (p_inventory_filter_id p))
  then FailJson
         "One of the following parameters is required: inventory_filter_name or inventory_filter_id"
  else
    vrf_id ← resolve_vrf p;
    inventory_filter_id ← resolve_filter p;
    response ← call get_intents;
    let current_intents := default [] (response : option (list intent)) in
    let '(target_object_index, changed) :=
      find_intent vrf_id inventory_filter_id 0 current_intents in
    match p_state p with
    | present =>
        enforce_present py p vrf_id inventory_filter_id current_intents
          target_object_index changed
    | absent =>
        enforce_absent py p vrf_id inventory_filter_id current_intents
          target_object_index changed
    | query => enforce_query py p current_intents target_object_index changed
    end.

End InterfaceIntent.

(** ** tetration_user_sevt.py *)

Module UserSevt.

(** [needle in s] for strings. *)
Fixpoint contains (needle s : string) : bool :=
  String.prefix needle s
  || match s with
     | EmptyString => false
     | String _ rest => contains needle rest
     end.

(** The dictionary [new_object]: [email] is always set; [app_scope_id] is
    unset, null (a scope name that resolves to no scope) or an ID. *)
Record payload := NewObject {
  n_email : string;
  n_first_name : option string;
  n_last_name : option string;
  n_app_scope_id : option (option string);
}.

Global Instance payload_eq_dec : EqDecision payload.
Proof. solve_decision. Defined.

Inductive object :=
| ONone
| OUser (u : User.user)
| ONew (n : payload).

Global Instance object_eq_dec : EqDecision object.
Proof. solve_decision. Defined.

Record params := Params {
  p_state : state;
  p_user_id : option string;
  p_first_name : option string;
  p_last_name : option string;
  p_email : string;
  p_app_scope_id : option string;
  p_app_scope_name : option string;
  p_reuse_domain : option string;
  check_mode : bool;
}.

Record result := Result {
  changed : bool;
  failed : bool;
  r_object : object;
}.

(** Calls on [TETRATION_API_USER] and [TETRATION_API_SCOPES].  [get_all]
    includes disabled users; the enable sub-action takes a payload when an
    account is reused. *)
Inductive userE : Type → Type :=
| get (id : option string) : userE (option User.user)
| get_all : userE (list User.user)
| get_scope (name : string) : userE (option User.scope)
| post (req_payload : payload) : userE User.user
| post_enable (id : string) (req_payload : option payload) : userE unit
| put (id : string) (req_payload : payload) : userE unit
| delete (id : string) : userE unit.

Global Instance user_api : ApiEvent userE := λ _ e,
  match e with
  | get _ | get_all | get_scope _ => GET
  | post _ | post_enable _ _ => POST
  | put _ _ => PUT
  | delete _ => DELETE
  end.

(** The [for obj in all_users] loop: [existing_user] and
    [available_user_account]. *)
Fixpoint find_user (email : string) (reuse_domain : option string)
    (available_user_account : option User.user) (all_users : list User.user)
  : option User.user * option User.user :=
  match all_users with
  | [] => (None, available_user_account)
  | obj :: rest =>
      if bool_decide (User.u_email obj = email) then (Some obj, available_user_account)
      else if bool_decide (available_user_account = None)
              && truthy_int (User.u_disabled_at obj)
              && truthy_str reuse_domain
              && contains (default "" reuse_domain) (User.u_email obj)
      then find_user email reuse_domain (Some obj) rest
      else find_user email reuse_domain available_user_account rest
  end.

(** Get current state of the object: [existing_user] and
    [available_user_account]. *)
Definition fetch (p : params) : prog userE (option User.user * option User.user) :=
  if truthy_str (p_user_id p) then
    existing_user ← call (get (p_user_id p));
    match existing_user with
    | None => FailJson ("Unable to find user with id: " +:+ fmt_str (p_user_id p))
    | Some u => mret (Some u, None)
    end
  else
    all_users ← call get_all;
    mret (find_user (p_email p) (p_reuse_domain p) None all_users).

(** "Get the app scope id if name is passed" *)
Definition resolve_scope (p : params) (new_object : payload) : prog userE payload :=
  match p_app_scope_name p with
  | Some app_scope_name =>
      if negb (truthy_str (p_app_scope_id p)) && truthy_str (Some app_scope_name) then
        app_scope ← call (get_scope app_scope_name);
        mret (NewObject (n_email new_object) (n_first_name new_object)
                (n_last_name new_object)
                (Some (User.s_id <$> (app_scope : option User.scope))))
      else mret new_object
  | None => mret new_object
  end.

(** The loop over ['email', 'first_name', 'last_name', 'app_scope_id']. *)
Definition update_needed (p : params) (existing : User.user) : bool :=
  bool_decide (User.u_email existing ≠ p_email p)
  || User.mismatch (p_first_name p) (User.u_first_name existing)
  || User.mismatch (p_last_name p) (User.u_last_name existing)
  || User.mismatch (p_app_scope_id p) (User.u_app_scope_id existing).

(** "decide what value to return" *)
Definition return_present (p : params) (changed : bool) (existing_user : option User.user)
    (new_object : payload) (user_id : option string) : prog userE result :=
  if negb changed then mret (Result changed false (from_option OUser ONone existing_user))
  else if check_mode p then mret (Result changed false (ONew new_object))
  else
    query_result ← call (get user_id);
    mret (Result changed false (from_option OUser ONone query_result)).

Definition enforce_present (p : params) (existing_user available_user_account : option User.user)
    (disabled_user : bool) : prog userE result :=
  let new_object :=
    NewObject (p_email p) (p_first_name p) (p_last_name p) (Some <$> p_app_scope_id p) in
  match existing_user with
  | None =>
      new_object ← resolve_scope p new_object;
      if check_mode p then return_present p true existing_user new_object (p_user_id p)
      else
        match available_user_account with
        | Some account =>
            _ ← call (post_enable (User.u_id account) (Some new_object));
            _ ← call (put (User.u_id account) new_object);
            return_present p true existing_user new_object (Some (User.u_id account))
        | None =>
            query_result ← call (post new_object);
            return_present p true existing_user new_object (Some (User.u_id query_result))
        end
  | Some existing =>
      let user_id :=
        if truthy_str (p_user_id p) then p_user_id p else Some (User.u_id existing) in
      _ ← (if disabled_user then call (post_enable (User.u_id existing) None) else mret ());
      let changed := disabled_user in
      if update_needed p existing then
        if check_mode p then return_present p true existing_user new_object user_id
        else
          _ ← call (put (User.u_id existing) new_object);
          return_present p true existing_user new_object user_id
      else return_present p changed existing_user new_object user_id
  end.

Definition enforce_absent (p : params) (existing_user : option User.user)
    (disabled_user : bool) : prog userE result :=
  match existing_user with
  | Some existing =>
      if negb disabled_user then
        if check_mode p then mret (Result true false (OUser existing))
        else
          _ ← (if truthy_str (p_reuse_domain p) then
                 call (put (User.u_id existing)
                         (NewObject (User.u_id existing +:+ "@" +:+ fmt_str (p_reuse_domain p))
                            None None None))
               else mret ());
          _ ← call (delete (User.u_id existing));
          mret (Result true false (OUser existing))
      else mret (Result false false ONone)
  | None => mret (Result false false ONone)
  end.

Definition main (p : params) : prog userE result :=
  '(existing_user, available_user_account) ← fetch p;
  let disabled_user :=
    match existing_user with
    | None => false
    | Some u => bool_decide (User.u_disabled_at u ≠ None)
    end in
  match p_state p with
  | present => enforce_present p existing_user available_user_account disabled_user
  | absent => enforce_absent p existing_user disabled_user
  | query => mret (Result false false (from_option OUser ONone existing_user))
  end.

End UserSevt.

(** ** Reference remote systems

    The platform behind the API is not part of the modules.  The following
    handlers are small in-memory remote systems, used to run the modules on
    concrete inputs and to state what two successive invocations do. *)

(** A decimal reading of [int] for the examples: an optional minus sign
    followed by ASCII digits. *)
Definition digit (a : ascii) : option Z :=
  let n := Z.of_nat (nat_of_ascii a) in
  if bool_decide (48 ≤ n ≤ 57) then Some (n - 48) else None.

Fixpoint dec_digits (acc : Z) (s : string) : option Z :=
  match s with
  | EmptyString => Some acc
  | String a rest => d ← digit a; dec_digits (10 * acc + d) rest
  end.

Definition dec_int : PyInt := λ s,
  match s with
  | EmptyString => None
  | String "-" EmptyString => None
  | String "-" rest => Z.opp <$> dec_digits 0 rest
  | _ => dec_digits 0 s
  end.

Module TenantServer.
Import Tenant.

Section Server.
Context `{PyInt}.

(** The integer a target [TETRATION_API_TENANT/id] or a payload names. *)
Definition id_of (id : pyid) : option Z :=
  match id with
  | IdInt z => Some z
  | IdStr s => py_int s
  end.

Definition matches (f : lookup) (t : tenant) : bool :=
  match f with
  | by_id i => bool_decide (t_id t = i)
  | by_name n => bool_decide (t_name t = n)
  end.

(** The record a POST creates: missing keys take their defaults. *)
Definition create (req_payload : payload) : tenant :=
  Tenant (default 0 (n_id req_payload ≫= id_of))
         (default "" (n_name req_payload))
         (default [] (n_switch_vrfs req_payload)).

(** The record a PUT leaves: the keys of the payload replace the fields. *)
Definition update (req_payload : payload) (t : tenant) : tenant :=
  Tenant (t_id t)
         (default (t_name t) (n_name req_payload))
         (default (t_switch_vrfs t) (n_switch_vrfs req_payload)).

(** Modelled from the spec: the client wrapper ([get_object], [run_method])
    and the tenants collection of the remote platform.  [get_object]
    returns the one record matching the filter or null; a POST creates a
    record, a PUT updates the record of that ID, a DELETE removes it, and a
    GET reads without side effect. *)
Definition serve : handler tenantE (list tenant) := λ R e store,
  match e in tenantE R return R * list tenant with
  | get_object f => (List.find (matches f) store, store)
  | get_all => (store, store)
  | post req_payload => (create req_payload, store ++ [create req_payload])
  | put id req_payload =>
      ((), (λ t, if bool_decide (Some (t_id t) = id_of id)
                 then update req_payload t else t) <$> store)
  | get id =>
      (match id_of id with
       | Some z => List.find (matches (by_id z)) store
       | None => None
       end, store)
  | delete id =>
      ((), List.filter (λ t, bool_decide (Some (t_id t) ≠ id_of id)) store)
  end.

End Server.

End TenantServer.

(** An ID that is not in [ids]: it is longer than each of them. *)
Definition fresh_id (ids : list string) : string :=
  String "#" (foldr String.append EmptyString ids).

Module UserServer.
Import User.

Record store := Store {
  users : list user;
  scopes : list scope;
}.

Definition create (ids : list string) (req_payload : payload) : user :=
  UserRec (fresh_id ids) (n_email req_payload) (n_first_name req_payload)
          (n_last_name req_payload) (n_app_scope_id req_payload) None [].

Definition update (req_payload : payload) (u : user) : user :=
  UserRec (u_id u) (n_email req_payload)
          (if n_first_name req_payload is Some v then Some v else u_first_name u)
          (if n_last_name req_payload is Some v then Some v else u_last_name u)
          (if n_app_scope_id req_payload is Some v then Some v else u_app_scope_id u)
          (u_disabled_at u) (u_role_ids u).

Definition set_disabled (at_ : option Z) (u : user) : user :=
  UserRec (u_id u) (u_email u) (u_first_name u) (u_last_name u) (u_app_scope_id u)
          at_ (u_role_ids u).

Definition on_id (id : option string) (f : user → user) (st : store) : store :=
  Store ((λ u, if bool_decide (Some (u_id u) = id) then f u else u) <$> users st)
        (scopes st).

(** Modelled from the spec: the client wrapper and the users and app scopes
    collections of the remote platform.  Users are soft-deleted: a DELETE
    sets [disabled_at], the enable sub-action clears it, and the lookup by
    email includes disabled users. *)
Definition serve : handler userE store := λ R e st,
  match e in userE R return R * store with
  | get_object email =>
      (List.find (λ u, bool_decide (u_email u = email)) (users st), st)
  | get_scope name =>
      (List.find (λ sc, bool_decide (s_name sc = name)) (scopes st), st)
  | post req_payload =>
      let u := create (u_id <$> users st) req_payload in
      (u, Store (users st ++ [u]) (scopes st))
  | post_enable id => ((), on_id id (set_disabled None) st)
  | put id req_payload => ((), on_id id (update req_payload) st)
  | get id => (List.find (λ u, bool_decide (Some (u_id u) = id)) (users st), st)
  | delete id => ((), on_id id (set_disabled (Some 1)) st)
  end.

End UserServer.

Module IntentServer.
Import InterfaceIntent.

Record store := Store {
  vrfs : list Tenant.tenant;
  scopes : list User.scope;
  filters : list inventory_filter;
  intents : list intent;
}.

(** Modelled from the spec: the client wrapper and the tenants, app scopes,
    inventory filters and interface intents of the remote platform.  The
    intents are one list, read and replaced as a whole. *)
Definition serve : handler intentE store := λ R e st,
  match e in intentE R return R * store with
  | get_vrf (vrf_by_name name) =>
      (List.find (λ t, bool_decide (Some (Tenant.t_name t) = name)) (vrfs st), st)
  | get_vrf (vrf_by_id id) =>
      (List.find (λ t, bool_decide (SInt (Tenant.t_id t) = id)) (vrfs st), st)
  | get_scope name =>
      (List.find (λ sc, bool_decide (User.s_name sc = name)) (scopes st), st)
  | get_filter (filter_by_name name _) =>
      (List.find (λ f, bool_decide (Some (f_name f) = name)) (filters st), st)
  | get_filter (filter_by_id id) =>
      (List.find (λ f, bool_decide (Some (f_id f) = id)) (filters st), st)
  | get_intents => (Some (intents st), st)
  | post_intents l => ((), Store (vrfs st) (scopes st) (filters st) l)
  end.

End IntentServer.

Module NatServer.
Import NatConfig.

Record store := Store {
  vrfs : list Tenant.tenant;
  configs : list nat_config;
}.

Definition matches (filter : payload) (c : nat_config) : bool :=
  bool_decide (Some (c_vrf_id c) = n_vrf_id filter)
  && bool_decide (Some (c_src_subnet c) = n_src_subnet filter)
  && bool_decide (Some (c_src_port_range_start c) = n_src_port_range_start filter)
  && bool_decide (Some (c_src_port_range_end c) = n_src_port_range_end filter).

Definition create (ids : list string) (req_payload : payload) : nat_config :=
  NatConfigRec (fresh_id ids)
    (default 0 (n_vrf_id req_payload))
    (default "" (n_src_subnet req_payload))
    (default 0 (n_src_port_range_start req_payload))
    (default 0 (n_src_port_range_end req_payload)).

(** Modelled from the spec: the client wrapper and the tenants and agent
    NAT configurations of the remote platform. *)
Definition serve : handler natE store := λ R e st,
  match e in natE R return R * store with
  | get_object_by_id id =>
      (List.find (λ c, bool_decide (c_id c = id)) (configs st), st)
  | get_object filter => (List.find (matches filter) (configs st), st)
  | get_vrf name =>
      (List.find (λ t, bool_decide (Some (Tenant.t_name t) = name)) (vrfs st), st)
  | post req_payload =>
      let c := create (c_id <$> configs st) req_payload in
      (c, Store (vrfs st) (configs st ++ [c]))
  | delete id =>
      ((), Store (vrfs st) (List.filter (λ c, bool_decide (c_id c ≠ id)) (configs st)))
  end.

End NatServer.

Module UserRoleServer.
Import UserRole.

Record store := Store {
  users : list User.user;
  roles : list Role.role;
}.

Definition set_roles (role_ids : list string) (u : User.user) : User.user :=
  User.UserRec (User.u_id u) (User.u_email u) (User.u_first_name u) (User.u_last_name u)
               (User.u_app_scope_id u) (User.u_disabled_at u) role_ids.

Definition on_id (id : string) (f : User.user → User.user) (st : store) : store :=
  Store ((λ u, if bool_decide (User.u_id u = id) then f u else u) <$> users st) (roles st).

(** Modelled from the spec: the client wrapper and the users and roles
    collections of the remote platform.  The lookup by email leaves out
    disabled users; [add_role] and [remove_role] edit the role list of the
    user. *)
Definition serve : handler user_roleE store := λ R e st,
  match e in user_roleE R return R * store with
  | get_object email =>
      (List.find (λ u, bool_decide (User.u_email u = email)
                       && bool_decide (User.u_disabled_at u = None)) (users st), st)
  | put_add_role id role_id =>
      ((), on_id id (λ u, set_roles (if bool_decide (role_id ∈ User.u_role_ids u)
                                     then User.u_role_ids u
                                     else User.u_role_ids u ++ [role_id]) u) st)
  | get_roles => (roles st, st)
  | delete_remove_role id role_id =>
      ((), on_id id (λ u, set_roles (List.filter (λ r, bool_decide (r ≠ role_id))
                                       (User.u_role_ids u)) u) st)
  | get id => (List.find (λ u, bool_decide (User.u_id u = id)) (users st), st)
  end.

End UserRoleServer.

Module RoleServer.
Import Role.

Definition matches (filter : lookup) (r : role) : bool :=
  match filter with
  | by_id id => bool_decide (r_id r = id)
  | by_name_scope name app_scope_id =>
      bool_decide (r_name r = name) && bool_decide (r_app_scope_id r = app_scope_id)
  end.

(** The record a POST creates: a fresh ID, the keys of the payload, and no
    capability. *)
Definition create (ids : list string) (req_payload : payload) : role :=
  RoleRec (fresh_id ids)
          (default "" (n_name req_payload))
          (default "" (n_description req_payload))
          (default "" (n_app_scope_id req_payload))
          (Some []).

(** The record a PUT leaves: name and description of the payload replace
    the fields. *)
Definition update (req_payload : payload) (r : role) : role :=
  RoleRec (r_id r)
          (default (r_name r) (n_name req_payload))
          (default (r_description r) (n_description req_payload))
          (r_app_scope_id r)
          (r_capabilities r).

Definition add (c : capability) (r : role) : role :=
  RoleRec (r_id r) (r_name r) (r_description r) (r_app_scope_id r)
          (Some (default [] (r_capabilities r) ++ [c])).

Definition on_id (id : option string) (f : role → role) (store : list role) : list role :=
  (λ r, if bool_decide (Some (r_id r) = id) then f r else r) <$> store.

(** The answer to a GET of an ID that no role has. *)
Definition not_found (id : option string) : role :=
  RoleRec (fmt_str id) "" "" "" None.

(** Modelled from the spec: the client wrapper and the roles collection of
    the remote platform, with the capabilities sub-resource.  Capabilities
    can only be added. *)
Definition serve : handler roleE (list role) := λ R e store,
  match e in roleE R return R * list role with
  | get_object filter => (List.find (matches filter) store, store)
  | get id =>
      (match id with
       | Some i => default (not_found id) (List.find (matches (by_id i)) store)
       | None => not_found id
       end, store)
  | post req_payload =>
      (create (r_id <$> store) req_payload,
       store ++ [create (r_id <$> store) req_payload])
  | put id req_payload => ((), on_id id (update req_payload) store)
  | post_capability id c => ((), on_id id (add c) store)
  | delete id =>
      ((), List.filter (λ r, bool_decide (Some (r_id r) ≠ id)) store)
  end.

End RoleServer.

(** ** Vocabulary of the properties *)

(** The parameters that the interface intent module requires unless it
    lists all intents: a VRF and an inventory filter, each by name or ID. *)
Definition intent_parameters_given (p : InterfaceIntent.params) : Prop :=
  (InterfaceIntent.p_state p = query ∧ InterfaceIntent.p_query_type p = InterfaceIntent.all)
  ∨ ((truthy_str (InterfaceIntent.p_vrf_name p)
      || truthy_str (InterfaceIntent.p_vrf_id p)) = true
     ∧ (truthy_str (InterfaceIntent.p_inventory_filter_name p)
        || truthy_str (InterfaceIntent.p_inventory_filter_id p)) = true).

(** The intent that the read phase finds for a VRF: the first of the list
    with that [vrf_id]. *)
Definition intent_of_vrf (vrf_id : InterfaceIntent.scalar)
    (current_intents : list InterfaceIntent.intent) : option InterfaceIntent.intent :=
  List.find (λ i, bool_decide (InterfaceIntent.i_vrf_id i = vrf_id)) current_intents.

(** The tenant module requires a name or an ID under [present] and
    [absent]. *)
Definition tenant_key_given (p : Tenant.params) : Prop :=
  truthy_str (Tenant.p_name p) = true ∨ truthy_str (Tenant.p_id p) = true.

(** The parameters that the NAT config module requires under [absent]. *)
Definition nat_absent_parameters_given (p : NatConfig.params) : Prop :=
  truthy_str (NatConfig.p_nat_config_id p) = true
  ∨ (truthy_int (NatConfig.p_vrf_id p) || truthy_str (NatConfig.p_vrf_name p)) = true
  ∨ (truthy_str (NatConfig.p_src_subnet p)
     && truthy_int (NatConfig.p_src_port_range_end p)
     && truthy_int (NatConfig.p_src_port_range_start p)) = true.

(** The calls of a trace on the capabilities sub-resource of a role: the
    role ID of the target and the payload. *)
Definition capability_posts (t : list (issued Role.roleE))
  : list (option string * Role.capability) :=
  omap (λ c, match c with
             | Issued e =>
                 match e with
                 | Role.post_capability id req_payload => Some (id, req_payload)
                 | _ => None
                 end
             end) t.


(** The filter of the lookup that the tenant module performs under
    [present] and [absent]: by ID when one is given, by name otherwise. *)
Definition tenant_filter `{PyInt} (p : Tenant.params) : option Tenant.lookup :=
  match Tenant.p_id p with
  | Some i => Tenant.by_id <$> py_int i
  | None => Tenant.by_name <$> Tenant.p_name p
  end.

(** The filter of the lookup of the role module: by ID when one is given,
    by name and scope otherwise. *)
Definition role_filter (p : Role.params) : option Role.lookup :=
  match Role.p_id p with
  | Some id => Some (Role.by_id id)
  | None => (λ name, Role.by_name_scope name (Role.p_app_scope_id p)) <$> Role.p_name p
  end.

(** The capability pair that a role invocation asks for is among those of
    the record (true when it asks for none). *)
Definition capability_held (p : Role.params) (r : Role.role) : Prop :=
  match Role.p_capability_ability p with
  | Some a =>
      (Role.CAPABILITIES a, Role.p_capability_appscope p)
      ∈ Role.capability_pairs (Role.ORole r)
  | None => True
  end.

Global Instance capability_held_dec p r : Decision (capability_held p r).
Proof. unfold capability_held. destruct (Role.p_capability_ability p); apply _. Defined.

(** The record that [present] of the role module leaves of an existing
    record on the reference remote system: name and description of the
    desired spec when they differ, and the requested capability added when
    the record lacks it. *)
Definition role_updated (p : Role.params) (r : Role.role) : Role.role :=
  if Role.differs p r
  then RoleServer.update (Role.NewObject (Role.p_description p) (Role.p_name p) None) r
  else r.

Definition role_with_capability (p : Role.params) (r : Role.role) : Role.role :=
  match Role.p_capability_ability p with
  | Some a =>
      if bool_decide ((Role.CAPABILITIES a, Role.p_capability_appscope p)
                      ∉ Role.capability_pairs (Role.ORole r))
      then RoleServer.add (Role.Capability (Role.CAPABILITIES a) (Role.p_capability_appscope p)) r
      else r
  | None => r
  end.

Definition role_final (p : Role.params) (r : Role.role) : Role.role :=
  role_with_capability p (role_updated p r).

(** What an invocation reports: how it ends and, when it exits, a
    projection of its result (for instance [changed]). *)
Definition outcome_map {A B} (f : A → B) (o : outcome A) : outcome B :=
  match o with
  | Exited a => Exited (f a)
  | Failed msg => Failed msg
  | Crashed exn => Crashed exn
  end.

Module UserSevtServer.
Import UserSevt.

Definition create (ids : list string) (req_payload : payload) : User.user :=
  User.UserRec (fresh_id ids) (n_email req_payload) (n_first_name req_payload)
    (n_last_name req_payload) (mjoin (n_app_scope_id req_payload)) None [].

Definition update (req_payload : payload) (u : User.user) : User.user :=
  User.UserRec (User.u_id u) (n_email req_payload)
    (if n_first_name req_payload is Some v then Some v else User.u_first_name u)
    (if n_last_name req_payload is Some v then Some v else User.u_last_name u)
    (if n_app_scope_id req_payload is Some v then v else User.u_app_scope_id u)
    (User.u_disabled_at u) (User.u_role_ids u).

Definition on_id (id : string) (f : User.user → User.user) (st : UserServer.store)
  : UserServer.store :=
  UserServer.Store
    ((λ u, if bool_decide (User.u_id u = id) then f u else u) <$> UserServer.users st)
    (UserServer.scopes st).

(** Modelled from the spec: the client wrapper and the users and app scopes
    collections of the remote platform, as for the user module.  Users are
    soft-deleted, the collection is listed with the disabled users, and the
    enable sub-action clears [disabled_at] whatever payload comes with
    it. *)
Definition serve : handler userE UserServer.store := λ R e st,
  match e in userE R return R * UserServer.store with
  | get id =>
      (List.find (λ u, bool_decide (Some (User.u_id u) = id)) (UserServer.users st), st)
  | get_all => (UserServer.users st, st)
  | get_scope name =>
      (List.find (λ sc, bool_decide (User.s_name sc = name)) (UserServer.scopes st), st)
  | post req_payload =>
      let u := create (User.u_id <$> UserServer.users st) req_payload in
      (u, UserServer.Store (UserServer.users st ++ [u]) (UserServer.scopes st))
  | post_enable id _ => ((), on_id id (UserServer.set_disabled None) st)
  | put id req_payload => ((), on_id id (update req_payload) st)
  | delete id => ((), on_id id (UserServer.set_disabled (Some 1)) st)
  end.

End UserSevtServer.

(** The account that [tetration_user_sevt] may reuse: disabled, with the
    reuse domain in its email. *)
Definition reusable (reuse_domain : option string) (u : User.user) : bool :=
  truthy_int (User.u_disabled_at u)
  && truthy_str reuse_domain
  && UserSevt.contains (default "" reuse_domain) (User.u_email u).

(** The scope names that an invocation of [tetration_user_sevt] looks up,
    in order. *)
Definition scope_lookups (t : list (issued UserSevt.userE)) : list string :=
  t ≫= λ c,
    match c with
    | Issued e => match e with UserSevt.get_scope name => [name] | _ => [] end
    end.

(** * Properties *)

(** ** Running programs *)

Lemma exec_bind {E S A B} (h : handler E S) (p : prog E A) (f : A → prog E B) (s : S) :
  exec h (p ≫= f) s =
  match exec h p s with
  | (Exited a, t, s1) => let '(o, t2, s2) := exec h (f a) s1 in (o, t ++ t2, s2)
  | (Failed msg, t, s1) => (Failed msg, t, s1)
  | (Crashed exn, t, s1) => (Crashed exn, t, s1)
  end.
Proof.
  unfold mbind, prog_bind. revert s.
  induction p as [a|msg|exn|R e k IH]; intros s; simpl.
  - by destruct (exec h (f a) s) as [[o t] s2].
  - done.
  - done.
  - destruct (h R e s) as [r s1]. rewrite IH.
    destruct (exec h (k r) s1) as [[[a|msg|exn] t] s2]; [|done..].
    by destruct (exec h (f a) s2) as [[o t2] s3].
Qed.

(** One step of [exec]: name the answer of the handler. *)
Ltac answer :=
  match goal with
  | |- context [?h ?R ?e ?s] =>
      match type of h with
      | handler _ _ => let r := fresh "r" in let s' := fresh "s" in
                       destruct (h R e s) as [r s'] eqn:?; simpl
      end
  end.

(** ** The generated tenant ID *)

Lemma countdown_spec (id : Z) (ids : list Z) :
  Tenant.countdown id ids ≤ id
  ∧ (Tenant.countdown id ids ∉ ids)
  ∧ ∀ j, Tenant.countdown id ids < j ≤ id → j ∈ ids.
Proof.
  funelim (Tenant.countdown id ids).
  - destruct H as (Hle & Hfresh & Hmax).
    split; [lia|]. split; [done|].
    intros j Hj. destruct (decide (j = id)) as [->|Hne]; [done|].
    apply Hmax. lia.
  - split; [lia|]. split; [done|]. intros j Hj. lia.
Qed.

(** C8.  When the caller supplies a name and no ID and no tenant has that
    name, the ID that [present] puts in the payload it creates the tenant
    with (the payload it posts, or returns under check mode) is the result
    of the decrementing loop, which terminates for every list of existing
    IDs: it is at most 676769, it is not the ID of an existing tenant, and
    every integer above it up to 676769 is. *)
Theorem tenant_generated_id_largest_fresh `{PyInt} {S} (h : handler Tenant.tenantE S)
    (s : S) (p : Tenant.params) (n : string) :
  Tenant.p_state p = present →
  Tenant.p_id p = None →
  Tenant.p_name p = Some n →
  n ≠ "" →
  (h _ (Tenant.get_object (Tenant.by_name n)) s).1 = None →
  let s1 := (h _ (Tenant.get_object (Tenant.by_name n)) s).2 in
  let existing_ids := Tenant.t_id <$> (h _ Tenant.get_all s1).1 in
  let id := Tenant.generate_id existing_ids in
  let new_object :=
    Tenant.NewObject (Tenant.p_switch_vrfs p) (Some n) (Some (Tenant.IdInt id)) in
  (if Tenant.check_mode p
   then exec_outcome h (Tenant.main p) s
        = Exited (Tenant.Result true false (Tenant.ONew new_object))
   else Issued (Tenant.post new_object) ∈ exec_trace h (Tenant.main p) s)
  ∧ id ≤ 676769
  ∧ (id ∉ existing_ids)
  ∧ ∀ j, id < j ≤ 676769 → j ∈ existing_ids.
Proof.
  intros Hst Hid Hname Hn Hnone s1 ids id new_object.
  split; [|apply countdown_spec].
  subst s1 ids id new_object.
  destruct p as [st name pid vrfs qt ck]; simpl in *; subst.
  unfold exec_outcome, exec_trace, Tenant.main, Tenant.fetch; simpl.
  rewrite bool_decide_true by done; simpl.
  destruct (h _ (Tenant.get_object (Tenant.by_name n)) s) as [r s1].
  simpl in Hnone; subst r; simpl.
  destruct (h _ Tenant.get_all s1) as [l s2]; simpl.
  destruct ck; simpl; [done|].
  repeat answer. set_solver.
Qed.

Lemma tenant_generated_id_largest_fresh_witness :
  let store := [Tenant.Tenant 676769 "Tetration" []; Tenant.Tenant 676768 "Unknown" [];
                Tenant.Tenant 1 "Default" []] in
  let p := Tenant.Params present (Some "Eng") None (Some []) Tenant.single false in
  Tenant.generate_id (Tenant.t_id <$> store) = 676767
  ∧ Issued (Tenant.post (Tenant.NewObject (Some []) (Some "Eng") (Some (Tenant.IdInt 676767))))
    ∈ exec_trace (TenantServer.serve (H := dec_int)) (Tenant.main (H := dec_int) p) store.
Proof.
  intros store p. split; [by vm_compute|].
  apply (tenant_generated_id_largest_fresh (H := dec_int) TenantServer.serve store p "Eng");
    by vm_compute.
Defined.

(** ** The tenant differencer *)




(** ** The app scope name of a user *)

(** C10.  A [present] invocation of the user module whose [app_scope_name]
    contains [':'], or is not empty and does not resolve to a scope, fails
    with the error message after the two lookups and before any mutation,
    whatever the remote system holds (also a scope of exactly that name). *)
Theorem user_scope_name_must_be_root {S} (now : Z) (h : handler User.userE S) (s : S)
    (p : User.params) (n : string) :
  User.p_state p = present →
  User.p_app_scope_name p = Some n →
  contains_char ":" n = true
  ∨ (n ≠ "" ∧ (h _ (User.get_scope n) (h _ (User.get_object (User.p_email p)) s).2).1 = None) →
  exec_outcome h (User.main now p) s = Failed User.error_message
  ∧ exec_trace h (User.main now p) s
    = [Issued (User.get_object (User.p_email p)); Issued (User.get_scope n)].
Proof.
  intros Hst Hname Hbad.
  assert (Hn : n ≠ "").
  { destruct Hbad as [Hc|[? _]]; [|done]. by intros ->. }
  destruct p as [st email fn ln sid sname ck]; simpl in *; subst.
  unfold exec_outcome, exec_trace, User.main; simpl.
  destruct (h _ (User.get_object email) s) as [existing s1]; simpl in *.
  unfold User.enforce_present, User.resolve_scope; simpl.
  rewrite bool_decide_true by done.
  rewrite !exec_bind; simpl.
  destruct (h _ (User.get_scope n) s1) as [[sc|] s2]; simpl in *.
  - destruct Hbad as [->|[_ ?]]; done.
  - done.
Qed.

Lemma user_scope_name_must_be_root_witness :
  let st := UserServer.Store [] [User.Scope "s1" "Default:Datacenter"] in
  let p := User.Params present "bsmith@example.com" (Some "Bob") (Some "Smith") None
             (Some "Default:Datacenter") false in
  exec_outcome UserServer.serve (User.main 0 p) st = Failed User.error_message
  ∧ exec_trace UserServer.serve (User.main 0 p) st
    = [Issued (User.get_object "bsmith@example.com");
       Issued (User.get_scope "Default:Datacenter")].
Proof.
  intros st p.
  apply (user_scope_name_must_be_root 0 UserServer.serve st p "Default:Datacenter").
  - reflexivity.
  - reflexivity.
  - left. reflexivity.
Defined.

(** ** Programs that issue no mutating call *)

Lemma quiet_bind {E A B} `{ApiEvent E} (p : prog E A) (f : A → prog E B) :
  quiet p → (∀ a, quiet (f a)) → quiet (p ≫= f).
Proof.
  intros Hp Hf. unfold mbind, prog_bind.
  induction Hp as [a|msg|exn|R e k Hm Hk IH]; simpl; [done|constructor..]; done.
Qed.

Lemma quiet_mret {E A} `{ApiEvent E} (a : A) : quiet (mret a : prog E A).
Proof. constructor. Qed.

Lemma quiet_call {E R} `{ApiEvent E} (e : E R) :
  mutating (method_name e) = false → quiet (call e).
Proof. intros Hm. constructor; [done|]. intros r. constructor. Qed.

Lemma quiet_read_only {E S A} `{ApiEvent E} (h : handler E S) (p : prog E A) (s : S) :
  quiet p → read_only (exec_trace h p s).
Proof.
  unfold read_only, exec_trace, methods. intros Hp. revert s.
  induction Hp as [a|msg|exn|R e k Hm Hk IH]; intros s; simpl; [constructor..|].
  specialize (IH (h R e s).1 (h R e s).2).
  destruct (h R e s) as [r s1]; simpl in *.
  destruct (exec h (k r) s1) as [[o t] s2]; simpl in *.
  constructor; done.
Qed.

(** A read-only trace holds no DELETE (nor POST, nor PUT). *)
Lemma read_only_no_delete {E} `{ApiEvent E} (t : list (issued E)) :
  read_only t → (DELETE ∉ methods t) ∧ (POST ∉ methods t) ∧ (PUT ∉ methods t).
Proof.
  unfold read_only. rewrite Forall_forall. intros Hro.
  split; [|split]; intros Hin; by specialize (Hro _ Hin).
Qed.

(** Case analysis driven by the shape of the program. *)
Ltac quiet_step :=
  first
    [ apply quiet_mret
    | apply quiet_call; reflexivity
    | apply quiet_Ret
    | apply quiet_FailJson
    | apply quiet_Raise
    | apply quiet_bind; [|intros ?]
    | apply quiet_Call; [reflexivity|intros ?]
    | match goal with |- quiet (match ?x with _ => _ end) => destruct x eqn:? end
    | match goal with |- quiet (let '(_, _) := ?x in _) => destruct x eqn:? end
    | progress simpl ].

Ltac quiet_auto := repeat quiet_step.

(** In check mode the tenant, role, user-role, NAT config and interface
    intent modules issue no mutating call. *)
Lemma tenant_check_mode_quiet `{PyInt} (p : Tenant.params) :
  Tenant.check_mode p = true → quiet (Tenant.main p).
Proof.
  intros Hck. unfold Tenant.main, Tenant.fetch, Tenant.ensure_id,
    Tenant.enforce_present, Tenant.enforce_absent, Tenant.return_present.
  rewrite Hck. quiet_auto.
Qed.

Lemma role_check_mode_quiet (p : Role.params) :
  Role.check_mode p = true → quiet (Role.main p).
Proof.
  intros Hck. unfold Role.main, Role.fetch, Role.enforce_present, Role.enforce_absent,
    Role.add_capability, Role.return_present.
  rewrite Hck. quiet_auto.
Qed.

Lemma add_roles_check_mode_quiet id existing requested changed :
  quiet (UserRole.add_roles true id existing requested changed).
Proof.
  revert changed. induction requested as [|role rest IH]; intros changed; simpl.
  - quiet_auto.
  - case_bool_decide; apply IH.
Qed.

Lemma remove_roles_check_mode_quiet id existing active requested changed :
  quiet (UserRole.remove_roles true id existing active requested changed).
Proof.
  revert changed. induction requested as [|role rest IH]; intros changed; simpl.
  - quiet_auto.
  - case_bool_decide; apply IH.
Qed.

Lemma user_role_check_mode_quiet (p : UserRole.params) :
  UserRole.check_mode p = true → quiet (UserRole.main p).
Proof.
  intros Hck. unfold UserRole.main, UserRole.enforce. rewrite Hck.
  apply quiet_bind; [quiet_auto|]. intros [existing|]; [|quiet_auto].
  apply quiet_bind; [|intros ?; quiet_auto].
  destruct (UserRole.p_state p).
  - apply add_roles_check_mode_quiet.
  - apply quiet_bind; [quiet_auto|]. intros ?. apply remove_roles_check_mode_quiet.
  - quiet_auto.
Qed.

Lemma nat_config_check_mode_quiet (p : NatConfig.params) :
  NatConfig.check_mode p = true → quiet (NatConfig.main p).
Proof.
  intros Hck. unfold NatConfig.main, NatConfig.fetch, NatConfig.enforce_present,
    NatConfig.enforce_absent.
  rewrite Hck. quiet_auto.
Qed.

Lemma interface_intent_check_mode_quiet py (p : InterfaceIntent.params) :
  InterfaceIntent.check_mode p = true → quiet (InterfaceIntent.main py p).
Proof.
  intros Hck. unfold InterfaceIntent.main, InterfaceIntent.resolve_vrf,
    InterfaceIntent.resolve_filter, InterfaceIntent.enforce_present,
    InterfaceIntent.enforce_absent, InterfaceIntent.enforce_query.
  rewrite Hck. quiet_auto.
Qed.

(** So does the user module, unless the state is [present] and the matched
    user is disabled. *)
Lemma user_check_mode_quiet_unless_disabled now (p : User.params) :
  User.check_mode p = true → User.p_state p ≠ present → quiet (User.main now p).
Proof.
  intros Hck Hst. unfold User.main, User.enforce_absent.
  rewrite Hck. destruct (User.p_state p); [done|..]; quiet_auto.
Qed.

Lemma user_check_mode_read_only_active {S} now (h : handler User.userE S) (s : S)
    (p : User.params) :
  User.check_mode p = true →
  match (h _ (User.get_object (User.p_email p)) s).1 with
  | Some u => User.u_disabled_at u = None
  | None => True
  end →
  read_only (exec_trace h (User.main now p) s).
Proof.
  intros Hck Hactive.
  destruct (decide (User.p_state p = present)) as [Hst|Hst];
    [|by apply quiet_read_only, user_check_mode_quiet_unless_disabled].
  unfold read_only, methods, exec_trace, User.main. rewrite Hst. simpl.
  destruct (h _ (User.get_object (User.p_email p)) s) as [existing s1]; simpl in *.
  assert (Hq : quiet (User.enforce_present p existing
                        match existing with
                        | Some u => bool_decide (User.u_disabled_at u ≠ None)
                        | None => false
                        end (User.u_id <$> existing))).
  { unfold User.enforce_present, User.resolve_scope, User.return_present.
    rewrite Hck. destruct existing as [u|]; simpl.
    - rewrite Hactive. simpl. quiet_auto.
    - quiet_auto. }
  apply (quiet_read_only h _ s1) in Hq. unfold read_only, methods, exec_trace in Hq.
  destruct (exec h _ s1) as [[o t] s2]; simpl in *. by constructor.
Qed.

(** With a disabled user matched, [present] posts the enable sub-action
    even in check mode. *)
Lemma user_check_mode_enable_issued {S} now (h : handler User.userE S) (s : S)
    (p : User.params) (u : User.user) :
  User.check_mode p = true →
  User.p_state p = present →
  User.p_app_scope_name p = None →
  (h _ (User.get_object (User.p_email p)) s).1 = Some u →
  User.u_disabled_at u ≠ None →
  Issued (User.post_enable (Some (User.u_id u))) ∈ exec_trace h (User.main now p) s.
Proof.
  intros Hck Hst Hname Hu Hdis.
  unfold exec_trace, User.main. rewrite Hst. simpl.
  destruct (h _ (User.get_object (User.p_email p)) s) as [existing s1]; simpl in *; subst.
  unfold User.enforce_present, User.resolve_scope. rewrite Hname. simpl.
  rewrite bool_decide_true by done. simpl.
  answer. destruct (exec h _ _) as [[o t] s2]. simpl. set_solver.
Qed.

(** C1.  Check mode on, state [present], and the user matched by email is
    disabled: the invocation issues a POST (the enable sub-action), and the
    user is enabled in the remote system afterwards. *)
Theorem user_check_mode_reenables_disabled_user :
  let bob := User.UserRec "u1" "bsmith@example.com" (Some "Bob") (Some "Smith") None
               (Some 1541993885) [] in
  let st := UserServer.Store [bob] [] in
  let p := User.Params present "bsmith@example.com" None None None None true in
  User.check_mode p = true
  ∧ methods (exec_trace UserServer.serve (User.main 0 p) st) = [GET; POST]
  ∧ ¬ read_only (exec_trace UserServer.serve (User.main 0 p) st)
  ∧ UserServer.users (exec_state UserServer.serve (User.main 0 p) st)
    = [User.UserRec "u1" "bsmith@example.com" (Some "Bob") (Some "Smith") None None []].
Proof.
  intros bob st p. split; [done|]. split; [by vm_compute|]. split; [|by vm_compute].
  intros Hro. unfold read_only in Hro.
  replace (methods _) with [GET; POST] in Hro by (by vm_compute).
  by inversion_clear Hro as [|?? _ Hpost]; inversion_clear Hpost.
Qed.

(** ** The interface intent module *)

(** The loop finds the first intent of the VRF, and sets [changed] when its
    inventory filter differs. *)
Lemma find_intent_spec vrf_id fid (k : nat) (l : list InterfaceIntent.intent) :
  match intent_of_vrf vrf_id l with
  | Some it =>
      ∃ j, InterfaceIntent.find_intent vrf_id fid k l
           = (Some (k + j)%nat, bool_decide (InterfaceIntent.i_inventory_filter_id it ≠ fid))
           ∧ l !! j = Some it
  | None => InterfaceIntent.find_intent vrf_id fid k l = (None, false)
  end.
Proof.
  unfold intent_of_vrf. revert k. induction l as [|it l IH]; intros k; simpl; [done|].
  case_bool_decide as Hv.
  - exists 0%nat. by rewrite Nat.add_0_r.
  - specialize (IH (S k)).
    destruct (List.find _ l) as [it'|]; [|done].
    destruct IH as (j & Hf & Hj). exists (S j). split; [|done].
    rewrite Hf. f_equal. f_equal. lia.
Qed.

(** [main] after the two resolutions: read the intents, find the one of the
    VRF, and enforce the state. *)
Lemma interface_intent_main_exec {S} py (h : handler InterfaceIntent.intentE S) (s : S)
    (p : InterfaceIntent.params) vrf_id t1 s1 fid t2 s2 :
  intent_parameters_given p →
  exec h (InterfaceIntent.resolve_vrf p) s = (Exited vrf_id, t1, s1) →
  exec h (InterfaceIntent.resolve_filter p) s1 = (Exited fid, t2, s2) →
  exec h (InterfaceIntent.main py p) s =
  let current_intents := default [] (h _ InterfaceIntent.get_intents s2).1 in
  let found := InterfaceIntent.find_intent vrf_id fid 0 current_intents in
  let '(o, t, s4) :=
    exec h
      match InterfaceIntent.p_state p with
      | present =>
          InterfaceIntent.enforce_present py p vrf_id fid current_intents found.1 found.2
      | absent =>
          InterfaceIntent.enforce_absent py p vrf_id fid current_intents found.1 found.2
      | query => InterfaceIntent.enforce_query py p current_intents found.1 found.2
      end (h _ InterfaceIntent.get_intents s2).2 in
  (o, t1 ++ t2 ++ Issued InterfaceIntent.get_intents :: t, s4).
Proof.
  intros Hgiven Hvrf Hfilter. unfold InterfaceIntent.main.
  assert (Hpre : ((bool_decide (InterfaceIntent.p_state p ≠ query)
                   || bool_decide (InterfaceIntent.p_query_type p ≠ InterfaceIntent.all))
                  && negb (truthy_str (InterfaceIntent.p_vrf_name p)
                           || truthy_str (InterfaceIntent.p_vrf_id p)) = false)
                 ∧ ((bool_decide (InterfaceIntent.p_state p ≠ query)
                     || bool_decide (InterfaceIntent.p_query_type p ≠ InterfaceIntent.all))
                    && negb (truthy_str (InterfaceIntent.p_inventory_filter_name p)
                             || truthy_str (InterfaceIntent.p_inventory_filter_id p)) = false)).
  { destruct Hgiven as [[-> ->]|[-> ->]]; simpl.
    - done.
    - by rewrite !andb_false_r. }
  destruct Hpre as [-> ->].
  rewrite exec_bind, Hvrf, exec_bind, Hfilter. simpl.
  destruct (h _ InterfaceIntent.get_intents s2) as [response s3]; simpl.
  destruct (InterfaceIntent.find_intent vrf_id fid 0 (default [] response))
    as [idx changed]; simpl.
  by destruct (exec h _ s3) as [[o t] s4].
Qed.

Lemma resolve_vrf_quiet p : quiet (InterfaceIntent.resolve_vrf p).
Proof. unfold InterfaceIntent.resolve_vrf. quiet_auto. Qed.

Lemma resolve_filter_quiet p : quiet (InterfaceIntent.resolve_filter p).
Proof. unfold InterfaceIntent.resolve_filter. quiet_auto. Qed.

Lemma read_only_app {E} `{ApiEvent E} (t1 t2 : list (issued E)) :
  read_only t1 → read_only t2 → read_only (t1 ++ t2).
Proof. unfold read_only, methods. rewrite fmap_app. apply Forall_app_2. Qed.

(** C9.  Under state [query], whenever the read phase finds an intent for
    the resolved VRF (the first of the list with that [vrf_id]) whose
    [inventory_filter_id] differs from the resolved inventory filter, the
    invocation exits with [changed=true] although it issues no mutating
    call. *)
Theorem interface_intent_query_reports_changed {S} py
    (h : handler InterfaceIntent.intentE S) (s : S) (p : InterfaceIntent.params)
    vrf_id t1 s1 fid t2 s2 (it : InterfaceIntent.intent) :
  InterfaceIntent.p_state p = query →
  intent_parameters_given p →
  exec h (InterfaceIntent.resolve_vrf p) s = (Exited vrf_id, t1, s1) →
  exec h (InterfaceIntent.resolve_filter p) s1 = (Exited fid, t2, s2) →
  intent_of_vrf vrf_id (default [] (h _ InterfaceIntent.get_intents s2).1) = Some it →
  InterfaceIntent.i_inventory_filter_id it ≠ fid →
  ∃ r, exec_outcome h (InterfaceIntent.main py p) s = Exited r
       ∧ InterfaceIntent.changed r = true
       ∧ read_only (exec_trace h (InterfaceIntent.main py p) s).
Proof.
  intros Hst Hgiven Hvrf Hfilter Hit Hne.
  unfold exec_outcome, exec_trace.
  rewrite (interface_intent_main_exec py h s p _ _ _ _ _ _ Hgiven Hvrf Hfilter).
  rewrite Hst. simpl.
  pose proof (find_intent_spec vrf_id fid 0
                (default [] (h _ InterfaceIntent.get_intents s2).1)) as Hfind.
  rewrite Hit in Hfind. destruct Hfind as (j & -> & Hj). simpl.
  rewrite bool_decide_true by done.
  assert (Hro : read_only (t1 ++ t2 ++ [Issued InterfaceIntent.get_intents])).
  { apply read_only_app; [|apply read_only_app].
    - pose proof (quiet_read_only h _ s (resolve_vrf_quiet p)) as Hq.
      unfold exec_trace in Hq. by rewrite Hvrf in Hq.
    - pose proof (quiet_read_only h _ s1 (resolve_filter_quiet p)) as Hq.
      unfold exec_trace in Hq. by rewrite Hfilter in Hq.
    - by repeat constructor. }
  unfold InterfaceIntent.enforce_query.
  destruct (InterfaceIntent.p_query_type p); simpl.
  - rewrite Hj. simpl. eauto.
  - eauto.
Qed.

Lemma interface_intent_query_reports_changed_witness :
  let eng := Tenant.Tenant 7 "Eng" [] in
  let old := InterfaceIntent.Intent (InterfaceIntent.SInt 7) (Some "f-old") None None in
  let st := IntentServer.Store [eng] [] [] [old] in
  let p := InterfaceIntent.Params query (Some "Eng") None (Some "f-new") None
             InterfaceIntent.single false in
  ∃ r, exec_outcome IntentServer.serve (InterfaceIntent.main InterfaceIntent.Python3 p) st
       = Exited r
       ∧ InterfaceIntent.changed r = true
       ∧ read_only (exec_trace IntentServer.serve
                      (InterfaceIntent.main InterfaceIntent.Python3 p) st).
Proof.
  intros eng old st p.
  apply (interface_intent_query_reports_changed InterfaceIntent.Python3 IntentServer.serve
           st p (InterfaceIntent.SInt 7)
           [Issued (InterfaceIntent.get_vrf (InterfaceIntent.vrf_by_name (Some "Eng")))]
           st (Some "f-new") [] st old).
  - reflexivity.
  - right. split; reflexivity.
  - reflexivity.
  - reflexivity.
  - reflexivity.
  - discriminate.
Defined.

(** ** Resolution failures *)












(** ** [absent] with nothing to delete *)

Lemma exec_trace_read_only {E S A} `{ApiEvent E} (h : handler E S) (p : prog E A) (s : S)
    o t s1 :
  quiet p → exec h p s = (o, t, s1) → read_only t.
Proof.
  intros Hq Hexec. pose proof (quiet_read_only h p s Hq) as Hro.
  unfold exec_trace in Hro. by rewrite Hexec in Hro.
Qed.

Lemma tenant_fetch_quiet `{PyInt} p : quiet (Tenant.fetch p).
Proof. unfold Tenant.fetch. quiet_auto. Qed.

Lemma tenant_absent_noop `{PyInt} {S} (h : handler Tenant.tenantE S) (s : S)
    (p : Tenant.params) existing id t s1 :
  Tenant.p_state p = absent →
  tenant_key_given p →
  exec h (Tenant.fetch p) s = (Exited (existing, id), t, s1) →
  Tenant.truthy existing = false →
  ∃ r, exec_outcome h (Tenant.main p) s = Exited r
       ∧ Tenant.changed r = false
       ∧ read_only (exec_trace h (Tenant.main p) s).
Proof.
  intros Hst Hkey Hfetch Hnone.
  unfold exec_outcome, exec_trace, Tenant.main.
  assert (Hpre : negb (truthy_str (Tenant.p_name p)) && negb (truthy_str (Tenant.p_id p))
                 = false).
  { destruct Hkey as [-> | ->]; [done|by rewrite andb_false_r]. }
  rewrite Hpre, andb_false_r, exec_bind, Hfetch, Hst. simpl.
  rewrite exec_bind. unfold Tenant.enforce_absent. rewrite Hnone.
  pose proof (exec_trace_read_only h _ s _ _ _ (tenant_fetch_quiet p) Hfetch) as Hro.
  destruct id as [id|]; simpl.
  - rewrite app_nil_r. eauto.
  - answer. eexists. split; [done|]. split; [done|].
    apply read_only_app; [done|by repeat constructor].
Qed.

Lemma user_absent_noop {S} now (h : handler User.userE S) (s : S) (p : User.params) :
  User.p_state p = absent →
  match (h _ (User.get_object (User.p_email p)) s).1 with
  | Some u => User.u_disabled_at u ≠ None
  | None => True
  end →
  ∃ r, exec_outcome h (User.main now p) s = Exited r
       ∧ User.changed r = false
       ∧ exec_trace h (User.main now p) s = [Issued (User.get_object (User.p_email p))].
Proof.
  intros Hst Hgone. unfold exec_outcome, exec_trace, User.main. rewrite Hst. simpl.
  destruct (h _ (User.get_object (User.p_email p)) s) as [[u|] s1]; simpl in *.
  - rewrite bool_decide_true by done. simpl. eauto.
  - eauto.
Qed.

Lemma role_fetch_quiet p : quiet (Role.fetch p).
Proof. unfold Role.fetch. quiet_auto. Qed.

Lemma role_absent_noop {S} (h : handler Role.roleE S) (s : S) (p : Role.params)
    existing id t s1 :
  Role.p_state p = absent →
  exec h (Role.fetch p) s = (Exited (existing, id), t, s1) →
  Role.truthy existing = false →
  ∃ r, exec_outcome h (Role.main p) s = Exited r
       ∧ Role.changed r = false
       ∧ read_only (exec_trace h (Role.main p) s).
Proof.
  intros Hst Hfetch Hnone.
  unfold exec_outcome, exec_trace, Role.main.
  rewrite exec_bind, Hfetch, Hst. simpl.
  unfold Role.enforce_absent. rewrite Hnone. simpl. rewrite app_nil_r.
  pose proof (exec_trace_read_only h _ s _ _ _ (role_fetch_quiet p) Hfetch). eauto.
Qed.

Lemma nat_config_fetch_quiet p : quiet (NatConfig.fetch p).
Proof. unfold NatConfig.fetch. quiet_auto. Qed.

Lemma nat_config_absent_noop {S} (h : handler NatConfig.natE S) (s : S)
    (p : NatConfig.params) vrf_id t s1 :
  NatConfig.p_state p = absent →
  nat_absent_parameters_given p →
  exec h (NatConfig.fetch p) s = (Exited (None, vrf_id), t, s1) →
  ∃ r, exec_outcome h (NatConfig.main p) s = Exited r
       ∧ NatConfig.changed r = false
       ∧ read_only (exec_trace h (NatConfig.main p) s).
Proof.
  intros Hst Hgiven Hfetch.
  unfold exec_outcome, exec_trace, NatConfig.main.
  assert (Hpre : bool_decide (NatConfig.p_state p = absent)
                 && negb (truthy_str (NatConfig.p_nat_config_id p))
                 && negb (truthy_int (NatConfig.p_vrf_id p)
                          || truthy_str (NatConfig.p_vrf_name p))
                 && negb (truthy_str (NatConfig.p_src_subnet p)
                          && truthy_int (NatConfig.p_src_port_range_end p)
                          && truthy_int (NatConfig.p_src_port_range_start p)) = false).
  { destruct Hgiven as [-> | [-> | ->]]; simpl; by rewrite ?andb_false_r. }
  rewrite Hpre, exec_bind, Hfetch, Hst. simpl. rewrite app_nil_r.
  pose proof (exec_trace_read_only h _ s _ _ _ (nat_config_fetch_quiet p) Hfetch). eauto.
Qed.

Lemma interface_intent_absent_noop {S} (h : handler InterfaceIntent.intentE S) (s : S)
    (p : InterfaceIntent.params) vrf_id t1 s1 fid t2 s2 :
  InterfaceIntent.p_state p = absent →
  intent_parameters_given p →
  exec h (InterfaceIntent.resolve_vrf p) s = (Exited vrf_id, t1, s1) →
  exec h (InterfaceIntent.resolve_filter p) s1 = (Exited fid, t2, s2) →
  intent_of_vrf vrf_id (default [] (h _ InterfaceIntent.get_intents s2).1) = None →
  ∃ r, exec_outcome h (InterfaceIntent.main InterfaceIntent.Python2 p) s = Exited r
       ∧ InterfaceIntent.changed r = false
       ∧ read_only (exec_trace h (InterfaceIntent.main InterfaceIntent.Python2 p) s).
Proof.
  intros Hst Hgiven Hvrf Hfilter Hnone.
  unfold exec_outcome, exec_trace.
  rewrite (interface_intent_main_exec _ h s p _ _ _ _ _ _ Hgiven Hvrf Hfilter).
  rewrite Hst. simpl.
  pose proof (find_intent_spec vrf_id fid 0
                (default [] (h _ InterfaceIntent.get_intents s2).1)) as Hfind.
  rewrite Hnone in Hfind. rewrite Hfind. simpl.
  eexists. split; [done|]. split; [done|].
  apply read_only_app; [|apply read_only_app].
  - by eapply exec_trace_read_only; [apply resolve_vrf_quiet|].
  - by eapply exec_trace_read_only; [apply resolve_filter_quiet|].
  - by repeat constructor.
Qed.

Lemma remove_roles_nothing {S} (h : handler UserRole.user_roleE S) (s : S) ck id
    existing active requested changed :
  (∀ role, role ∈ requested → role ∉ existing) →
  exec h (UserRole.remove_roles ck id existing active requested changed) s
  = (Exited changed, [], s).
Proof.
  revert changed. induction requested as [|role rest IH]; intros changed Hno; simpl.
  - done.
  - rewrite bool_decide_false by (apply Hno; set_solver).
    apply IH. intros r Hr. apply Hno. set_solver.
Qed.

Lemma user_role_absent_noop {S} (h : handler UserRole.user_roleE S) (s : S)
    (p : UserRole.params) (u : User.user) :
  UserRole.p_state p = absent →
  (h _ (UserRole.get_object (UserRole.p_email p)) s).1 = Some u →
  (∀ role, role ∈ UserRole.p_role_ids p → role ∉ User.u_role_ids u) →
  ∃ r, exec_outcome h (UserRole.main p) s = Exited r
       ∧ UserRole.changed r = false
       ∧ read_only (exec_trace h (UserRole.main p) s).
Proof.
  intros Hst Hu Hno. unfold exec_outcome, exec_trace, UserRole.main. simpl.
  destruct (h _ (UserRole.get_object _) s) as [r s1]; simpl in *; subst r. simpl.
  change (bind ?p ?f) with (p ≫= f). rewrite exec_bind.
  unfold UserRole.enforce. rewrite Hst, exec_bind. simpl.
  destruct (h _ UserRole.get_roles s1) as [roles s2]; simpl.
  rewrite remove_roles_nothing by done. simpl.
  answer. eexists. split; [done|]. split; [done|]. by repeat constructor.
Qed.

(** [absent] when the read phase finds no matching resource (no tenant, no
    role, no NAT config, no intent of the VRF, none of the requested role
    IDs in the user's list, no user, or a user that is already disabled)
    exits with [changed=false] and issues no mutating call, in particular
    no DELETE.  The interface intent module is run under Python 2 here,
    where [None >= 0] is false; Python 3 is treated below. *)
Theorem absent_without_match_changes_nothing :
  (∀ (H : PyInt) S (h : handler Tenant.tenantE S) s p existing id t s1,
     Tenant.p_state p = absent →
     tenant_key_given p →
     exec h (Tenant.fetch p) s = (Exited (existing, id), t, s1) →
     Tenant.truthy existing = false →
     ∃ r, exec_outcome h (Tenant.main p) s = Exited r
          ∧ Tenant.changed r = false
          ∧ read_only (exec_trace h (Tenant.main p) s))
  ∧ (∀ S now (h : handler User.userE S) s p,
       User.p_state p = absent →
       match (h _ (User.get_object (User.p_email p)) s).1 with
       | Some u => User.u_disabled_at u ≠ None
       | None => True
       end →
       ∃ r, exec_outcome h (User.main now p) s = Exited r
            ∧ User.changed r = false
            ∧ exec_trace h (User.main now p) s
              = [Issued (User.get_object (User.p_email p))])
  ∧ (∀ S (h : handler Role.roleE S) s p existing id t s1,
       Role.p_state p = absent →
       exec h (Role.fetch p) s = (Exited (existing, id), t, s1) →
       Role.truthy existing = false →
       ∃ r, exec_outcome h (Role.main p) s = Exited r
            ∧ Role.changed r = false
            ∧ read_only (exec_trace h (Role.main p) s))
  ∧ (∀ S (h : handler NatConfig.natE S) s p vrf_id t s1,
       NatConfig.p_state p = absent →
       nat_absent_parameters_given p →
       exec h (NatConfig.fetch p) s = (Exited (None, vrf_id), t, s1) →
       ∃ r, exec_outcome h (NatConfig.main p) s = Exited r
            ∧ NatConfig.changed r = false
            ∧ read_only (exec_trace h (NatConfig.main p) s))
  ∧ (∀ S (h : handler InterfaceIntent.intentE S) s p vrf_id t1 s1 fid t2 s2,
       InterfaceIntent.p_state p = absent →
       intent_parameters_given p →
       exec h (InterfaceIntent.resolve_vrf p) s = (Exited vrf_id, t1, s1) →
       exec h (InterfaceIntent.resolve_filter p) s1 = (Exited fid, t2, s2) →
       intent_of_vrf vrf_id (default [] (h _ InterfaceIntent.get_intents s2).1) = None →
       ∃ r, exec_outcome h (InterfaceIntent.main InterfaceIntent.Python2 p) s = Exited r
            ∧ InterfaceIntent.changed r = false
            ∧ read_only (exec_trace h (InterfaceIntent.main InterfaceIntent.Python2 p) s))
  ∧ (∀ S (h : handler UserRole.user_roleE S) s p u,
       UserRole.p_state p = absent →
       (h _ (UserRole.get_object (UserRole.p_email p)) s).1 = Some u →
       (∀ role, role ∈ UserRole.p_role_ids p → role ∉ User.u_role_ids u) →
       ∃ r, exec_outcome h (UserRole.main p) s = Exited r
            ∧ UserRole.changed r = false
            ∧ read_only (exec_trace h (UserRole.main p) s)).
Proof.
  split; [|split; [|split; [|split; [|split]]]]; intros.
  - by eapply tenant_absent_noop.
  - by apply user_absent_noop.
  - by eapply role_absent_noop.
  - by eapply nat_config_absent_noop.
  - by eapply interface_intent_absent_noop.
  - by eapply user_role_absent_noop.
Qed.

Lemma absent_without_match_changes_nothing_witness :
  let bob roles := User.UserRec "u1" "bsmith@example.com" (Some "Bob") (Some "Smith") None
                     (Some 1541993885) roles in
  let ann := User.UserRec "u2" "ann@example.com" (Some "Ann") (Some "Lee") None None ["B"] in
  let tenant_p := Tenant.Params absent (Some "Eng") None (Some []) Tenant.single false in
  let user_p := User.Params absent "bsmith@example.com" None None None None false in
  let role_p := Role.Params absent (Some "ops") None "" None None None false in
  let nat_p := NatConfig.Params absent (Some "10.0.0.0/8") (Some 1) (Some 1024) None (Some 7)
                 None "v1" "tetration.example.com" false in
  let intent_p := InterfaceIntent.Params absent None (Some "7") (Some "f1") None
                    InterfaceIntent.single false in
  let user_role_p := UserRole.Params absent "ann@example.com" ["A"] false in
  (∃ r, exec_outcome (TenantServer.serve (H := dec_int)) (Tenant.main (H := dec_int) tenant_p) []
        = Exited r
        ∧ Tenant.changed r = false
        ∧ read_only (exec_trace (TenantServer.serve (H := dec_int))
                       (Tenant.main (H := dec_int) tenant_p) []))
  ∧ (∃ r, exec_outcome UserServer.serve (User.main 0 user_p) (UserServer.Store [bob []] [])
          = Exited r
          ∧ User.changed r = false
          ∧ exec_trace UserServer.serve (User.main 0 user_p) (UserServer.Store [bob []] [])
            = [Issued (User.get_object "bsmith@example.com")])
  ∧ (∃ r, exec_outcome RoleServer.serve (Role.main role_p) [] = Exited r
          ∧ Role.changed r = false
          ∧ read_only (exec_trace RoleServer.serve (Role.main role_p) []))
  ∧ (∃ r, exec_outcome NatServer.serve (NatConfig.main nat_p) (NatServer.Store [] [])
          = Exited r
          ∧ NatConfig.changed r = false
          ∧ read_only (exec_trace NatServer.serve (NatConfig.main nat_p)
                         (NatServer.Store [] [])))
  ∧ (∃ r, exec_outcome IntentServer.serve
            (InterfaceIntent.main InterfaceIntent.Python2 intent_p)
            (IntentServer.Store [] [] [] [])
          = Exited r
          ∧ InterfaceIntent.changed r = false
          ∧ read_only (exec_trace IntentServer.serve
                         (InterfaceIntent.main InterfaceIntent.Python2 intent_p)
                         (IntentServer.Store [] [] [] [])))
  ∧ (∃ r, exec_outcome UserRoleServer.serve (UserRole.main user_role_p)
            (UserRoleServer.Store [ann] [])
          = Exited r
          ∧ UserRole.changed r = false
          ∧ read_only (exec_trace UserRoleServer.serve (UserRole.main user_role_p)
                         (UserRoleServer.Store [ann] []))).
Proof.
  intros bob ann tenant_p user_p role_p nat_p intent_p user_role_p.
  destruct absent_without_match_changes_nothing
    as (Htenant & Huser & Hrole & Hnat & Hintent & Huser_role).
  split; [|split; [|split; [|split; [|split]]]].
  - apply (Htenant dec_int _ TenantServer.serve [] tenant_p Tenant.ONone None
             [Issued (Tenant.get_object (Tenant.by_name "Eng"))] []).
    + reflexivity.
    + left. reflexivity.
    + reflexivity.
    + reflexivity.
  - apply (Huser _ 0 UserServer.serve (UserServer.Store [bob []] []) user_p).
    + reflexivity.
    + discriminate.
  - apply (Hrole _ RoleServer.serve [] role_p Role.ONone None
             [Issued (Role.get_object (Role.by_name_scope "ops" ""))] []).
    + reflexivity.
    + reflexivity.
    + reflexivity.
  - apply (Hnat _ NatServer.serve (NatServer.Store [] []) nat_p (Some 7)
             [Issued (NatConfig.get_object
                        (NatConfig.NewObject (Some "10.0.0.0/8") (Some 1) (Some 1024) (Some 7)))]
             (NatServer.Store [] [])).
    + reflexivity.
    + right. left. reflexivity.
    + reflexivity.
  - apply (Hintent _ IntentServer.serve (IntentServer.Store [] [] [] []) intent_p
             (InterfaceIntent.SStr "7") [] (IntentServer.Store [] [] [] [])
             (Some "f1") [] (IntentServer.Store [] [] [] [])).
    + reflexivity.
    + right. split; reflexivity.
    + reflexivity.
    + reflexivity.
    + reflexivity.
  - apply (Huser_role _ UserRoleServer.serve (UserRoleServer.Store [ann] []) user_role_p ann).
    + reflexivity.
    + reflexivity.
    + intros role Hin. apply list_elem_of_singleton in Hin. subst role.
      intros Hin. apply list_elem_of_singleton in Hin. discriminate.
Defined.

(** C3.  The interface intent module breaks the claim under Python 3.  On
    [absent], when no intent of the list has the VRF's ID,
    [target_object_index] is still [None] and the test
    [target_object_index >= 0] of the [absent] branch raises [TypeError]:
    the invocation dies with the exception after the reads instead of
    exiting with [changed=false].  Nothing is posted.  Under Python 2,
    where [None >= 0] is false, the same invocation reaches the last branch
    and exits with [changed=false] and the list as read. *)
Theorem interface_intent_absent_python3_raises :
  let intent_p := InterfaceIntent.Params absent None (Some "7") (Some "f1") None
                    InterfaceIntent.single false in
  let st := IntentServer.Store [] [] [] [] in
  exec IntentServer.serve (InterfaceIntent.main InterfaceIntent.Python3 intent_p) st
  = (Crashed TypeError, [Issued InterfaceIntent.get_intents], st)
  ∧ exec IntentServer.serve (InterfaceIntent.main InterfaceIntent.Python2 intent_p) st
    = (Exited (InterfaceIntent.Result false (InterfaceIntent.OIntents [])),
       [Issued InterfaceIntent.get_intents], st).
Proof. split; reflexivity. Qed.

(** ** Role bindings of a user *)

(** [present] adds a role that the roles collection does not hold without
    reading that collection, and [absent] leaves a role of the user that
    the roles collection no longer holds. *)
Lemma user_role_present_skips_role_list :
  let bob roles := User.UserRec "u1" "bsmith@example.com" (Some "Bob") (Some "Smith") None
                     None roles in
  let p st := UserRole.Params st "bsmith@example.com" ["ghost"] false in
  exec_trace UserRoleServer.serve (UserRole.main (p present)) (UserRoleServer.Store [bob []] [])
  = [Issued (UserRole.get_object "bsmith@example.com");
     Issued (UserRole.put_add_role "u1" "ghost");
     Issued (UserRole.get "u1")]
  ∧ exec_trace UserRoleServer.serve (UserRole.main (p absent))
      (UserRoleServer.Store [bob ["ghost"]] [])
    = [Issued (UserRole.get_object "bsmith@example.com");
       Issued UserRole.get_roles;
       Issued (UserRole.get "u1")].
Proof. by vm_compute. Qed.

(** The scenario of the spec: [present] with roles A and B, then [absent]
    with role A, leaves role B only. *)
Lemma user_role_present_then_absent :
  let bob := User.UserRec "u1" "bsmith@example.com" (Some "Bob") (Some "Smith") None
               None [] in
  let roles := [Role.RoleRec "A" "admin" "" "" None; Role.RoleRec "B" "reader" "" "" None] in
  let p st ids := UserRole.Params st "bsmith@example.com" ids false in
  let st1 := exec_state UserRoleServer.serve (UserRole.main (p present ["A"; "B"]))
               (UserRoleServer.Store [bob] roles) in
  let st2 := exec_state UserRoleServer.serve (UserRole.main (p absent ["A"])) st1 in
  User.u_role_ids <$> UserRoleServer.users st2 = [["B"]].
Proof. by vm_compute. Qed.

Lemma add_roles_exec {S} (h : handler UserRole.user_roleE S) (s : S) id existing
    requested changed :
  exec_outcome h (UserRole.add_roles false id existing requested changed) s
  = Exited (changed || bool_decide (filter (λ r, r ∉ existing) requested ≠ []))
  ∧ exec_trace h (UserRole.add_roles false id existing requested changed) s
    = (λ r, Issued (UserRole.put_add_role id r)) <$> filter (λ r, r ∉ existing) requested.
Proof.
  unfold exec_outcome, exec_trace.
  revert s changed. induction requested as [|role rest IH]; intros s changed; simpl.
  - by rewrite orb_false_r.
  - rewrite filter_cons. destruct (decide (role ∉ existing)) as [Hin|Hin].
    + rewrite bool_decide_true by done. simpl.
      destruct (h _ (UserRole.put_add_role id role) s) as [[] s1]; simpl.
      specialize (IH s1 true). destruct (exec h _ s1) as [[o t] s2]; simpl in *.
      destruct IH as [-> ->]. by rewrite orb_true_r.
    + rewrite bool_decide_false by done. apply IH.
Qed.

Lemma remove_roles_exec {S} (h : handler UserRole.user_roleE S) (s : S) id existing
    active requested changed :
  exec_outcome h (UserRole.remove_roles false id existing active requested changed) s
  = Exited (changed || bool_decide (filter (λ r, r ∈ existing) requested ≠ []))
  ∧ exec_trace h (UserRole.remove_roles false id existing active requested changed) s
    = (λ r, Issued (UserRole.delete_remove_role id r))
        <$> filter (λ r, r ∈ existing ∧ r ∈ active) requested.
Proof.
  unfold exec_outcome, exec_trace.
  revert s changed. induction requested as [|role rest IH]; intros s changed; simpl.
  - by rewrite orb_false_r.
  - rewrite !filter_cons. destruct (decide (role ∈ existing)) as [Hin|Hin].
    + rewrite (bool_decide_true (role ∈ existing)) by done. simpl.
      destruct (decide (role ∈ active)) as [Hact|Hact].
      * rewrite bool_decide_true by done. rewrite decide_True by done. simpl.
        destruct (h _ (UserRole.delete_remove_role id role) s) as [[] s1]; simpl.
        specialize (IH s1 true). destruct (exec h _ s1) as [[o t] s2]; simpl in *.
        destruct IH as [-> ->]. by rewrite orb_true_r.
      * rewrite bool_decide_false by done. rewrite decide_False by (by intros [_ ?]).
        simpl. specialize (IH s true). destruct (exec h _ s) as [[o t] s2]; simpl in *.
        destruct IH as [-> ->]. by rewrite orb_true_r.
    + rewrite (bool_decide_false (role ∈ existing)) by done.
      rewrite decide_False by (by intros [? _]). apply IH.
Qed.

(** C6 (amended).  With check mode off and the user found, [present]
    issues [add_role] for exactly the requested role IDs that are not in
    the role list of the user, in order, and does not read the roles
    collection; [absent] reads the roles collection and then issues
    [remove_role] for exactly the requested role IDs that are in the role
    list of the user and among the IDs of the roles read.  [changed] tells
    whether a requested ID was missing from (present) or found in (absent)
    the role list of the user. *)
Theorem user_role_union_and_difference {S} (h : handler UserRole.user_roleE S) (s : S)
    (p : UserRole.params) (u : User.user) :
  UserRole.check_mode p = false →
  (h _ (UserRole.get_object (UserRole.p_email p)) s).1 = Some u →
  let id := User.u_id u in
  let existing_list := User.u_role_ids u in
  let s1 := (h _ (UserRole.get_object (UserRole.p_email p)) s).2 in
  let active_role_ids := Role.r_id <$> (h _ UserRole.get_roles s1).1 in
  (UserRole.p_state p = present →
   exec_trace h (UserRole.main p) s
   = Issued (UserRole.get_object (UserRole.p_email p))
     :: ((λ r, Issued (UserRole.put_add_role id r))
           <$> filter (λ r, r ∉ existing_list) (UserRole.p_role_ids p))
     ++ [Issued (UserRole.get id)]
   ∧ ∃ r, exec_outcome h (UserRole.main p) s = Exited r
          ∧ UserRole.changed r
            = bool_decide (filter (λ r, r ∉ existing_list) (UserRole.p_role_ids p) ≠ []))
  ∧ (UserRole.p_state p = absent →
     exec_trace h (UserRole.main p) s
     = Issued (UserRole.get_object (UserRole.p_email p))
       :: Issued UserRole.get_roles
       :: ((λ r, Issued (UserRole.delete_remove_role id r))
             <$> filter (λ r, r ∈ existing_list ∧ r ∈ active_role_ids) (UserRole.p_role_ids p))
       ++ [Issued (UserRole.get id)]
     ∧ ∃ r, exec_outcome h (UserRole.main p) s = Exited r
            ∧ UserRole.changed r
              = bool_decide (filter (λ r, r ∈ existing_list) (UserRole.p_role_ids p) ≠ [])).
Proof.
  intros Hck Hu id existing_list s1 active_role_ids.
  subst id existing_list s1 active_role_ids.
  unfold exec_outcome, exec_trace, UserRole.main. simpl.
  destruct (h _ (UserRole.get_object _) s) as [r s1]; simpl in *; subst r. simpl.
  change (bind ?p ?f) with (p ≫= f). rewrite exec_bind.
  unfold UserRole.enforce. rewrite Hck. split; intros ->.
  - pose proof (add_roles_exec h s1 (User.u_id u) (User.u_role_ids u)
                  (UserRole.p_role_ids p) false) as [Ho Ht].
    unfold exec_outcome, exec_trace in Ho, Ht.
    destruct (exec h (UserRole.add_roles _ _ _ _ _) s1) as [[o t] s2]; simpl in *.
    subst o t. simpl. answer. eauto.
  - rewrite exec_bind. simpl.
    destruct (h _ UserRole.get_roles s1) as [roles s2]; simpl.
    pose proof (remove_roles_exec h s2 (User.u_id u) (User.u_role_ids u)
                  (Role.r_id <$> roles) (UserRole.p_role_ids p) false) as [Ho Ht].
    unfold exec_outcome, exec_trace in Ho, Ht.
    destruct (exec h (UserRole.remove_roles _ _ _ _ _ _) s2) as [[o t] s3]; simpl in *.
    subst o t. simpl. answer. eauto.
Qed.

Lemma user_role_union_and_difference_witness :
  let bob := User.UserRec "u1" "bsmith@example.com" (Some "Bob") (Some "Smith") None
               None ["A"; "stale"] in
  let roles := [Role.RoleRec "A" "admin" "" "" None; Role.RoleRec "B" "reader" "" "" None] in
  let st := UserRoleServer.Store [bob] roles in
  let p state := UserRole.Params state "bsmith@example.com" ["A"; "B"; "stale"] false in
  exec_trace UserRoleServer.serve (UserRole.main (p present)) st
  = [Issued (UserRole.get_object "bsmith@example.com");
     Issued (UserRole.put_add_role "u1" "B");
     Issued (UserRole.get "u1")]
  ∧ exec_trace UserRoleServer.serve (UserRole.main (p absent)) st
    = [Issued (UserRole.get_object "bsmith@example.com");
       Issued UserRole.get_roles;
       Issued (UserRole.delete_remove_role "u1" "A");
       Issued (UserRole.get "u1")].
Proof.
  intros bob roles st p. split.
  - apply (user_role_union_and_difference UserRoleServer.serve st (p present) bob);
      reflexivity.
  - apply (user_role_union_and_difference UserRoleServer.serve st (p absent) bob);
      reflexivity.
Defined.

(** ** Capabilities of a role *)



Lemma capability_posts_app t1 t2 :
  capability_posts (t1 ++ t2) = capability_posts t1 ++ capability_posts t2.
Proof. apply omap_app. Qed.



(** ** [present] twice *)

(** [present] on a tenant that matches the desired spec reports
    [changed=false] on the first invocation already. *)
Lemma tenant_present_on_match_unchanged :
  let eng := Tenant.Tenant 5 "Eng" ["v1"; "v2"] in
  let p := Tenant.Params present (Some "Eng") None (Some ["v2"; "v1"]) Tenant.single false in
  exec (TenantServer.serve (H := dec_int)) (Tenant.main (H := dec_int) p) [eng]
  = (Exited (Tenant.Result false false (Tenant.OTenant eng)),
     [Issued (Tenant.get_object (Tenant.by_name "Eng"))], [eng]).
Proof. by vm_compute. Qed.

Lemma find_snoc {A} (P : A → bool) (l : list A) (x : A) :
  List.find P l = None → List.find P (l ++ [x]) = if P x then Some x else None.
Proof.
  induction l as [|y l IH]; simpl; [done|]. destruct (P y); [done|]. apply IH.
Qed.

Lemma find_snoc_some {A} (P : A → bool) (l : list A) (x y : A) :
  List.find P l = Some y → List.find P (l ++ [x]) = Some y.
Proof.
  induction l as [|z l IH]; simpl; [done|]. destruct (P z); [done|]. apply IH.
Qed.

Lemma find_fmap_stable {A} (P : A → bool) (f : A → A) (l : list A) :
  (∀ x, P (f x) = P x) → List.find P (f <$> l) = f <$> List.find P l.
Proof.
  intros HP. induction l as [|y l IH]; simpl; [done|].
  rewrite HP. destruct (P y); [done|]. apply IH.
Qed.

(** The scenario of the tenant module on an empty system: create, repeat,
    then change the switch VRFs. *)
Lemma tenant_scenario :
  let run p st := exec (TenantServer.serve (H := dec_int)) (Tenant.main (H := dec_int) p) st in
  let p vrfs := Tenant.Params present (Some "Eng") None (Some vrfs) Tenant.single false in
  let eng vrfs := Tenant.Tenant 676769 "Eng" vrfs in
  (run (p []) []).1.1 = Exited (Tenant.Result true false (Tenant.OTenant (eng [])))
  ∧ (run (p []) [eng []]).1.1 = Exited (Tenant.Result false false (Tenant.OTenant (eng [])))
  ∧ (run (p ["v2"; "v1"]) [eng []]).1.1
    = Exited (Tenant.Result true false (Tenant.OTenant (eng ["v2"; "v1"])))
  ∧ (run (p ["v1"; "v2"]) [eng ["v2"; "v1"]]).1.1
    = Exited (Tenant.Result false false (Tenant.OTenant (eng ["v2"; "v1"]))).
Proof. by vm_compute. Qed.

Section TenantTwice.
Context `{PyInt}.
Import Tenant TenantServer.

Lemma tenant_differs_created (p : params) (id : pyid) :
  differs p (create (NewObject (p_switch_vrfs p) (p_name p) (Some id))) = false.
Proof.
  unfold differs, create. simpl.
  destruct (p_name p) as [n|]; simpl; [rewrite bool_decide_false by (by intros [])|];
    (destruct (p_switch_vrfs p) as [l|]; simpl; [|done]).
  all: unfold set_ne; by rewrite bool_decide_false by (by intros []).
Qed.

Lemma tenant_differs_updated (p : params) (t : tenant) :
  differs p (update (NewObject (p_switch_vrfs p) (p_name p) None) t) = false.
Proof.
  unfold differs, update. simpl.
  destruct (p_name p) as [n|]; simpl; [rewrite bool_decide_false by (by intros [])|];
    (destruct (p_switch_vrfs p) as [l|]; simpl; [|done]).
  all: unfold set_ne; by rewrite bool_decide_false by (by intros []).
Qed.

Lemma find_by_id_updated (z : Z) (req : payload) (store : list tenant) :
  List.find (matches (by_id z))
    ((λ t, if bool_decide (Some (t_id t) = Some z) then update req t else t) <$> store)
  = update req <$> List.find (matches (by_id z)) store.
Proof.
  induction store as [|t l IH]; simpl; [done|].
  destruct (decide (t_id t = z)) as [Heq|Hne].
  - rewrite (bool_decide_true (Some _ = Some _)) by congruence. simpl.
    by rewrite !bool_decide_true by done.
  - rewrite (bool_decide_false (Some _ = Some _)) by congruence.
    by rewrite bool_decide_false by done.
Qed.

Lemma find_by_id_unique (t : tenant) (store : list tenant) :
  NoDup (t_id <$> store) → t ∈ store →
  List.find (matches (by_id (t_id t))) store = Some t.
Proof.
  induction store as [|x l IH]; intros Hnd Hin; [by apply elem_of_nil in Hin|].
  simpl in *. apply NoDup_cons in Hnd as [Hx Hnd].
  apply elem_of_cons in Hin as [->|Hin].
  - by rewrite bool_decide_true.
  - rewrite bool_decide_false; [by apply IH|].
    intros Heq. apply Hx. rewrite Heq. by apply list_elem_of_fmap_2.
Qed.

Lemma find_by_name_updated (n : string) (t : tenant) (req : payload) (store : list tenant) :
  NoDup (t_id <$> store) →
  List.find (matches (by_name n)) store = Some t →
  n_name req = Some n →
  List.find (matches (by_name n))
    ((λ x, if bool_decide (Some (t_id x) = Some (t_id t)) then update req x else x) <$> store)
  = Some (update req t).
Proof.
  intros Hnd Hfind Hname. induction store as [|x l IH]; simpl in *; [done|].
  apply NoDup_cons in Hnd as [Hx Hnd].
  destruct (decide (t_name x = n)) as [Heq|Hne].
  - rewrite bool_decide_true in Hfind by done. injection Hfind as Hxt. subst x.
    rewrite (bool_decide_true (Some _ = Some _)) by done. simpl. rewrite Hname. simpl.
    by rewrite bool_decide_true.
  - rewrite bool_decide_false in Hfind by done.
    assert (Hin : t ∈ l).
    { apply find_some in Hfind as [Hin _]. by apply list_elem_of_In. }
    rewrite (bool_decide_false (Some _ = Some _)).
    + simpl. rewrite bool_decide_false by done. by apply IH.
    + intros [= Heq]. apply Hx. rewrite Heq. by apply list_elem_of_fmap_2.
Qed.

Lemma tenant_present_twice (p : params) (store : list tenant) (f : lookup) :
  p_state p = present →
  check_mode p = false →
  tenant_key_given p →
  tenant_filter p = Some f →
  NoDup (t_id <$> store) →
  ∃ r1 t2,
    exec_outcome serve (main p) store = Exited r1
    ∧ (changed r1 = true ↔
       match List.find (matches f) store with
       | None => True
       | Some existing => differs p existing = true
       end)
    ∧ exec serve (main p) (exec_state serve (main p) store)
      = (Exited (Result false false (r_object r1)), t2, exec_state serve (main p) store)
    ∧ read_only t2.
Proof.
  intros Hst Hck Hkey Hf Hnd.
  assert (Hpre : negb (truthy_str (p_name p)) && negb (truthy_str (p_id p)) = false).
  { destruct Hkey as [-> | ->]; [done|by rewrite andb_false_r]. }
  unfold exec_outcome, exec_state, main, fetch, tenant_filter in *.
  rewrite Hpre, andb_false_r, Hst. simpl.
  destruct (p_id p) as [i|] eqn:Hid.
  - (* lookup by ID *)
    destruct (py_int i) as [z|] eqn:Hz; [|done]. simpl in Hf. injection Hf as <-.
    simpl. destruct (List.find (matches (by_id z)) store) as [t|] eqn:Hfind; simpl.
    + destruct (differs p t) eqn:Hd; unfold enforce_present, return_present; simpl;
        rewrite Hd, Hck; simpl.
      * rewrite Hz. rewrite (find_by_id_updated z).
        rewrite Hfind. simpl. rewrite tenant_differs_updated. simpl.
        eexists _, _. split; [done|]. split; [done|]. split; [done|].
        by repeat constructor.
      * rewrite Hfind. simpl. rewrite Hd. simpl.
        eexists _, _. split; [done|]. split; [by split|]. split; [done|].
        by repeat constructor.
    + unfold enforce_present, return_present; simpl. rewrite Hck. simpl.
      rewrite Hz. simpl.
      rewrite !(find_snoc _ _ _ Hfind). simpl. rewrite !Hz. simpl.
      rewrite !bool_decide_true by done.
      simpl. rewrite tenant_differs_created. simpl.
      eexists _, _. split; [done|]. split; [done|]. split; [done|].
      by repeat constructor.
  - (* lookup by name *)
    destruct (p_name p) as [n|] eqn:Hname; [|done]. simpl in Hf. injection Hf as <-.
    simpl. destruct (List.find (matches (by_name n)) store) as [t|] eqn:Hfind; simpl.
    + assert (Htn : t_name t = n).
      { apply find_some in Hfind as [_ Ht]. by apply bool_decide_eq_true in Ht. }
      assert (Hin : t ∈ store).
      { apply find_some in Hfind as [Hin _]. by apply list_elem_of_In. }
      destruct (differs p t) eqn:Hd; unfold enforce_present, return_present; simpl;
        rewrite Hd, Hck; simpl.
      * rewrite (find_by_id_updated (t_id t)).
        rewrite (find_by_id_unique t store Hnd Hin). simpl.
        rewrite (find_by_name_updated n t _ store Hnd Hfind) by (by rewrite Hname).
        simpl. rewrite tenant_differs_updated. simpl.
        eexists _, _. split; [done|]. split; [done|]. split; [done|].
        by repeat constructor.
      * rewrite Hfind. simpl. rewrite Hd. simpl.
        eexists _, _. split; [done|]. split; [by split|]. split; [done|].
        by repeat constructor.
    + unfold enforce_present, return_present; simpl. rewrite Hck. simpl.
      pose proof (countdown_spec 676769 (t_id <$> store)) as (_ & Hfresh & _).
      fold (generate_id (t_id <$> store)) in Hfresh.
      set (g := generate_id (t_id <$> store)) in *.
      assert (Hnone : List.find (matches (by_id g)) store = None).
      { destruct (List.find (matches (by_id g)) store) as [x|] eqn:Hx; [|done].
        apply find_some in Hx as [Hin Hx]. apply bool_decide_eq_true in Hx.
        destruct Hfresh. rewrite <- Hx. apply list_elem_of_fmap_2. by apply list_elem_of_In. }
      rewrite (find_snoc _ _ _ Hnone). simpl. rewrite bool_decide_true by done.
      rewrite (find_snoc _ _ _ Hfind). simpl.
      rewrite (bool_decide_true (default "" (p_name p) = n)) by (by rewrite Hname).
      simpl. rewrite tenant_differs_created. simpl.
      eexists _, _. split; [done|]. split; [done|]. split; [done|].
      by repeat constructor.
Qed.

End TenantTwice.

Lemma length_append (a b : string) :
  String.length (a +:+ b) = (String.length a + String.length b)%nat.
Proof. induction a as [|c a IH]; simpl; [done|]. by rewrite IH. Qed.

Lemma fresh_id_fresh (ids : list string) : fresh_id ids ∉ ids.
Proof.
  assert (Hlen : ∀ x, x ∈ ids →
            (String.length x ≤ String.length (foldr String.append EmptyString ids))%nat).
  { induction ids as [|y l IH]; intros x Hx; [by apply elem_of_nil in Hx|].
    simpl. rewrite length_append.
    apply elem_of_cons in Hx as [->|Hx]; [lia|]. specialize (IH x Hx). lia. }
  intros Hin. specialize (Hlen _ Hin). unfold fresh_id in Hlen. simpl in Hlen. lia.
Qed.

Section RoleTwice.
Import Role RoleServer.

Lemma role_final_id p r : r_id (role_final p r) = r_id r.
Proof.
  unfold role_final, role_with_capability, role_updated.
  destruct (p_capability_ability p); [case_bool_decide|]; destruct (differs p r); done.
Qed.

Lemma role_final_scope p r : r_app_scope_id (role_final p r) = r_app_scope_id r.
Proof.
  unfold role_final, role_with_capability, role_updated.
  destruct (p_capability_ability p); [case_bool_decide|]; destruct (differs p r); done.
Qed.

Lemma differs_update p r :
  differs p (update (NewObject (p_description p) (p_name p) None) r) = false.
Proof.
  unfold differs, update; simpl.
  destruct (p_name p); destruct (p_description p); simpl;
    by rewrite ?bool_decide_false by (by intros []).
Qed.

Lemma differs_add p c r : differs p (add c r) = differs p r.
Proof. done. Qed.

Lemma differs_final p r : differs p (role_final p r) = false.
Proof.
  unfold role_final, role_with_capability.
  assert (Hu : differs p (role_updated p r) = false).
  { unfold role_updated. destruct (differs p r) eqn:Hd; [apply differs_update|done]. }
  destruct (p_capability_ability p); [case_bool_decide|]; by rewrite ?differs_add.
Qed.

Lemma capability_pairs_update req r :
  capability_pairs (ORole (update req r)) = capability_pairs (ORole r).
Proof. done. Qed.

Lemma capability_held_final p r : capability_held p (role_final p r).
Proof.
  unfold capability_held, role_final, role_with_capability.
  destruct (p_capability_ability p) as [a|]; [|done].
  case_bool_decide as Hin.
  - unfold add, capability_pairs. simpl. rewrite fmap_app. set_solver.
  - done.
Qed.

Lemma find_role_on_id (i : string) (g : role → role) (store : list role) :
  (∀ x, r_id (g x) = r_id x) →
  List.find (matches (by_id i)) (on_id (Some i) g store)
  = g <$> List.find (matches (by_id i)) store.
Proof.
  intros Hg. unfold on_id. induction store as [|x l IH]; simpl; [done|].
  destruct (decide (r_id x = i)) as [Heq|Hne].
  - rewrite (bool_decide_true (Some _ = Some _)) by congruence.
    rewrite Hg. by rewrite !bool_decide_true by done.
  - rewrite (bool_decide_false (Some _ = Some _)) by congruence.
    by rewrite bool_decide_false by done.
Qed.

Lemma find_role_unique (r : role) (store : list role) :
  NoDup (r_id <$> store) → r ∈ store →
  List.find (matches (by_id (r_id r))) store = Some r.
Proof.
  induction store as [|x l IH]; intros Hnd Hin; [by apply elem_of_nil in Hin|].
  simpl in *. apply NoDup_cons in Hnd as [Hx Hnd].
  apply elem_of_cons in Hin as [->|Hin].
  - by rewrite bool_decide_true.
  - rewrite bool_decide_false; [by apply IH|].
    intros Heq. apply Hx. rewrite Heq. by apply list_elem_of_fmap_2.
Qed.

Lemma find_role_name_on_id (n sc : string) (r : role) (g : role → role)
    (store : list role) :
  NoDup (r_id <$> store) →
  List.find (matches (by_name_scope n sc)) store = Some r →
  r_name (g r) = n →
  r_app_scope_id (g r) = sc →
  List.find (matches (by_name_scope n sc)) (on_id (Some (r_id r)) g store) = Some (g r).
Proof.
  intros Hnd Hfind Hn Hsc. unfold on_id.
  induction store as [|x l IH]; simpl in *; [done|].
  apply NoDup_cons in Hnd as [Hx Hnd].
  destruct (bool_decide (r_name x = n) && bool_decide (r_app_scope_id x = sc)) eqn:Hm.
  - injection Hfind as ->.
    rewrite (bool_decide_true (Some _ = Some _)) by done.
    by rewrite Hn, Hsc, !bool_decide_true.
  - assert (Hin : r ∈ l).
    { apply find_some in Hfind as [Hin _]. by apply list_elem_of_In. }
    rewrite (bool_decide_false (Some _ = Some _)).
    + rewrite Hm. by apply IH.
    + intros [= Heq]. apply Hx. rewrite Heq. by apply list_elem_of_fmap_2.
Qed.

Lemma on_id_compose (id : option string) (f g : role → role) (store : list role) :
  (∀ x, r_id (g x) = r_id x) →
  on_id id f (on_id id g store) = on_id id (f ∘ g) store.
Proof.
  intros Hg. unfold on_id. rewrite <- list_fmap_compose. apply list_fmap_ext.
  intros _ x _. simpl. destruct (decide (Some (r_id x) = id)) as [Hx|Hx].
  - rewrite (bool_decide_true (Some (r_id x) = id)) by done.
    by rewrite Hg, bool_decide_true.
  - rewrite (bool_decide_false (Some (r_id x) = id)) by done.
    by rewrite bool_decide_false.
Qed.

Lemma on_id_fresh (i : string) (g : role → role) (store : list role) (r : role) :
  i ∉ r_id <$> store → r_id r = i →
  on_id (Some i) g (store ++ [r]) = store ++ [g r].
Proof.
  intros Hfresh Hr. unfold on_id. rewrite fmap_app. simpl.
  rewrite (bool_decide_true (Some _ = Some _)) by congruence. f_equal.
  induction store as [|x l IH]; simpl in *; [done|].
  apply not_elem_of_cons in Hfresh as [Hx Hl].
  rewrite bool_decide_false by congruence. f_equal. by apply IH.
Qed.

Lemma on_id_ids (id : option string) (g : role → role) (store : list role) :
  (∀ x, r_id (g x) = r_id x) → r_id <$> on_id id g store = r_id <$> store.
Proof.
  intros Hg. unfold on_id. rewrite <- list_fmap_compose. apply list_fmap_ext.
  intros _ x _. simpl. by case_bool_decide.
Qed.

Lemma capability_held_bool (p : params) (r : role) :
  bool_decide (¬ capability_held p r)
  = match p_capability_ability p with
    | Some a =>
        bool_decide ((CAPABILITIES a, p_capability_appscope p) ∉ capability_pairs (ORole r))
    | None => false
    end.
Proof.
  destruct (p_capability_ability p) as [a|] eqn:Ha.
  - apply bool_decide_ext. unfold capability_held. by rewrite Ha.
  - apply bool_decide_eq_false. intros Hn. apply Hn. unfold capability_held. by rewrite Ha.
Qed.

(** [present] with the record [r] of ID [i] found. *)
Lemma role_enforce_existing (p : params) (store : list role) (r : role) (i : string) :
  check_mode p = false →
  List.find (matches (by_id i)) store = Some r →
  ∃ t g,
    g r = role_final p r
    ∧ (∀ x, r_id (g x) = r_id x)
    ∧ exec serve (enforce_present p (ORole r) (Some i)) store
      = (Exited (Result (differs p r || bool_decide (¬ capability_held p r)) false
                   (ORole (role_final p r))),
         t, on_id (Some i) g store).
Proof.
  intros Hck Hfind.
  assert (Hid0 : on_id (Some i) (λ x, x) store = store).
  { unfold on_id. rewrite <- (list_fmap_id store) at 2. apply list_fmap_ext.
    intros _ x _. by case_bool_decide. }
  rewrite capability_held_bool.
  unfold enforce_present, role_final, role_updated, role_with_capability,
    add_capability, return_present.
  rewrite Hck. simpl.
  destruct (differs p r) eqn:Hd; simpl;
    (destruct (p_capability_ability p) as [a|] eqn:Ha; simpl;
     [rewrite ?capability_pairs_update;
      destruct (decide ((CAPABILITIES a, p_capability_appscope p)
                        ∈ capability_pairs (ORole r))) as [Hin|Hin];
      [rewrite !(bool_decide_false (_ ∉ _)) by (by intros ?)
      |rewrite !(bool_decide_true (_ ∉ _)) by done]
     |]); simpl.
  - rewrite find_role_on_id by done. rewrite Hfind. simpl.
    eexists _, (update _). split; [done|]. split; [done|]. done.
  - rewrite on_id_compose by done. rewrite find_role_on_id by done. rewrite Hfind. simpl.
    eexists _, (add _ ∘ update _). split; [done|]. split; [done|]. done.
  - rewrite find_role_on_id by done. rewrite Hfind. simpl.
    eexists _, (update _). split; [done|]. split; [done|]. done.
  - eexists _, (λ x, x). split; [done|]. split; [done|]. by rewrite Hid0.
  - rewrite find_role_on_id by done. rewrite Hfind. simpl.
    eexists _, (add _). split; [done|]. split; [done|]. done.
  - eexists _, (λ x, x). split; [done|]. split; [done|]. by rewrite Hid0.
Qed.

(** [present] with no record found: the role is created. *)
Lemma role_enforce_create (p : params) (store : list role) (existing : object)
    (id : option string) :
  check_mode p = false →
  truthy existing = false →
  let new_object :=
    if bool_decide (p_app_scope_id p ≠ "")
    then NewObject (p_description p) (p_name p) (Some (p_app_scope_id p))
    else NewObject (p_description p) (p_name p) None in
  let created := role_with_capability p (create (r_id <$> store) new_object) in
  ∃ t, exec serve (enforce_present p existing id) store
       = (Exited (Result true false (ORole created)), t, store ++ [created]).
Proof.
  intros Hck Hnone new_object created. subst created.
  pose proof (fresh_id_fresh (r_id <$> store)) as Hfresh.
  assert (Hpairs : capability_pairs existing = []).
  { by destruct existing. }
  assert (Hfind : ∀ r, r_id r = fresh_id (r_id <$> store) →
            List.find (matches (by_id (fresh_id (r_id <$> store)))) (store ++ [r]) = Some r).
  { intros r Hr. rewrite find_snoc; simpl; [by rewrite bool_decide_true|].
    destruct (List.find _ store) as [x|] eqn:Hx; [|done].
    apply find_some in Hx as [Hin Hx]. apply bool_decide_eq_true in Hx.
    destruct Hfresh. rewrite <- Hx. apply list_elem_of_fmap_2. by apply list_elem_of_In. }
  unfold enforce_present, add_capability, return_present, role_with_capability.
  rewrite Hnone, Hck. simpl. fold new_object.
  destruct (p_capability_ability p) as [a|] eqn:Ha; simpl.
  - rewrite Hpairs. rewrite !(bool_decide_true (_ ∉ _)) by apply not_elem_of_nil. simpl.
    rewrite on_id_fresh by done. rewrite Hfind by done. simpl. eauto.
  - rewrite Hfind by done. simpl. eauto.
Qed.

(** [present] on a record that matches the desired spec. *)
Lemma role_present_steady (p : params) (store : list role) (r : role) (i : string) t :
  p_state p = present →
  exec serve (fetch p) store = (Exited (ORole r, Some i), t, store) →
  differs p r = false →
  capability_held p r →
  exec serve (main p) store = (Exited (Result false false (ORole r)), t, store).
Proof.
  intros Hst Hfetch Hd Hheld. unfold main. rewrite exec_bind, Hfetch, Hst. simpl.
  unfold enforce_present, add_capability, return_present. simpl. rewrite Hd. simpl.
  unfold capability_held in Hheld.
  destruct (p_capability_ability p) as [a|]; simpl.
  - rewrite bool_decide_false by (by intros ?). simpl. by rewrite app_nil_r.
  - by rewrite app_nil_r.
Qed.

Lemma role_fetch_by_id (p : params) (store : list role) (r : role) (i : string) :
  p_id p = Some i →
  List.find (matches (by_id i)) store = Some r →
  exec serve (fetch p) store
  = (Exited (ORole r, Some i), [Issued (get_object (by_id i)); Issued (get (Some i))], store).
Proof. intros Hid Hfind. unfold fetch. rewrite Hid. simpl. rewrite Hfind. simpl. by rewrite Hfind. Qed.

Lemma role_fetch_by_name (p : params) (store : list role) (r : role) (n : string) :
  p_id p = None →
  p_name p = Some n →
  NoDup (r_id <$> store) →
  List.find (matches (by_name_scope n (p_app_scope_id p))) store = Some r →
  exec serve (fetch p) store
  = (Exited (ORole r, Some (r_id r)),
     [Issued (get_object (by_name_scope n (p_app_scope_id p))); Issued (get (Some (r_id r)))],
     store).
Proof.
  intros Hid Hname Hnd Hfind. unfold fetch. rewrite Hid, Hname. simpl. rewrite Hfind. simpl.
  rewrite find_role_unique; [done..|].
  apply find_some in Hfind as [Hin _]. by apply list_elem_of_In.
Qed.

Lemma role_with_capability_fields (p : params) (x : role) :
  r_id (role_with_capability p x) = r_id x
  ∧ r_name (role_with_capability p x) = r_name x
  ∧ r_app_scope_id (role_with_capability p x) = r_app_scope_id x
  ∧ differs p (role_with_capability p x) = differs p x
  ∧ capability_held p (role_with_capability p x).
Proof.
  unfold role_with_capability, capability_held.
  destruct (p_capability_ability p) as [a|]; [|done].
  case_bool_decide as Hin; [|done].
  repeat split; try done.
  unfold add, capability_pairs. simpl. rewrite fmap_app. set_solver.
Qed.

Lemma role_final_name (p : params) (r : role) (n : string) :
  p_name p = Some n → r_name r = n → r_name (role_final p r) = n.
Proof.
  intros Hp Hr. unfold role_final.
  destruct (role_with_capability_fields p (role_updated p r)) as (_ & -> & _).
  unfold role_updated. destruct (differs p r); [|done]. simpl. by rewrite Hp.
Qed.

Lemma role_present_twice (p : params) (store : list role) (f : lookup) :
  p_state p = present →
  check_mode p = false →
  role_filter p = Some f →
  NoDup (r_id <$> store) →
  (p_id p ≠ None → is_Some (List.find (matches f) store)) →
  ∃ r1 t2,
    exec_outcome serve (main p) store = Exited r1
    ∧ (changed r1 = true ↔
       match List.find (matches f) store with
       | None => True
       | Some existing => differs p existing = true ∨ ¬ capability_held p existing
       end)
    ∧ exec serve (main p) (exec_state serve (main p) store)
      = (Exited (Result false false (r_object r1)), t2, exec_state serve (main p) store)
    ∧ read_only t2.
Proof.
  intros Hst Hck Hf Hnd Hexists. unfold role_filter in Hf.
  unfold exec_outcome, exec_state.
  destruct (p_id p) as [i|] eqn:Hid.
  - (* lookup by ID *)
    injection Hf as <-. destruct Hexists as [r Hfind]; [done|]. rewrite Hfind.
    pose proof (role_fetch_by_id p store r i Hid Hfind) as Hfetch.
    destruct (role_enforce_existing p store r i Hck Hfind) as (t & g & Hg & Hgid & Hrun).
    assert (Hmain : ∃ t', exec serve (main p) store
              = (Exited (Result (differs p r || bool_decide (¬ capability_held p r)) false
                           (ORole (role_final p r))), t', on_id (Some i) g store)).
    { unfold main. rewrite exec_bind, Hfetch, Hst. simpl. rewrite Hrun. eauto. }
    destruct Hmain as [t' Hmain]. rewrite Hmain. simpl.
    assert (Hfind1 : List.find (matches (by_id i)) (on_id (Some i) g store)
                     = Some (role_final p r)).
    { rewrite find_role_on_id by done. by rewrite Hfind, <- Hg. }
    eexists _, _. split; [done|]. split.
    { simpl. rewrite orb_true_iff, bool_decide_eq_true. tauto. }
    split.
    + apply role_present_steady with (i := i); [done| |apply differs_final
                                                       |apply capability_held_final].
      by apply role_fetch_by_id.
    + by repeat constructor.
  - (* lookup by name and scope *)
    destruct (p_name p) as [n|] eqn:Hname; [|done]. injection Hf as <-.
    destruct (List.find _ store) as [r|] eqn:Hfind.
    + pose proof (role_fetch_by_name p store r n Hid Hname Hnd Hfind) as Hfetch.
      assert (Hin : r ∈ store).
      { apply find_some in Hfind as [Hin _]. by apply list_elem_of_In. }
      assert (Hrn : r_name r = n ∧ r_app_scope_id r = p_app_scope_id p).
      { apply find_some in Hfind as [_ Hm]. simpl in Hm.
        apply andb_true_iff in Hm as [Hm1 Hm2].
        by apply bool_decide_eq_true in Hm1, Hm2. }
      destruct (role_enforce_existing p store r (r_id r) Hck (find_role_unique r store Hnd Hin))
        as (t & g & Hg & Hgid & Hrun).
      assert (Hmain : ∃ t', exec serve (main p) store
                = (Exited (Result (differs p r || bool_decide (¬ capability_held p r)) false
                             (ORole (role_final p r))), t', on_id (Some (r_id r)) g store)).
      { unfold main. rewrite exec_bind, Hfetch, Hst. simpl. rewrite Hrun. eauto. }
      destruct Hmain as [t' Hmain]. rewrite Hmain. simpl.
      eexists _, _. split; [done|]. split.
      { simpl. rewrite orb_true_iff, bool_decide_eq_true. tauto. }
      split.
      * apply role_present_steady with (i := r_id r);
          [done| |apply differs_final|apply capability_held_final].
        rewrite <- (role_final_id p r) at 2. rewrite <- Hg.
        apply role_fetch_by_name; [done|done|by rewrite on_id_ids|].
        apply find_role_name_on_id; [done|done|..].
        -- rewrite Hg. apply role_final_name; [done|apply Hrn].
        -- rewrite Hg, role_final_scope. apply Hrn.
      * by repeat constructor.
    + assert (Hfetch : exec serve (fetch p) store
                       = (Exited (ONone, None),
                          [Issued (get_object (by_name_scope n (p_app_scope_id p)))], store)).
      { unfold fetch. rewrite Hid, Hname. simpl. by rewrite Hfind. }
      destruct (role_enforce_create p store ONone None Hck eq_refl) as (t & Hrun).
      simpl in Hrun.
      set (new_object := if bool_decide (p_app_scope_id p ≠ "") then _ else _) in *.
      set (created := create (r_id <$> store) new_object) in *.
      assert (Hmain : ∃ t', exec serve (main p) store
                = (Exited (Result true false (ORole (role_with_capability p created))), t',
                   store ++ [role_with_capability p created])).
      { unfold main. rewrite exec_bind, Hfetch, Hst. simpl. rewrite Hrun. eauto. }
      destruct Hmain as [t' Hmain]. rewrite Hmain. simpl.
      destruct (role_with_capability_fields p created) as (Hcid & Hcn & Hcs & Hcd & Hch).
      eexists _, _. split; [done|]. split; [done|]. split.
      * apply role_present_steady with (i := r_id (role_with_capability p created));
          [done| | |done].
        -- apply role_fetch_by_name; [done|done|..].
           ++ rewrite fmap_app. simpl. rewrite Hcid. apply NoDup_app. split; [done|].
              split; [|apply NoDup_singleton].
              intros x Hx Hx'. apply list_elem_of_singleton in Hx'. subst x.
              by apply (fresh_id_fresh (r_id <$> store)).
           ++ rewrite (find_snoc _ _ _ Hfind). simpl. rewrite Hcn, Hcs.
              subst created new_object. simpl. rewrite Hname.
              destruct (decide (p_app_scope_id p = "")) as [Hsc|Hsc].
              ** rewrite (bool_decide_false (_ ≠ "")) by (by intros ?). simpl.
                 by rewrite !bool_decide_true by done.
              ** rewrite (bool_decide_true (_ ≠ "")) by done. simpl.
                 by rewrite !bool_decide_true by done.
        -- rewrite Hcd. subst created new_object. unfold differs, create.
           rewrite Hname.
           destruct (bool_decide (p_app_scope_id p ≠ "")); destruct (p_description p);
             simpl; by rewrite ?bool_decide_false by (by intros []).
      * by repeat constructor.
Qed.

End RoleTwice.

(** C2 (amended).  On the reference remote systems, with unique IDs, check
    mode off and no other writer: after a [present] invocation of the
    tenant or role module, a second invocation with the same desired spec
    exits with [changed=false], returns the record that the first one
    returned, issues no mutating call and leaves the remote system as it
    is.  The first invocation reports [changed=true] exactly when the
    lookup finds no record, or finds one that differs from the desired spec
    (for a role: in name or description, or by lacking the requested
    capability).  For a role, an ID that is given must exist. *)
Theorem present_twice_second_unchanged :
  (∀ (H : PyInt) (p : Tenant.params) (store : list Tenant.tenant) (f : Tenant.lookup),
     Tenant.p_state p = present →
     Tenant.check_mode p = false →
     tenant_key_given p →
     tenant_filter p = Some f →
     NoDup (Tenant.t_id <$> store) →
     ∃ r1 t2,
       exec_outcome TenantServer.serve (Tenant.main p) store = Exited r1
       ∧ (Tenant.changed r1 = true ↔
          match List.find (TenantServer.matches f) store with
          | None => True
          | Some existing => Tenant.differs p existing = true
          end)
       ∧ exec TenantServer.serve (Tenant.main p)
           (exec_state TenantServer.serve (Tenant.main p) store)
         = (Exited (Tenant.Result false false (Tenant.r_object r1)), t2,
            exec_state TenantServer.serve (Tenant.main p) store)
       ∧ read_only t2)
  ∧ (∀ (p : Role.params) (store : list Role.role) (f : Role.lookup),
       Role.p_state p = present →
       Role.check_mode p = false →
       role_filter p = Some f →
       NoDup (Role.r_id <$> store) →
       (Role.p_id p ≠ None → is_Some (List.find (RoleServer.matches f) store)) →
       ∃ r1 t2,
         exec_outcome RoleServer.serve (Role.main p) store = Exited r1
         ∧ (Role.changed r1 = true ↔
            match List.find (RoleServer.matches f) store with
            | None => True
            | Some existing =>
                Role.differs p existing = true ∨ ¬ capability_held p existing
            end)
         ∧ exec RoleServer.serve (Role.main p)
             (exec_state RoleServer.serve (Role.main p) store)
           = (Exited (Role.Result false false (Role.r_object r1)), t2,
              exec_state RoleServer.serve (Role.main p) store)
         ∧ read_only t2).
Proof.
  split; intros.
  - by apply tenant_present_twice.
  - by apply role_present_twice.
Qed.

Lemma present_twice_second_unchanged_witness :
  let tenant_p :=
    Tenant.Params present (Some "Eng") None (Some ["v1"; "v2"]) Tenant.single false in
  let role_p :=
    Role.Params present (Some "ops") (Some "Operators") "" None (Some "scope1")
      (Some Role.read) false in
  (∃ r1 t2,
     exec_outcome (TenantServer.serve (H := dec_int)) (Tenant.main (H := dec_int) tenant_p) []
     = Exited r1
     ∧ (Tenant.changed r1 = true ↔ True)
     ∧ exec (TenantServer.serve (H := dec_int)) (Tenant.main (H := dec_int) tenant_p)
         [Tenant.Tenant 676769 "Eng" ["v1"; "v2"]]
       = (Exited (Tenant.Result false false (Tenant.r_object r1)), t2,
          [Tenant.Tenant 676769 "Eng" ["v1"; "v2"]])
     ∧ read_only t2)
  ∧ (∃ r1 t2,
       exec_outcome RoleServer.serve (Role.main role_p) [] = Exited r1
       ∧ (Role.changed r1 = true ↔ True)
       ∧ exec RoleServer.serve (Role.main role_p)
           (exec_state RoleServer.serve (Role.main role_p) [])
         = (Exited (Role.Result false false (Role.r_object r1)), t2,
            exec_state RoleServer.serve (Role.main role_p) [])
       ∧ read_only t2).
Proof.
  intros tenant_p role_p.
  destruct present_twice_second_unchanged as [Htenant Hrole]. split.
  - apply (Htenant dec_int tenant_p [] (Tenant.by_name "Eng")).
    + reflexivity.
    + reflexivity.
    + left. reflexivity.
    + reflexivity.
    + apply NoDup_nil_2.
  - apply (Hrole role_p [] (Role.by_name_scope "ops" "")).
    + reflexivity.
    + reflexivity.
    + reflexivity.
    + apply NoDup_nil_2.
    + intros Hid. by destruct Hid.
Defined.

(** * Further properties *)

(** ** The tenant module *)

Lemma filter_le_shrink (i : Z) (ids : list Z) :
  i ∈ ids →
  (length (filter (λ x, (x ≤ i - 1)%Z) ids) < length (filter (λ x, (x ≤ i)%Z) ids))%nat.
Proof.
  induction ids as [|a l IH]; intros Hin; [by apply elem_of_nil in Hin|].
  assert (Hmono : (length (filter (λ x, (x ≤ i - 1)%Z) l)
                   ≤ length (filter (λ x, (x ≤ i)%Z) l))%nat).
  { clear. induction l as [|b l IH]; [done|].
    rewrite !filter_cons. repeat case_decide; simpl; lia. }
  rewrite !filter_cons. destruct (decide (a = i)) as [->|Hne].
  - repeat case_decide; simpl; lia.
  - apply elem_of_cons in Hin as [?|Hin]; [congruence|].
    specialize (IH Hin). repeat case_decide; simpl; lia.
Qed.

Lemma countdown_lower_bound (id : Z) (ids : list Z) :
  id - Z.of_nat (length (filter (λ x, (x ≤ id)%Z) ids)) ≤ Tenant.countdown id ids.
Proof.
  funelim (Tenant.countdown id ids).
  - pose proof (filter_le_shrink id existing_ids e). lia.
  - lia.
Qed.

(** X1.  The decrementing loop stops after at most as many steps as there
    are existing IDs: the generated ID is at least 676769 minus the number
    of existing tenants, and it is 676769 itself when no tenant has that
    ID. *)
Theorem generate_id_bounds (existing_ids : list Z) :
  676769 - Z.of_nat (length existing_ids) ≤ Tenant.generate_id existing_ids ≤ 676769
  ∧ (676769 ∉ existing_ids → Tenant.generate_id existing_ids = 676769).
Proof.
  unfold Tenant.generate_id.
  pose proof (countdown_spec 676769 existing_ids) as (Hle & Hfresh & Hmax).
  pose proof (countdown_lower_bound 676769 existing_ids) as Hlow.
  pose proof (length_filter (λ x, (x ≤ 676769)%Z) existing_ids) as Hlen.
  split; [lia|]. intros Hfree.
  destruct (decide (Tenant.countdown 676769 existing_ids = 676769)) as [|Hne]; [done|].
  destruct Hfree. apply Hmax. lia.
Qed.

(** X2.  The generated ID depends only on which IDs exist, not on their
    order or multiplicity in the answer of the API. *)
Theorem generate_id_set (a b : list Z) :
  (∀ x, x ∈ a ↔ x ∈ b) → Tenant.generate_id a = Tenant.generate_id b.
Proof.
  intros Hsame. unfold Tenant.generate_id.
  pose proof (countdown_spec 676769 a) as (Hla & Hfa & Hma).
  pose proof (countdown_spec 676769 b) as (Hlb & Hfb & Hmb).
  destruct (Z.lt_trichotomy (Tenant.countdown 676769 a) (Tenant.countdown 676769 b))
    as [Hlt|[Heq|Hgt]]; [|done|].
  - destruct Hfb. apply Hsame, Hma. lia.
  - destruct Hfa. apply Hsame, Hmb. lia.
Qed.

Lemma generate_id_set_witness :
  Tenant.generate_id [676769; 1; 676768] = Tenant.generate_id [676768; 676769; 676769; 1].
Proof.
  apply generate_id_set. intros x. rewrite !elem_of_cons, !elem_of_nil. tauto.
Defined.

Lemma generate_id_bounds_witness :
  Tenant.generate_id [1; 676768] = 676769.
Proof.
  apply (generate_id_bounds [1; 676768]).
  rewrite !elem_of_cons, elem_of_nil. intros [?|[?|[]]]; discriminate.
Defined.

(** X3.  Under [present] and [absent] the tenant module validates before it
    talks to the API: with neither a name nor an ID it fails with the
    message and no call; with an ID that [int] rejects it raises
    [ValueError] with no call (the same under a single query). *)
Theorem tenant_validation_before_calls `{PyInt} {S} (h : handler Tenant.tenantE S) (s : S)
    (p : Tenant.params) :
  (Tenant.p_state p ≠ query →
   truthy_str (Tenant.p_name p) = false →
   truthy_str (Tenant.p_id p) = false →
   exec h (Tenant.main p) s = (Failed "Either name or id is required", [], s))
  ∧ (∀ i, Tenant.p_id p = Some i →
          py_int i = None →
          Tenant.p_state p ≠ query ∨ Tenant.p_query_type p = Tenant.single →
          Tenant.p_state p = query ∨ tenant_key_given p →
          exec h (Tenant.main p) s = (Crashed ValueError, [], s)).
Proof.
  split.
  - intros Hst Hname Hid. unfold Tenant.main. rewrite Hname, Hid.
    rewrite bool_decide_true; [done|].
    destruct (Tenant.p_state p); [| |done]; rewrite !elem_of_cons; tauto.
  - intros i Hid Hint Hsingle Hkey. unfold Tenant.main.
    assert (Hpre : bool_decide (Tenant.p_state p ∈ [present; absent])
                   && (negb (truthy_str (Tenant.p_name p))
                       && negb (truthy_str (Tenant.p_id p))) = false).
    { destruct Hkey as [Hq|[Hk|Hk]].
      - rewrite Hq. rewrite bool_decide_false; [done|].
        rewrite !elem_of_cons, elem_of_nil. by intros [?|[?|[]]].
      - by rewrite Hk, andb_false_r.
      - by rewrite Hk, !andb_false_r. }
    rewrite Hpre. unfold Tenant.fetch. rewrite Hid.
    assert (Hlook : bool_decide (Tenant.p_state p ≠ query)
                    || bool_decide (Tenant.p_query_type p = Tenant.single) = true).
    { destruct Hsingle as [Hs|Hs].
      - by rewrite bool_decide_true.
      - by rewrite (bool_decide_true (_ = Tenant.single)), orb_true_r. }
    rewrite Hlook. simpl. by rewrite Hint.
Qed.

Lemma tenant_validation_before_calls_witness :
  exec (TenantServer.serve (H := dec_int))
    (Tenant.main (H := dec_int)
       (Tenant.Params absent (Some "") None (Some []) Tenant.single false)) []
  = (Failed "Either name or id is required", [], [])
  ∧ exec (TenantServer.serve (H := dec_int))
      (Tenant.main (H := dec_int)
         (Tenant.Params present (Some "Eng") (Some "sixty") (Some []) Tenant.single false)) []
    = (Crashed ValueError, [], []).
Proof.
  split.
  - apply (tenant_validation_before_calls (H := dec_int)); [discriminate|reflexivity..].
  - apply (tenant_validation_before_calls (H := dec_int) _ _ _) with (i := "sixty").
    + reflexivity.
    + reflexivity.
    + left. discriminate.
    + right. left. reflexivity.
Defined.

(** X4.  [absent] on a tenant that exists: one DELETE and [changed=true]
    with a null object; under check mode the same result and no DELETE.
    Found by name, the DELETE is on the ID of the record found; found by
    ID, it is on the ID the caller gave. *)
Theorem tenant_absent_deletes_match `{PyInt} {S} (h : handler Tenant.tenantE S) (s : S)
    (p : Tenant.params) (f : Tenant.lookup) (existing : Tenant.tenant) :
  Tenant.p_state p = absent →
  tenant_key_given p →
  tenant_filter p = Some f →
  (h _ (Tenant.get_object f) s).1 = Some existing →
  let id := match Tenant.p_id p with
            | Some i => Tenant.IdStr i
            | None => Tenant.IdInt (Tenant.t_id existing)
            end in
  exec_outcome h (Tenant.main p) s = Exited (Tenant.Result true false Tenant.ONone)
  ∧ exec_trace h (Tenant.main p) s
    = Issued (Tenant.get_object f)
      :: if Tenant.check_mode p then [] else [Issued (Tenant.delete id)].
Proof.
  intros Hst Hkey Hf Hfound id. subst id.
  assert (Hpre : negb (truthy_str (Tenant.p_name p)) && negb (truthy_str (Tenant.p_id p))
                 = false).
  { destruct Hkey as [-> | ->]; [done|by rewrite andb_false_r]. }
  unfold exec_outcome, exec_trace, Tenant.main, Tenant.fetch, tenant_filter in *.
  rewrite Hpre, andb_false_r, Hst. simpl.
  destruct (Tenant.p_id p) as [i|].
  - destruct (py_int i) as [z|]; [|done]. injection Hf as <-. simpl.
    destruct (h _ (Tenant.get_object _) s) as [r s1]; simpl in *; subst r. simpl.
    unfold Tenant.enforce_absent. simpl.
    destruct (Tenant.check_mode p); simpl; [done|]. by answer.
  - destruct (Tenant.p_name p) as [n|]; [|done]. injection Hf as <-. simpl.
    destruct (h _ (Tenant.get_object _) s) as [r s1]; simpl in *; subst r. simpl.
    unfold Tenant.enforce_absent. simpl.
    destruct (Tenant.check_mode p); simpl; [done|]. by answer.
Qed.

Lemma tenant_absent_deletes_match_witness :
  let eng := Tenant.Tenant 5 "Eng" ["v1"] in
  let p := Tenant.Params absent (Some "Eng") None (Some []) Tenant.single false in
  exec_outcome (TenantServer.serve (H := dec_int)) (Tenant.main (H := dec_int) p) [eng]
  = Exited (Tenant.Result true false Tenant.ONone)
  ∧ exec_trace (TenantServer.serve (H := dec_int)) (Tenant.main (H := dec_int) p) [eng]
    = [Issued (Tenant.get_object (Tenant.by_name "Eng"));
       Issued (Tenant.delete (Tenant.IdInt 5))].
Proof.
  intros eng p.
  apply (tenant_absent_deletes_match (H := dec_int) TenantServer.serve [eng] p
           (Tenant.by_name "Eng") eng).
  - reflexivity.
  - left. reflexivity.
  - reflexivity.
  - reflexivity.
Defined.

(** X5.  [present] on a tenant that exists never creates or deletes:
    [changed] is whether name or switch VRFs differ, and the only mutating
    call, issued when they differ and check mode is off, is one PUT on the
    ID with the desired name and switch VRFs (no ID in the payload),
    followed by a GET of that ID for the object returned. *)
Theorem tenant_present_on_existing `{PyInt} {S} (h : handler Tenant.tenantE S) (s : S)
    (p : Tenant.params) (f : Tenant.lookup) (existing : Tenant.tenant) :
  Tenant.p_state p = present →
  tenant_key_given p →
  tenant_filter p = Some f →
  (h _ (Tenant.get_object f) s).1 = Some existing →
  let id := match Tenant.p_id p with
            | Some i => Tenant.IdStr i
            | None => Tenant.IdInt (Tenant.t_id existing)
            end in
  let new_object := Tenant.NewObject (Tenant.p_switch_vrfs p) (Tenant.p_name p) None in
  (∃ r, exec_outcome h (Tenant.main p) s = Exited r
        ∧ Tenant.changed r = Tenant.differs p existing
        ∧ (Tenant.differs p existing = false → Tenant.r_object r = Tenant.OTenant existing)
        ∧ (Tenant.differs p existing = true → Tenant.check_mode p = true →
           Tenant.r_object r = Tenant.ONew new_object))
  ∧ exec_trace h (Tenant.main p) s
    = Issued (Tenant.get_object f)
      :: if Tenant.differs p existing && negb (Tenant.check_mode p)
         then [Issued (Tenant.put id new_object); Issued (Tenant.get id)]
         else [].
Proof.
  intros Hst Hkey Hf Hfound id new_object. subst id new_object.
  assert (Hpre : negb (truthy_str (Tenant.p_name p)) && negb (truthy_str (Tenant.p_id p))
                 = false).
  { destruct Hkey as [-> | ->]; [done|by rewrite andb_false_r]. }
  unfold exec_outcome, exec_trace, Tenant.main, Tenant.fetch, tenant_filter in *.
  rewrite Hpre, andb_false_r, Hst. simpl.
  destruct (Tenant.p_id p) as [i|].
  - destruct (py_int i) as [z|]; [|done]. injection Hf as <-. simpl.
    destruct (h _ (Tenant.get_object _) s) as [r s1]; simpl in *; subst r. simpl.
    unfold Tenant.enforce_present, Tenant.return_present. simpl.
    destruct (Tenant.differs p existing); simpl.
    + destruct (Tenant.check_mode p); simpl; repeat answer.
      all: (split; [|done]); eexists; (split; [done|]); simpl; repeat split; try done;
      by intros.
    + split; [|done]. eexists. split; [done|]. simpl. repeat split; try done; by intros.
  - destruct (Tenant.p_name p) as [n|] eqn:Hname; [|done]. injection Hf as <-. simpl.
    destruct (h _ (Tenant.get_object _) s) as [r s1]; simpl in *; subst r. simpl.
    unfold Tenant.enforce_present, Tenant.return_present. simpl. rewrite ?Hname.
    destruct (Tenant.differs p existing); simpl.
    + destruct (Tenant.check_mode p); simpl; repeat answer.
      all: (split; [|done]); eexists; (split; [done|]); simpl; repeat split; try done;
      by intros.
    + split; [|done]. eexists. split; [done|]. simpl. repeat split; try done; by intros.
Qed.

Lemma tenant_present_on_existing_witness :
  let eng := Tenant.Tenant 5 "Eng" ["v1"] in
  let p := Tenant.Params present (Some "Eng") None (Some []) Tenant.single false in
  exec_trace (TenantServer.serve (H := dec_int)) (Tenant.main (H := dec_int) p) [eng]
  = [Issued (Tenant.get_object (Tenant.by_name "Eng"));
     Issued (Tenant.put (Tenant.IdInt 5) (Tenant.NewObject (Some []) (Some "Eng") None));
     Issued (Tenant.get (Tenant.IdInt 5))].
Proof.
  intros eng p.
  apply (tenant_present_on_existing (H := dec_int) TenantServer.serve [eng] p
           (Tenant.by_name "Eng") eng).
  - reflexivity.
  - left. reflexivity.
  - reflexivity.
  - reflexivity.
Defined.

(** X6.  A query for all tenants does not filter by tenant: the list
    comprehension tests the [name] parameter, so the object is the whole
    collection, or the empty list when [name] is one of the three reserved
    names.  No mutating call is issued and [changed] is false. *)
Theorem tenant_query_all `{PyInt} {S} (h : handler Tenant.tenantE S) (s : S)
    (p : Tenant.params) :
  Tenant.p_state p = query →
  Tenant.p_query_type p = Tenant.all →
  exec_outcome h (Tenant.main p) s
  = Exited (Tenant.Result false false
              (Tenant.OTenants
                 (if bool_decide (Tenant.p_name p
                                  ∈ [Some "Tetration"; Some "Unknown"; Some "Default"])
                  then [] else (h _ Tenant.get_all s).1)))
  ∧ read_only (exec_trace h (Tenant.main p) s).
Proof.
  intros Hst Hqt.
  assert (Hfilter : ∀ l : list Tenant.tenant,
            List.filter (λ _, bool_decide (Tenant.p_name p
                                           ∉ [Some "Tetration"; Some "Unknown"; Some "Default"])) l
            = if bool_decide (Tenant.p_name p
                              ∈ [Some "Tetration"; Some "Unknown"; Some "Default"])
              then [] else l).
  { intros l.
    destruct (decide (Tenant.p_name p ∈ [Some "Tetration"; Some "Unknown"; Some "Default"]))
      as [Hin|Hin].
    - rewrite (bool_decide_false (_ ∉ _)) by (intros Hn; by apply Hn).
      rewrite bool_decide_true by done. by induction l.
    - rewrite (bool_decide_true (_ ∉ _)) by done.
      rewrite bool_decide_false by done. induction l; simpl; [done|by f_equal]. }
  unfold exec_outcome, exec_trace, Tenant.main, Tenant.fetch.
  rewrite Hst, Hqt. simpl.
  destruct (h _ Tenant.get_all s) as [l s1] eqn:Hall; simpl.
  rewrite Hfilter.
  destruct (Tenant.p_id p); simpl; repeat answer; split; try done; by repeat constructor.
Qed.

Lemma tenant_query_all_witness :
  let store := [Tenant.Tenant 1 "Default" []; Tenant.Tenant 5 "Eng" ["v1"]] in
  let p name := Tenant.Params query name None (Some []) Tenant.all false in
  exec_outcome (TenantServer.serve (H := dec_int)) (Tenant.main (H := dec_int) (p (Some "Eng")))
    store
  = Exited (Tenant.Result false false (Tenant.OTenants store))
  ∧ exec_outcome (TenantServer.serve (H := dec_int))
      (Tenant.main (H := dec_int) (p (Some "Default"))) store
    = Exited (Tenant.Result false false (Tenant.OTenants [])).
Proof.
  intros store p. split.
  - apply (tenant_query_all (H := dec_int) TenantServer.serve store (p (Some "Eng")));
      reflexivity.
  - apply (tenant_query_all (H := dec_int) TenantServer.serve store (p (Some "Default")));
      reflexivity.
Defined.

(** ** Check mode reports what a real run reports *)

Lemma add_roles_check_mode_exec {S} (h : handler UserRole.user_roleE S) (s : S) id existing
    requested changed :
  exec h (UserRole.add_roles true id existing requested changed) s
  = (Exited (changed || bool_decide (filter (λ r, r ∉ existing) requested ≠ [])), [], s).
Proof.
  revert changed. induction requested as [|role rest IH]; intros changed; simpl.
  - by rewrite orb_false_r.
  - rewrite filter_cons. destruct (decide (role ∉ existing)) as [Hin|Hin].
    + rewrite bool_decide_true by done. rewrite IH. simpl. by rewrite orb_true_r.
    + rewrite bool_decide_false by done. apply IH.
Qed.

Lemma remove_roles_check_mode_exec {S} (h : handler UserRole.user_roleE S) (s : S) id
    existing active requested changed :
  exec h (UserRole.remove_roles true id existing active requested changed) s
  = (Exited (changed || bool_decide (filter (λ r, r ∈ existing) requested ≠ [])), [], s).
Proof.
  revert changed. induction requested as [|role rest IH]; intros changed; simpl.
  - by rewrite orb_false_r.
  - rewrite filter_cons. destruct (decide (role ∈ existing)) as [Hin|Hin].
    + rewrite (bool_decide_true (role ∈ existing)) by done. simpl.
      rewrite IH. simpl. by destruct changed.
    + rewrite (bool_decide_false (role ∈ existing)) by done. apply IH.
Qed.

Lemma tenant_check_mode_same_changed `{PyInt} {S} (h : handler Tenant.tenantE S) (s : S)
    st name id vrfs qt :
  let p c := Tenant.Params st name id vrfs qt c in
  outcome_map Tenant.changed (exec_outcome h (Tenant.main (p true)) s)
  = outcome_map Tenant.changed (exec_outcome h (Tenant.main (p false)) s).
Proof.
  intros p. subst p. unfold exec_outcome, Tenant.main, Tenant.fetch, Tenant.ensure_id,
    Tenant.enforce_present, Tenant.enforce_absent, Tenant.return_present. simpl.
  repeat first [ progress simplify_eq/= | answer | case_match ]; try done.
  all: unfold Tenant.differs in *; simpl in *; congruence.
Qed.

Lemma role_check_mode_same_changed {S} (h : handler Role.roleE S) (s : S)
    st name description scope id appscope ability :
  let p c := Role.Params st name description scope id appscope ability c in
  outcome_map Role.changed (exec_outcome h (Role.main (p true)) s)
  = outcome_map Role.changed (exec_outcome h (Role.main (p false)) s).
Proof.
  intros p. subst p. unfold exec_outcome, Role.main, Role.fetch,
    Role.enforce_present, Role.enforce_absent, Role.add_capability, Role.return_present.
  simpl.
  repeat first [ progress simplify_eq/= | answer | case_match ]; try done.
  all: unfold Role.differs in *; simpl in *; congruence.
Qed.

Lemma user_check_mode_same_changed {S} now (h : handler User.userE S) (s : S)
    st email first_name last_name scope_id scope_name :
  let p c := User.Params st email first_name last_name scope_id scope_name c in
  outcome_map User.changed (exec_outcome h (User.main now (p true)) s)
  = outcome_map User.changed (exec_outcome h (User.main now (p false)) s).
Proof.
  intros p. subst p. unfold exec_outcome, User.main, User.enforce_present,
    User.enforce_absent, User.resolve_scope, User.return_present.
  simpl.
  repeat first [ progress simplify_eq/= | answer | case_match ]; try done.
  all: unfold User.update_needed in *; simpl in *; congruence.
Qed.

Lemma nat_config_check_mode_same_changed {S} (h : handler NatConfig.natE S) (s : S)
    st subnet port_start port_end vrf_name vrf_id nat_config_id api_version endpoint :
  let p c := NatConfig.Params st subnet port_start port_end vrf_name vrf_id nat_config_id
               api_version endpoint c in
  outcome_map NatConfig.changed (exec_outcome h (NatConfig.main (p true)) s)
  = outcome_map NatConfig.changed (exec_outcome h (NatConfig.main (p false)) s).
Proof.
  intros p. subst p. unfold exec_outcome, NatConfig.main, NatConfig.fetch,
    NatConfig.enforce_present, NatConfig.enforce_absent.
  simpl.
  repeat first [ progress simplify_eq/= | answer | case_match ]; done.
Qed.

Lemma user_role_check_mode_same_changed {S} (h : handler UserRole.user_roleE S) (s : S)
    st email role_ids :
  let p c := UserRole.Params st email role_ids c in
  outcome_map UserRole.changed (exec_outcome h (UserRole.main (p true)) s)
  = outcome_map UserRole.changed (exec_outcome h (UserRole.main (p false)) s).
Proof.
  intros p. subst p. unfold exec_outcome, UserRole.main. simpl.
  destruct (h _ (UserRole.get_object email) s) as [[existing|] s1]; simpl; [|done].
  change (bind ?p ?f) with (p ≫= f). rewrite !exec_bind.
  unfold UserRole.enforce. simpl. destruct st; simpl.
  - rewrite add_roles_check_mode_exec.
    pose proof (add_roles_exec h s1 (User.u_id existing) (User.u_role_ids existing)
                  role_ids false) as [Ho _].
    unfold exec_outcome in Ho.
    destruct (exec h (UserRole.add_roles false _ _ _ _) s1) as [[o t] s2]; simpl in *.
    subst o. simpl. by repeat answer.
  - destruct (h _ UserRole.get_roles s1) as [roles s2]; simpl.
    rewrite remove_roles_check_mode_exec.
    pose proof (remove_roles_exec h s2 (User.u_id existing) (User.u_role_ids existing)
                  (Role.r_id <$> roles) role_ids false) as [Ho _].
    unfold exec_outcome in Ho.
    destruct (exec h (UserRole.remove_roles false _ _ _ _ _) s2) as [[o t] s3]; simpl in *.
    subst o. simpl. by repeat answer.
  - by repeat answer.
Qed.

(** X7.  Check mode reports what a real run reports: started from the same
    remote state, an invocation of the tenant, role, user, NAT config or
    user-role module with check mode on ends like the invocation with
    check mode off (exit, failure or exception) and, when it exits, with
    the same [changed]. *)
Theorem check_mode_reports_same_changed :
  (∀ (H : PyInt) S (h : handler Tenant.tenantE S) s st name id vrfs qt,
     let p c := Tenant.Params st name id vrfs qt c in
     outcome_map Tenant.changed (exec_outcome h (Tenant.main (p true)) s)
     = outcome_map Tenant.changed (exec_outcome h (Tenant.main (p false)) s))
  ∧ (∀ S (h : handler Role.roleE S) s st name description scope id appscope ability,
       let p c := Role.Params st name description scope id appscope ability c in
       outcome_map Role.changed (exec_outcome h (Role.main (p true)) s)
       = outcome_map Role.changed (exec_outcome h (Role.main (p false)) s))
  ∧ (∀ S now (h : handler User.userE S) s st email first_name last_name scope_id scope_name,
       let p c := User.Params st email first_name last_name scope_id scope_name c in
       outcome_map User.changed (exec_outcome h (User.main now (p true)) s)
       = outcome_map User.changed (exec_outcome h (User.main now (p false)) s))
  ∧ (∀ S (h : handler NatConfig.natE S) s st subnet port_start port_end vrf_name vrf_id
       nat_config_id api_version endpoint,
       let p c := NatConfig.Params st subnet port_start port_end vrf_name vrf_id
                    nat_config_id api_version endpoint c in
       outcome_map NatConfig.changed (exec_outcome h (NatConfig.main (p true)) s)
       = outcome_map NatConfig.changed (exec_outcome h (NatConfig.main (p false)) s))
  ∧ (∀ S (h : handler UserRole.user_roleE S) s st email role_ids,
       let p c := UserRole.Params st email role_ids c in
       outcome_map UserRole.changed (exec_outcome h (UserRole.main (p true)) s)
       = outcome_map UserRole.changed (exec_outcome h (UserRole.main (p false)) s)).
Proof.
  split; [|split; [|split; [|split]]]; intros.
  - apply tenant_check_mode_same_changed.
  - apply role_check_mode_same_changed.
  - apply user_check_mode_same_changed.
  - apply nat_config_check_mode_same_changed.
  - apply user_role_check_mode_same_changed.
Qed.

(** ** The user module *)

(** X8.  [present] on a user that exists and is enabled, without a scope
    name: [changed] is whether a supplied field (first name, last name, app
    scope ID) differs from the record; a field that is not supplied is
    never compared.  One PUT with the desired fields and a GET of the user
    are issued when a field differs and check mode is off, nothing
    otherwise. *)
Theorem user_present_on_enabled {S} now (h : handler User.userE S) (s : S)
    (p : User.params) (u : User.user) :
  User.p_state p = present →
  truthy_str (User.p_app_scope_name p) = false →
  (h _ (User.get_object (User.p_email p)) s).1 = Some u →
  User.u_disabled_at u = None →
  let new_object := User.NewObject (User.p_email p) (User.p_first_name p)
                      (User.p_last_name p) (User.p_app_scope_id p) in
  let update_needed := User.update_needed p (User.p_app_scope_id p) u in
  (∃ r, exec_outcome h (User.main now p) s = Exited r
        ∧ User.changed r = update_needed
        ∧ (update_needed = false → User.r_object r = User.OUser u))
  ∧ exec_trace h (User.main now p) s
    = Issued (User.get_object (User.p_email p))
      :: (if update_needed && negb (User.check_mode p)
          then [Issued (User.put (Some (User.u_id u)) new_object);
                Issued (User.get (Some (User.u_id u)))]
          else [])
  ∧ (User.p_first_name p = None → User.p_last_name p = None →
     User.p_app_scope_id p = None → update_needed = false).
Proof.
  intros Hst Hname Hu Hen new_object update_needed. subst new_object update_needed.
  split; [|split].
  - unfold exec_outcome, User.main. rewrite Hst. simpl.
    destruct (h _ (User.get_object _) s) as [r s1]; simpl in *; subst r. simpl.
    unfold User.enforce_present, User.resolve_scope, User.return_present.
    rewrite Hen. simpl.
    destruct (User.p_app_scope_name p) as [n|]; simpl in *; rewrite ?Hname; simpl.
    all: destruct (User.update_needed p (User.p_app_scope_id p) u); simpl.
    all: destruct (User.check_mode p); simpl; repeat answer; eauto.
    all: eexists; split; [done|]; split; [done|]; by intros.
  - unfold exec_trace, User.main. rewrite Hst. simpl.
    destruct (h _ (User.get_object _) s) as [r s1]; simpl in *; subst r. simpl.
    unfold User.enforce_present, User.resolve_scope, User.return_present.
    rewrite Hen. simpl.
    destruct (User.p_app_scope_name p) as [n|]; simpl in *; rewrite ?Hname; simpl.
    all: destruct (User.update_needed p (User.p_app_scope_id p) u); simpl.
    all: destruct (User.check_mode p); simpl; repeat answer; done.
  - intros Hf Hl Hs. unfold User.update_needed. by rewrite Hf, Hl, Hs.
Qed.

Lemma user_present_on_enabled_witness :
  let bob := User.UserRec "u1" "bsmith@example.com" (Some "Bob") (Some "Smith") None None [] in
  let p := User.Params present "bsmith@example.com" (Some "Robert") None None None false in
  exec_trace UserServer.serve (User.main 0 p) (UserServer.Store [bob] [])
  = [Issued (User.get_object "bsmith@example.com");
     Issued (User.put (Some "u1")
               (User.NewObject "bsmith@example.com" (Some "Robert") None None));
     Issued (User.get (Some "u1"))].
Proof.
  intros bob p.
  apply (user_present_on_enabled 0 UserServer.serve (UserServer.Store [bob] []) p bob);
    reflexivity.
Defined.

(** X9.  [present] on a user that is disabled reactivates the account and
    never creates one: the enable sub-action is posted on the ID of the
    record, then the PUT when a supplied field differs (check mode off),
    and [changed] is true. *)
Theorem user_present_on_disabled {S} now (h : handler User.userE S) (s : S)
    (p : User.params) (u : User.user) :
  User.p_state p = present →
  truthy_str (User.p_app_scope_name p) = false →
  User.check_mode p = false →
  (h _ (User.get_object (User.p_email p)) s).1 = Some u →
  User.u_disabled_at u ≠ None →
  let id := Some (User.u_id u) in
  let new_object := User.NewObject (User.p_email p) (User.p_first_name p)
                      (User.p_last_name p) (User.p_app_scope_id p) in
  (∃ r, exec_outcome h (User.main now p) s = Exited r ∧ User.changed r = true)
  ∧ exec_trace h (User.main now p) s
    = [Issued (User.get_object (User.p_email p)); Issued (User.post_enable id)]
      ++ (if User.update_needed p (User.p_app_scope_id p) u
          then [Issued (User.put id new_object)] else [])
      ++ [Issued (User.get id)].
Proof.
  intros Hst Hname Hck Hu Hdis id new_object. subst id new_object.
  unfold exec_outcome, exec_trace, User.main. rewrite Hst. simpl.
  destruct (h _ (User.get_object _) s) as [r s1]; simpl in *; subst r. simpl.
  unfold User.enforce_present, User.resolve_scope, User.return_present.
  rewrite bool_decide_true by done. rewrite Hck. simpl.
  destruct (User.p_app_scope_name p) as [n|]; simpl in *; rewrite ?Hname; simpl.
  all: answer.
  all: destruct (User.update_needed p (User.p_app_scope_id p) u); simpl.
  all: repeat answer; eauto.
Qed.

Lemma user_present_on_disabled_witness :
  let bob := User.UserRec "u1" "bsmith@example.com" (Some "Bob") (Some "Smith") None
               (Some 1541993885) [] in
  let p := User.Params present "bsmith@example.com" None None None None false in
  exec_trace UserServer.serve (User.main 0 p) (UserServer.Store [bob] [])
  = [Issued (User.get_object "bsmith@example.com");
     Issued (User.post_enable (Some "u1"));
     Issued (User.get (Some "u1"))].
Proof.
  intros bob p.
  apply (user_present_on_disabled 0 UserServer.serve (UserServer.Store [bob] []) p bob);
    try reflexivity.
  discriminate.
Defined.

(** X10.  [absent] on a user that is enabled: with check mode off the user
    is deleted and then read again by email, and the object returned is
    that second reading; with check mode on no call follows the lookup and
    the object returned is the record found with [disabled_at] set to the
    current time.  [changed] is true in both. *)
Theorem user_absent_on_enabled {S} now (h : handler User.userE S) (s : S)
    (p : User.params) (u : User.user) :
  User.p_state p = absent →
  (h _ (User.get_object (User.p_email p)) s).1 = Some u →
  User.u_disabled_at u = None →
  let id := Some (User.u_id u) in
  let s1 := (h _ (User.get_object (User.p_email p)) s).2 in
  let s2 := (h _ (User.delete id) s1).2 in
  exec h (User.main now p) s
  = if User.check_mode p
    then (Exited (User.Result true false
                    (User.OUser (User.UserRec (User.u_id u) (User.u_email u)
                                   (User.u_first_name u) (User.u_last_name u)
                                   (User.u_app_scope_id u) (Some now) (User.u_role_ids u)))),
          [Issued (User.get_object (User.p_email p))], s1)
    else (Exited (User.Result true false
                    (from_option User.OUser User.ONone
                       (h _ (User.get_object (User.p_email p)) s2).1)),
          [Issued (User.get_object (User.p_email p)); Issued (User.delete id);
           Issued (User.get_object (User.p_email p))],
          (h _ (User.get_object (User.p_email p)) s2).2).
Proof.
  intros Hst Hu Hen id s1 s2. subst id s1 s2.
  unfold User.main. rewrite Hst. simpl.
  destruct (h _ (User.get_object _) s) as [r s1]; simpl in *; subst r. simpl.
  unfold User.enforce_absent. rewrite Hen. simpl.
  destruct (User.check_mode p); simpl; [done|].
  destruct (h _ (User.delete _) s1) as [[] s2]; simpl.
  by destruct (h _ (User.get_object _) s2) as [r s3].
Qed.

Lemma user_absent_on_enabled_witness :
  let bob at_ := User.UserRec "u1" "bsmith@example.com" (Some "Bob") (Some "Smith") None
                   at_ [] in
  let p := User.Params absent "bsmith@example.com" None None None None false in
  exec UserServer.serve (User.main 0 p) (UserServer.Store [bob None] [])
  = (Exited (User.Result true false (User.OUser (bob (Some 1)))),
     [Issued (User.get_object "bsmith@example.com"); Issued (User.delete (Some "u1"));
      Issued (User.get_object "bsmith@example.com")],
     UserServer.Store [bob (Some 1)] []).
Proof.
  intros bob p.
  apply (user_absent_on_enabled 0 UserServer.serve (UserServer.Store [bob None] []) p
           (bob None)); reflexivity.
Defined.

(** X11.  [present] when no user has the email, check mode off: after the
    lookups one POST creates the user, with the email, the supplied names
    and, as app scope ID, the ID of the scope that a root scope name
    resolves to (the [app_scope_id] parameter when no scope name is given);
    the object returned is read with a GET of the ID that the POST
    answered. *)
Theorem user_present_creates {S} now (h : handler User.userE S) (s : S) (p : User.params) :
  User.p_state p = present →
  User.check_mode p = false →
  (h _ (User.get_object (User.p_email p)) s).1 = None →
  let s1 := (h _ (User.get_object (User.p_email p)) s).2 in
  (truthy_str (User.p_app_scope_name p) = false →
   let new_object := User.NewObject (User.p_email p) (User.p_first_name p)
                       (User.p_last_name p) (User.p_app_scope_id p) in
   exec_trace h (User.main now p) s
   = [Issued (User.get_object (User.p_email p)); Issued (User.post new_object);
      Issued (User.get (Some (User.u_id (h _ (User.post new_object) s1).1)))])
  ∧ (∀ n sc, User.p_app_scope_name p = Some n →
             n ≠ "" →
             contains_char ":" n = false →
             (h _ (User.get_scope n) s1).1 = Some sc →
             let s2 := (h _ (User.get_scope n) s1).2 in
             let new_object := User.NewObject (User.p_email p) (User.p_first_name p)
                                 (User.p_last_name p) (Some (User.s_id sc)) in
             exec_trace h (User.main now p) s
             = [Issued (User.get_object (User.p_email p)); Issued (User.get_scope n);
                Issued (User.post new_object);
                Issued (User.get (Some (User.u_id (h _ (User.post new_object) s2).1)))]).
Proof.
  intros Hst Hck Hnone s1. subst s1.
  unfold exec_trace, User.main. rewrite Hst. simpl.
  destruct (h _ (User.get_object _) s) as [r s1]; simpl in *; subst r. simpl.
  unfold User.enforce_present, User.resolve_scope, User.return_present. rewrite Hck.
  split.
  - intros Hname. simpl.
    destruct (User.p_app_scope_name p) as [n|]; simpl in *; rewrite ?Hname; simpl.
    all: by repeat answer.
  - intros n sc Hname Hn Hroot Hsc. simpl. rewrite Hname. simpl.
    rewrite bool_decide_true by done. simpl. rewrite Hroot.
    destruct (h _ (User.get_scope n) s1) as [r s2]; simpl in *; subst r. simpl.
    by repeat answer.
Qed.

Lemma user_present_creates_witness :
  let st := UserServer.Store [] [User.Scope "s1" "Default"] in
  let p := User.Params present "bsmith@example.com" (Some "Bob") None None (Some "Default")
             false in
  exec_trace UserServer.serve (User.main 0 p) st
  = [Issued (User.get_object "bsmith@example.com"); Issued (User.get_scope "Default");
     Issued (User.post (User.NewObject "bsmith@example.com" (Some "Bob") None (Some "s1")));
     Issued (User.get (Some "#"))].
Proof.
  intros st p.
  apply (user_present_creates 0 UserServer.serve st p) with (n := "Default")
                                                            (sc := User.Scope "s1" "Default");
    try reflexivity.
  discriminate.
Defined.

(** ** [query] *)

Lemma tenant_query_quiet `{PyInt} p : Tenant.p_state p = query → quiet (Tenant.main p).
Proof.
  intros Hst. unfold Tenant.main, Tenant.fetch, Tenant.ensure_id. rewrite Hst. quiet_auto.
Qed.

Lemma role_query_quiet p : Role.p_state p = query → quiet (Role.main p).
Proof. intros Hst. unfold Role.main, Role.fetch. rewrite Hst. quiet_auto. Qed.

Lemma nat_config_query_quiet p : NatConfig.p_state p = query → quiet (NatConfig.main p).
Proof. intros Hst. unfold NatConfig.main, NatConfig.fetch. rewrite Hst. quiet_auto. Qed.

(** X12.  Under [query] the tenant, user, role and NAT config modules issue
    no mutating call and never report a change: the invocation exits with
    [changed=false], or ends without a result (the tenant module on an ID
    that [int] rejects; the NAT config module on a VRF name that does not
    resolve).  The user module issues the lookup by email only and returns
    what it found, disabled users included. *)
Theorem query_never_mutates :
  (∀ (H : PyInt) S (h : handler Tenant.tenantE S) s p,
     Tenant.p_state p = query →
     read_only (exec_trace h (Tenant.main p) s)
     ∧ (exec_outcome h (Tenant.main p) s = Crashed ValueError
        ∨ ∃ object, exec_outcome h (Tenant.main p) s
                    = Exited (Tenant.Result false false object)))
  ∧ (∀ S now (h : handler User.userE S) s p,
       User.p_state p = query →
       exec h (User.main now p) s
       = (Exited (User.Result false false
                    (from_option User.OUser User.ONone
                       (h _ (User.get_object (User.p_email p)) s).1)),
          [Issued (User.get_object (User.p_email p))],
          (h _ (User.get_object (User.p_email p)) s).2))
  ∧ (∀ S (h : handler Role.roleE S) s p,
       Role.p_state p = query →
       read_only (exec_trace h (Role.main p) s)
       ∧ ∃ object, exec_outcome h (Role.main p) s = Exited (Role.Result false false object))
  ∧ (∀ S (h : handler NatConfig.natE S) s p,
       NatConfig.p_state p = query →
       read_only (exec_trace h (NatConfig.main p) s)
       ∧ (exec_outcome h (NatConfig.main p) s
          = Failed (NatConfig.vrf_message (NatConfig.p_vrf_name p))
          ∨ ∃ r, exec_outcome h (NatConfig.main p) s = Exited r
                 ∧ NatConfig.changed r = false)).
Proof.
  split; [|split; [|split]].
  - intros H S h s p Hst. split; [by apply quiet_read_only, tenant_query_quiet|].
    unfold exec_outcome, Tenant.main, Tenant.fetch, Tenant.ensure_id. rewrite Hst. simpl.
    repeat first [ progress simplify_eq/= | answer | case_match ]; eauto.
  - intros S now h s p Hst. unfold User.main. rewrite Hst. simpl.
    by destruct (h _ (User.get_object _) s) as [r s1].
  - intros S h s p Hst. split; [by apply quiet_read_only, role_query_quiet|].
    unfold exec_outcome, Role.main, Role.fetch. rewrite Hst. simpl.
    repeat first [ progress simplify_eq/= | answer | case_match ]; eauto.
  - intros S h s p Hst. split; [by apply quiet_read_only, nat_config_query_quiet|].
    unfold exec_outcome, NatConfig.main, NatConfig.fetch. rewrite Hst. simpl.
    repeat first [ progress simplify_eq/= | answer | case_match ]; eauto.
Qed.

Lemma query_never_mutates_witness :
  let bob := User.UserRec "u1" "bsmith@example.com" (Some "Bob") (Some "Smith") None
               (Some 1541993885) [] in
  let p := User.Params query "bsmith@example.com" None None None None false in
  exec UserServer.serve (User.main 0 p) (UserServer.Store [bob] [])
  = (Exited (User.Result false false (User.OUser bob)),
     [Issued (User.get_object "bsmith@example.com")], UserServer.Store [bob] []).
Proof.
  intros bob p.
  destruct query_never_mutates as (_ & Huser & _).
  apply (Huser _ 0 UserServer.serve (UserServer.Store [bob] []) p). reflexivity.
Defined.

(** ** The role module *)

(** X13.  An ID that no role has is fatal under [present] only: the
    invocation fails with the message after the lookup, without any
    mutating call; under [absent] and [query] it exits with
    [changed=false].  The name is not looked up when an ID is given. *)
Theorem role_unknown_id {S} (h : handler Role.roleE S) (s : S) (p : Role.params)
    (id : string) :
  Role.p_id p = Some id →
  (h _ (Role.get_object (Role.by_id id)) s).1 = None →
  exec_trace h (Role.main p) s = [Issued (Role.get_object (Role.by_id id))]
  ∧ exec_outcome h (Role.main p) s
    = match Role.p_state p with
      | present => Failed Role.error_message
      | absent => Exited (Role.Result false false Role.ONone)
      | query => Exited (Role.Result false false Role.ONone)
      end.
Proof.
  intros Hid Hnone. unfold exec_trace, exec_outcome, Role.main, Role.fetch.
  rewrite Hid. simpl.
  destruct (h _ (Role.get_object _) s) as [r s1]; simpl in *; subst r.
  by destruct (Role.p_state p).
Qed.

Lemma role_unknown_id_witness :
  let p st := Role.Params st (Some "ops") None "" (Some "r9") None None false in
  exec_outcome RoleServer.serve (Role.main (p present)) [] = Failed Role.error_message
  ∧ exec_outcome RoleServer.serve (Role.main (p absent)) []
    = Exited (Role.Result false false Role.ONone).
Proof.
  intros p. split.
  - apply (role_unknown_id RoleServer.serve [] (p present) "r9"); reflexivity.
  - apply (role_unknown_id RoleServer.serve [] (p absent) "r9"); reflexivity.
Defined.

(** X14.  [absent] on a role that exists: the full record is read, then one
    DELETE is issued on its ID (none under check mode); [changed] is true
    and the object is null.  Found by name and scope, the ID is the one of
    the record found. *)
Theorem role_absent_deletes_match {S} (h : handler Role.roleE S) (s : S) (p : Role.params)
    (f : Role.lookup) (found : Role.role) :
  Role.p_state p = absent →
  role_filter p = Some f →
  (h _ (Role.get_object f) s).1 = Some found →
  let id := match Role.p_id p with
            | Some id => Some id
            | None => Some (Role.r_id found)
            end in
  exec_outcome h (Role.main p) s = Exited (Role.Result true false Role.ONone)
  ∧ exec_trace h (Role.main p) s
    = [Issued (Role.get_object f); Issued (Role.get id)]
      ++ if Role.check_mode p then [] else [Issued (Role.delete id)].
Proof.
  intros Hst Hf Hfound id. subst id.
  unfold exec_outcome, exec_trace, Role.main, Role.fetch, role_filter in *.
  destruct (Role.p_id p) as [i|].
  - injection Hf as <-. simpl.
    destruct (h _ (Role.get_object _) s) as [r s1]; simpl in *; subst r. simpl.
    answer. rewrite Hst. unfold Role.enforce_absent. simpl.
    destruct (Role.check_mode p); simpl; [done|]. by answer.
  - destruct (Role.p_name p) as [n|]; [|done]. injection Hf as <-. simpl.
    destruct (h _ (Role.get_object _) s) as [r s1]; simpl in *; subst r. simpl.
    answer. rewrite Hst. unfold Role.enforce_absent. simpl.
    destruct (Role.check_mode p); simpl; [done|]. by answer.
Qed.

Lemma role_absent_deletes_match_witness :
  let ops := Role.RoleRec "r1" "ops" "" "" (Some []) in
  let p := Role.Params absent (Some "ops") None "" None None None false in
  exec_trace RoleServer.serve (Role.main p) [ops]
  = [Issued (Role.get_object (Role.by_name_scope "ops" ""));
     Issued (Role.get (Some "r1")); Issued (Role.delete (Some "r1"))].
Proof.
  intros ops p.
  apply (role_absent_deletes_match RoleServer.serve [ops] p (Role.by_name_scope "ops" "") ops);
    reflexivity.
Defined.

(** X15.  [present] by name when no role matches, check mode off: the role
    is created with the name, the description and, unless it is empty, the
    scope; the requested capability is then posted on the ID that the
    creation answered, and that ID is read for the object returned. *)
Theorem role_present_creates {S} (h : handler Role.roleE S) (s : S) (p : Role.params)
    (n : string) :
  Role.p_state p = present →
  Role.check_mode p = false →
  Role.p_id p = None →
  Role.p_name p = Some n →
  (h _ (Role.get_object (Role.by_name_scope n (Role.p_app_scope_id p))) s).1 = None →
  let s1 := (h _ (Role.get_object (Role.by_name_scope n (Role.p_app_scope_id p))) s).2 in
  let new_object :=
    Role.NewObject (Role.p_description p) (Some n)
      (if bool_decide (Role.p_app_scope_id p = "") then None
       else Some (Role.p_app_scope_id p)) in
  let id := Some (Role.r_id (h _ (Role.post new_object) s1).1) in
  exec_trace h (Role.main p) s
  = [Issued (Role.get_object (Role.by_name_scope n (Role.p_app_scope_id p)));
     Issued (Role.post new_object)]
    ++ match Role.p_capability_ability p with
       | Some a =>
           [Issued (Role.post_capability id
                      (Role.Capability (Role.CAPABILITIES a) (Role.p_capability_appscope p)))]
       | None => []
       end
    ++ [Issued (Role.get id)]
  ∧ ∃ r, exec_outcome h (Role.main p) s = Exited r ∧ Role.changed r = true.
Proof.
  intros Hst Hck Hid Hname Hnone s1 new_object id. subst s1 new_object id.
  unfold exec_outcome, exec_trace, Role.main, Role.fetch.
  rewrite Hid, Hname, Hst. simpl.
  destruct (h _ (Role.get_object _) s) as [r s1]; simpl in *; subst r. simpl.
  unfold Role.enforce_present, Role.add_capability, Role.return_present. rewrite Hck, Hname.
  simpl.
  destruct (decide (Role.p_app_scope_id p = "")) as [Hsc|Hsc].
  - rewrite (bool_decide_false (_ ≠ "")) by (by intros ?).
    rewrite (bool_decide_true (_ = "")) by done.
    destruct (Role.p_capability_ability p) as [a|]; simpl.
    + repeat answer. eauto.
    + repeat answer. eauto.
  - rewrite (bool_decide_true (_ ≠ "")) by done.
    rewrite (bool_decide_false (_ = "")) by done.
    destruct (Role.p_capability_ability p) as [a|]; simpl.
    + repeat answer. eauto.
    + repeat answer. eauto.
Qed.

Lemma role_present_creates_witness :
  let p := Role.Params present (Some "ops") (Some "Operators") "" None (Some "scope1")
             (Some Role.read) false in
  exec_trace RoleServer.serve (Role.main p) []
  = [Issued (Role.get_object (Role.by_name_scope "ops" ""));
     Issued (Role.post (Role.NewObject (Some "Operators") (Some "ops") None));
     Issued (Role.post_capability (Some "#") (Role.Capability "SCOPE_READ" (Some "scope1")));
     Issued (Role.get (Some "#"))].
Proof.
  intros p. apply (role_present_creates RoleServer.serve [] p "ops"); reflexivity.
Defined.

(** ** The NAT config module *)

(** X16.  [absent] without a NAT config ID, a VRF or the full source
    triple fails with the message before any call. *)
Theorem nat_config_absent_needs_key {S} (h : handler NatConfig.natE S) (s : S)
    (p : NatConfig.params) :
  NatConfig.p_state p = absent →
  ¬ nat_absent_parameters_given p →
  exec h (NatConfig.main p) s = (Failed NatConfig.absent_message, [], s).
Proof.
  intros Hst Hkey. unfold NatConfig.main. rewrite Hst.
  unfold nat_absent_parameters_given in Hkey.
  destruct (truthy_str (NatConfig.p_nat_config_id p)); [by destruct Hkey; left|].
  destruct (truthy_int (NatConfig.p_vrf_id p) || truthy_str (NatConfig.p_vrf_name p));
    [by destruct Hkey; right; left|].
  destruct (truthy_str (NatConfig.p_src_subnet p)
            && truthy_int (NatConfig.p_src_port_range_end p)
            && truthy_int (NatConfig.p_src_port_range_start p));
    [by destruct Hkey; right; right|].
  done.
Qed.

Lemma nat_config_absent_needs_key_witness :
  let p := NatConfig.Params absent (Some "10.0.0.0/8") (Some 0) (Some 1024) (Some "") None
             None "v1" "tetration.example.com" false in
  exec NatServer.serve (NatConfig.main p) (NatServer.Store [] [])
  = (Failed NatConfig.absent_message, [], NatServer.Store [] []).
Proof.
  intros p. apply nat_config_absent_needs_key; [reflexivity|].
  intros [Hid|[Hvrf|Hsrc]]; discriminate.
Defined.

(** X17.  [present] by VRF name: the name is resolved to the ID of the VRF,
    which is the [vrf_id] of both the lookup and the payload.  A NAT config
    that exists is returned as it is, with [changed=false] and no mutating
    call (the module has no update); one that does not exist is created by
    one POST, or, under check mode, reported with the payload as object. *)
Theorem nat_config_present_by_vrf_name {S} (h : handler NatConfig.natE S) (s : S)
    (p : NatConfig.params) (vrf : Tenant.tenant) :
  NatConfig.p_state p = present →
  truthy_str (NatConfig.p_nat_config_id p) = false →
  truthy_int (NatConfig.p_vrf_id p) = false →
  (h _ (NatConfig.get_vrf (NatConfig.p_vrf_name p)) s).1 = Some vrf →
  let s1 := (h _ (NatConfig.get_vrf (NatConfig.p_vrf_name p)) s).2 in
  let new_object :=
    NatConfig.NewObject (NatConfig.p_src_subnet p) (NatConfig.p_src_port_range_start p)
      (NatConfig.p_src_port_range_end p) (Some (Tenant.t_id vrf)) in
  let s2 := (h _ (NatConfig.get_object new_object) s1).2 in
  let result changed object :=
    NatConfig.Result changed (NatConfig.p_api_version p) (NatConfig.p_server_endpoint p)
      object in
  exec_outcome h (NatConfig.main p) s
  = match (h _ (NatConfig.get_object new_object) s1).1 with
    | Some existing => Exited (result false (NatConfig.ONat existing))
    | None =>
        if NatConfig.check_mode p then Exited (result true (NatConfig.ONew new_object))
        else Exited (result true (NatConfig.ONat (h _ (NatConfig.post new_object) s2).1))
    end
  ∧ exec_trace h (NatConfig.main p) s
    = [Issued (NatConfig.get_vrf (NatConfig.p_vrf_name p));
       Issued (NatConfig.get_object new_object)]
      ++ match (h _ (NatConfig.get_object new_object) s1).1 with
         | Some _ => []
         | None => if NatConfig.check_mode p then [] else [Issued (NatConfig.post new_object)]
         end.
Proof.
  intros Hst Hid Hvid Hvrf s1 new_object s2 result. subst s1 new_object s2 result.
  unfold exec_outcome, exec_trace, NatConfig.main, NatConfig.fetch.
  rewrite Hst, Hid, Hvid. simpl.
  destruct (h _ (NatConfig.get_vrf _) s) as [r s1]; simpl in *; subst r. simpl.
  destruct (h _ (NatConfig.get_object _) s1) as [[existing|] s2]; simpl; [done|].
  unfold NatConfig.enforce_present. simpl.
  destruct (NatConfig.check_mode p); simpl; [done|]. by answer.
Qed.

Lemma nat_config_present_by_vrf_name_witness :
  let eng := Tenant.Tenant 7 "Eng" [] in
  let p := NatConfig.Params present (Some "10.0.0.0/8") (Some 1) (Some 1024) (Some "Eng") None
             None "v1" "tetration.example.com" false in
  let new_object := NatConfig.NewObject (Some "10.0.0.0/8") (Some 1) (Some 1024) (Some 7) in
  exec_trace NatServer.serve (NatConfig.main p) (NatServer.Store [eng] [])
  = [Issued (NatConfig.get_vrf (Some "Eng")); Issued (NatConfig.get_object new_object);
     Issued (NatConfig.post new_object)].
Proof.
  intros eng p new_object.
  apply (nat_config_present_by_vrf_name NatServer.serve (NatServer.Store [eng] []) p eng);
    reflexivity.
Defined.

(** X18.  With a NAT config ID the lookup is by that ID alone: no VRF name
    is resolved, and when no config has the ID, [present] creates one whose
    [vrf_id] is the [vrf_id] parameter as given (null when, as the
    argument spec demands, no VRF accompanies the ID). *)
Theorem nat_config_present_by_id {S} (h : handler NatConfig.natE S) (s : S)
    (p : NatConfig.params) (id : string) :
  NatConfig.p_state p = present →
  NatConfig.check_mode p = false →
  NatConfig.p_nat_config_id p = Some id →
  id ≠ "" →
  (h _ (NatConfig.get_object_by_id id) s).1 = None →
  let new_object :=
    NatConfig.NewObject (NatConfig.p_src_subnet p) (NatConfig.p_src_port_range_start p)
      (NatConfig.p_src_port_range_end p) (NatConfig.p_vrf_id p) in
  exec_trace h (NatConfig.main p) s
  = [Issued (NatConfig.get_object_by_id id); Issued (NatConfig.post new_object)].
Proof.
  intros Hst Hck Hid Hne Hnone new_object. subst new_object.
  unfold exec_trace, NatConfig.main, NatConfig.fetch.
  rewrite Hst, Hid. simpl. rewrite bool_decide_true by done. simpl.
  destruct (h _ (NatConfig.get_object_by_id _) s) as [r s1]; simpl in *; subst r. simpl.
  unfold NatConfig.enforce_present. rewrite Hck. simpl. by answer.
Qed.

Lemma nat_config_present_by_id_witness :
  let p := NatConfig.Params present (Some "10.0.0.0/8") (Some 1) (Some 1024) None None
             (Some "n1") "v1" "tetration.example.com" false in
  exec_trace NatServer.serve (NatConfig.main p) (NatServer.Store [] [])
  = [Issued (NatConfig.get_object_by_id "n1");
     Issued (NatConfig.post
               (NatConfig.NewObject (Some "10.0.0.0/8") (Some 1) (Some 1024) None))].
Proof.
  intros p.
  apply (nat_config_present_by_id NatServer.serve (NatServer.Store [] []) p "n1");
    try reflexivity.
  discriminate.
Defined.

(** X19.  [absent] on a NAT config that the read phase finds: one DELETE on
    the ID of the record found (none under check mode), [changed=true] and
    a null object. *)
Theorem nat_config_absent_deletes_match {S} (h : handler NatConfig.natE S) (s : S)
    (p : NatConfig.params) (existing : NatConfig.nat_config) vrf_id t s1 :
  NatConfig.p_state p = absent →
  nat_absent_parameters_given p →
  exec h (NatConfig.fetch p) s = (Exited (Some existing, vrf_id), t, s1) →
  exec_outcome h (NatConfig.main p) s
  = Exited (NatConfig.Result true (NatConfig.p_api_version p) (NatConfig.p_server_endpoint p)
              NatConfig.ONone)
  ∧ exec_trace h (NatConfig.main p) s
    = t ++ if NatConfig.check_mode p then []
           else [Issued (NatConfig.delete (NatConfig.c_id existing))].
Proof.
  intros Hst Hgiven Hfetch.
  unfold exec_outcome, exec_trace, NatConfig.main.
  assert (Hpre : bool_decide (NatConfig.p_state p = absent)
                 && negb (truthy_str (NatConfig.p_nat_config_id p))
                 && negb (truthy_int (NatConfig.p_vrf_id p)
                          || truthy_str (NatConfig.p_vrf_name p))
                 && negb (truthy_str (NatConfig.p_src_subnet p)
                          && truthy_int (NatConfig.p_src_port_range_end p)
                          && truthy_int (NatConfig.p_src_port_range_start p)) = false).
  { destruct Hgiven as [-> | [-> | ->]]; simpl; by rewrite ?andb_false_r. }
  rewrite Hpre, exec_bind, Hfetch, Hst. simpl.
  unfold NatConfig.enforce_absent.
  destruct (NatConfig.check_mode p); simpl; [done|]. by answer.
Qed.

Lemma nat_config_absent_deletes_match_witness :
  let c := NatConfig.NatConfigRec "n1" 7 "10.0.0.0/8" 1 1024 in
  let st := NatServer.Store [] [c] in
  let p := NatConfig.Params absent None None None None None (Some "n1") "v1"
             "tetration.example.com" false in
  exec_trace NatServer.serve (NatConfig.main p) st
  = [Issued (NatConfig.get_object_by_id "n1"); Issued (NatConfig.delete "n1")].
Proof.
  intros c st p.
  apply (nat_config_absent_deletes_match NatServer.serve st p c None
           [Issued (NatConfig.get_object_by_id "n1")] st).
  - reflexivity.
  - left. reflexivity.
  - reflexivity.
Defined.

(** ** The user-role module *)

(** X20.  When the lookup by email finds no user, the invocation fails
    with the message whatever the state and check mode; the lookup is the
    only call: the roles collection is not read and nothing is added or
    removed. *)
Theorem user_role_unknown_user {S} (h : handler UserRole.user_roleE S) (s : S)
    (p : UserRole.params) :
  (h _ (UserRole.get_object (UserRole.p_email p)) s).1 = None →
  exec h (UserRole.main p) s
  = (Failed UserRole.error_message, [Issued (UserRole.get_object (UserRole.p_email p))],
     (h _ (UserRole.get_object (UserRole.p_email p)) s).2).
Proof.
  intros Hnone. unfold UserRole.main. simpl.
  by destruct (h _ (UserRole.get_object _) s) as [r s1]; simpl in *; subst r.
Qed.

Lemma user_role_unknown_user_witness :
  let bob := User.UserRec "u1" "bsmith@example.com" (Some "Bob") (Some "Smith") None
               (Some 1541993885) ["A"] in
  let st := UserRoleServer.Store [bob] [] in
  exec UserRoleServer.serve
    (UserRole.main (UserRole.Params absent "bsmith@example.com" ["A"] false)) st
  = (Failed UserRole.error_message, [Issued (UserRole.get_object "bsmith@example.com")], st).
Proof.
  intros bob st.
  apply (user_role_unknown_user UserRoleServer.serve st
           (UserRole.Params absent "bsmith@example.com" ["A"] false)).
  reflexivity.
Defined.

(** ** The interface intent module *)

(** The loop stops at the first intent of the VRF: no intent before the
    index it returns has that [vrf_id]. *)
Lemma find_intent_first vrf_id fid (k : nat) (l : list InterfaceIntent.intent) :
  match intent_of_vrf vrf_id l with
  | Some it =>
      ∃ j, InterfaceIntent.find_intent vrf_id fid k l
           = (Some (k + j)%nat, bool_decide (InterfaceIntent.i_inventory_filter_id it ≠ fid))
           ∧ l !! j = Some it
           ∧ InterfaceIntent.i_vrf_id it = vrf_id
           ∧ intent_of_vrf vrf_id (take j l) = None
  | None => InterfaceIntent.find_intent vrf_id fid k l = (None, false)
  end.
Proof.
  unfold intent_of_vrf. revert k. induction l as [|it l IH]; intros k; simpl; [done|].
  case_bool_decide as Hv.
  - exists 0%nat. by rewrite Nat.add_0_r.
  - specialize (IH (S k)).
    destruct (List.find _ l) as [it'|]; [|done].
    destruct IH as (j & Hf & Hj & Hid & Hbefore). exists (S j). simpl.
    rewrite (bool_decide_false (InterfaceIntent.i_vrf_id it = vrf_id)) by done.
    repeat split; try done.
    rewrite Hf. f_equal. f_equal. lia.
Qed.

(** X21.  Unless all intents are queried, an invocation without a VRF
    (name or ID), or with a VRF but without an inventory filter (name or
    ID), fails with the message of the missing parameter before any
    call. *)
Theorem interface_intent_validation_before_calls {S} py
    (h : handler InterfaceIntent.intentE S) (s : S) (p : InterfaceIntent.params) :
  InterfaceIntent.p_state p ≠ query
  ∨ InterfaceIntent.p_query_type p ≠ InterfaceIntent.all →
  ¬ intent_parameters_given p →
  exec h (InterfaceIntent.main py p) s
  = (Failed
       (if truthy_str (InterfaceIntent.p_vrf_name p)
           || truthy_str (InterfaceIntent.p_vrf_id p)
        then "One of the following parameters is required: inventory_filter_name or inventory_filter_id"
        else "One of the following parameters is required: vrf_name or vrf_id"),
     [], s).
Proof.
  intros Hall Hgiven. unfold InterfaceIntent.main.
  assert (Hpre : bool_decide (InterfaceIntent.p_state p ≠ query)
                 || bool_decide (InterfaceIntent.p_query_type p ≠ InterfaceIntent.all)
                 = true).
  { destruct Hall; [rewrite (bool_decide_true (_ ≠ query)) by done
                   |rewrite (bool_decide_true (_ ≠ InterfaceIntent.all)) by done];
      by rewrite ?orb_true_r. }
  rewrite Hpre. simpl.
  destruct (truthy_str (InterfaceIntent.p_vrf_name p)
            || truthy_str (InterfaceIntent.p_vrf_id p)) eqn:Hvrf; simpl; [|done].
  destruct (truthy_str (InterfaceIntent.p_inventory_filter_name p)
            || truthy_str (InterfaceIntent.p_inventory_filter_id p)) eqn:Hfilter; simpl;
    [|done].
  destruct Hgiven. right. done.
Qed.

Lemma interface_intent_validation_before_calls_witness :
  let p := InterfaceIntent.Params absent (Some "Eng") None None (Some "")
             InterfaceIntent.all true in
  exec IntentServer.serve (InterfaceIntent.main InterfaceIntent.Python3 p)
    (IntentServer.Store [] [] [] [])
  = (Failed
       "One of the following parameters is required: inventory_filter_name or inventory_filter_id",
     [], IntentServer.Store [] [] [] []).
Proof.
  intros p.
  apply (interface_intent_validation_before_calls InterfaceIntent.Python3 IntentServer.serve
           (IntentServer.Store [] [] [] []) p).
  - left. discriminate.
  - intros [[Hst _]|[_ Hfilter]]; discriminate.
Defined.

(** X22.  [present] with check mode off when the VRF has an intent (the
    first of the list with its [vrf_id], at index [j]).  With the resolved
    inventory filter the list is returned as read, [changed=false], and
    nothing is posted.  With another filter the whole list is posted with
    the entry at [j] replaced by the new intent and every other entry as
    read, then read again, and [changed=true].  The interpreter plays no
    part. *)
Theorem interface_intent_present_on_match {S} py
    (h : handler InterfaceIntent.intentE S) (s : S) (p : InterfaceIntent.params)
    vrf_id t1 s1 fid t2 s2 (it : InterfaceIntent.intent) :
  InterfaceIntent.p_state p = present →
  InterfaceIntent.check_mode p = false →
  intent_parameters_given p →
  exec h (InterfaceIntent.resolve_vrf p) s = (Exited vrf_id, t1, s1) →
  exec h (InterfaceIntent.resolve_filter p) s1 = (Exited fid, t2, s2) →
  let current_intents := default [] (h _ InterfaceIntent.get_intents s2).1 in
  let new_object := InterfaceIntent.Intent vrf_id fid None None in
  intent_of_vrf vrf_id current_intents = Some it →
  if bool_decide (InterfaceIntent.i_inventory_filter_id it = fid) then
    exec_outcome h (InterfaceIntent.main py p) s
    = Exited (InterfaceIntent.Result false (InterfaceIntent.OIntents current_intents))
    ∧ exec_trace h (InterfaceIntent.main py p) s
      = t1 ++ t2 ++ [Issued InterfaceIntent.get_intents]
  else
    ∃ j r,
      current_intents !! j = Some it
      ∧ intent_of_vrf vrf_id (take j current_intents) = None
      ∧ exec_outcome h (InterfaceIntent.main py p) s = Exited r
      ∧ InterfaceIntent.changed r = true
      ∧ exec_trace h (InterfaceIntent.main py p) s
        = t1 ++ t2
          ++ [Issued InterfaceIntent.get_intents;
              Issued (InterfaceIntent.post_intents (<[j := new_object]> current_intents));
              Issued InterfaceIntent.get_intents].
Proof.
  intros Hst Hck Hgiven Hvrf Hfilter current_intents new_object Hit.
  subst current_intents new_object.
  unfold exec_outcome, exec_trace.
  rewrite (interface_intent_main_exec py h s p _ _ _ _ _ _ Hgiven Hvrf Hfilter).
  rewrite Hst. simpl.
  pose proof (find_intent_first vrf_id fid 0
                (default [] (h _ InterfaceIntent.get_intents s2).1)) as Hfind.
  rewrite Hit in Hfind. destruct Hfind as (j & -> & Hj & Hid & Hbefore). simpl.
  unfold InterfaceIntent.enforce_present. simpl. rewrite Hck. simpl.
  case_bool_decide as Hsame.
  - rewrite bool_decide_false by (intros Hne; by apply Hne). done.
  - rewrite bool_decide_true by done. simpl.
    repeat answer. simpl. exists j. eexists. repeat split; done.
Qed.

Lemma interface_intent_present_on_match_witness :
  let eng := Tenant.Tenant 7 "Eng" [] in
  let ops := InterfaceIntent.Intent (InterfaceIntent.SInt 3) (Some "f-ops") None None in
  let old := InterfaceIntent.Intent (InterfaceIntent.SInt 7) (Some "f-old") None None in
  let new := InterfaceIntent.Intent (InterfaceIntent.SInt 7) (Some "f-new") None None in
  let st := IntentServer.Store [eng] [] [] [ops; old; ops] in
  let p := InterfaceIntent.Params present (Some "Eng") None (Some "f-new") None
             InterfaceIntent.single false in
  ∃ j r,
    [ops; old; ops] !! j = Some old
    ∧ intent_of_vrf (InterfaceIntent.SInt 7) (take j [ops; old; ops]) = None
    ∧ exec_outcome IntentServer.serve (InterfaceIntent.main InterfaceIntent.Python3 p) st
      = Exited r
    ∧ InterfaceIntent.changed r = true
    ∧ exec_trace IntentServer.serve (InterfaceIntent.main InterfaceIntent.Python3 p) st
      = [Issued (InterfaceIntent.get_vrf (InterfaceIntent.vrf_by_name (Some "Eng")))] ++ []
        ++ [Issued InterfaceIntent.get_intents;
            Issued (InterfaceIntent.post_intents (<[j := new]> [ops; old; ops]));
            Issued InterfaceIntent.get_intents].
Proof.
  intros eng ops old new st p.
  apply (interface_intent_present_on_match InterfaceIntent.Python3 IntentServer.serve st p
           (InterfaceIntent.SInt 7)
           [Issued (InterfaceIntent.get_vrf (InterfaceIntent.vrf_by_name (Some "Eng")))]
           st (Some "f-new") [] st old); try reflexivity.
  right. split; reflexivity.
Defined.

(** [present] under Python 2 with check mode off when the VRF has no
    intent: the new intent is appended. *)
Lemma interface_intent_append_exec {S}
    (h : handler InterfaceIntent.intentE S) (s : S) (p : InterfaceIntent.params)
    vrf_id t1 s1 fid t2 s2 :
  InterfaceIntent.p_state p = present →
  InterfaceIntent.check_mode p = false →
  intent_parameters_given p →
  exec h (InterfaceIntent.resolve_vrf p) s = (Exited vrf_id, t1, s1) →
  exec h (InterfaceIntent.resolve_filter p) s1 = (Exited fid, t2, s2) →
  let current_intents := default [] (h _ InterfaceIntent.get_intents s2).1 in
  let new_object := InterfaceIntent.Intent vrf_id fid None None in
  intent_of_vrf vrf_id current_intents = None →
  ∃ r,
    exec_outcome h (InterfaceIntent.main InterfaceIntent.Python2 p) s = Exited r
    ∧ InterfaceIntent.changed r = true
    ∧ exec_trace h (InterfaceIntent.main InterfaceIntent.Python2 p) s
      = t1 ++ t2
        ++ [Issued InterfaceIntent.get_intents;
            Issued (InterfaceIntent.post_intents (current_intents ++ [new_object]));
            Issued InterfaceIntent.get_intents].
Proof.
  intros Hst Hck Hgiven Hvrf Hfilter current_intents new_object Hnone.
  subst current_intents new_object.
  unfold exec_outcome, exec_trace.
  rewrite (interface_intent_main_exec _ h s p _ _ _ _ _ _ Hgiven Hvrf Hfilter).
  rewrite Hst. simpl.
  pose proof (find_intent_first vrf_id fid 0
                (default [] (h _ InterfaceIntent.get_intents s2).1)) as Hfind.
  rewrite Hnone in Hfind. rewrite Hfind. simpl.
  unfold InterfaceIntent.enforce_present. simpl. rewrite Hck. simpl.
  repeat answer. simpl. eauto.
Qed.

(** X23.  [present] under Python 2 with check mode off when no intent of
    the list has the resolved [vrf_id]: the list is posted with the new
    intent appended, every entry read kept in place, then read again, and
    [changed=true]. *)
Theorem interface_intent_present_appends {S}
    (h : handler InterfaceIntent.intentE S) (s : S) (p : InterfaceIntent.params)
    vrf_id t1 s1 fid t2 s2 :
  InterfaceIntent.p_state p = present →
  InterfaceIntent.check_mode p = false →
  intent_parameters_given p →
  exec h (InterfaceIntent.resolve_vrf p) s = (Exited vrf_id, t1, s1) →
  exec h (InterfaceIntent.resolve_filter p) s1 = (Exited fid, t2, s2) →
  let current_intents := default [] (h _ InterfaceIntent.get_intents s2).1 in
  let new_object := InterfaceIntent.Intent vrf_id fid None None in
  intent_of_vrf vrf_id current_intents = None →
  ∃ r,
    exec_outcome h (InterfaceIntent.main InterfaceIntent.Python2 p) s = Exited r
    ∧ InterfaceIntent.changed r = true
    ∧ exec_trace h (InterfaceIntent.main InterfaceIntent.Python2 p) s
      = t1 ++ t2
        ++ [Issued InterfaceIntent.get_intents;
            Issued (InterfaceIntent.post_intents (current_intents ++ [new_object]));
            Issued InterfaceIntent.get_intents].
Proof. apply interface_intent_append_exec. Qed.

Lemma interface_intent_present_appends_witness :
  let eng := Tenant.Tenant 7 "Eng" [] in
  let ops := InterfaceIntent.Intent (InterfaceIntent.SInt 3) (Some "f-ops") None None in
  let new := InterfaceIntent.Intent (InterfaceIntent.SInt 7) (Some "f-new") None None in
  let st := IntentServer.Store [eng] [] [] [ops] in
  let p := InterfaceIntent.Params present (Some "Eng") None (Some "f-new") None
             InterfaceIntent.single false in
  ∃ r,
    exec_outcome IntentServer.serve (InterfaceIntent.main InterfaceIntent.Python2 p) st
    = Exited r
    ∧ InterfaceIntent.changed r = true
    ∧ exec_trace IntentServer.serve (InterfaceIntent.main InterfaceIntent.Python2 p) st
      = [Issued (InterfaceIntent.get_vrf (InterfaceIntent.vrf_by_name (Some "Eng")))] ++ []
        ++ [Issued InterfaceIntent.get_intents;
            Issued (InterfaceIntent.post_intents ([ops] ++ [new]));
            Issued InterfaceIntent.get_intents].
Proof.
  intros eng ops new st p.
  apply (interface_intent_present_appends IntentServer.serve st p (InterfaceIntent.SInt 7)
           [Issued (InterfaceIntent.get_vrf (InterfaceIntent.vrf_by_name (Some "Eng")))]
           st (Some "f-new") [] st); try reflexivity.
  right. split; reflexivity.
Defined.

(** X24.  [absent] when the VRF has an intent (the first of the list with
    its [vrf_id], at index [j]).  With the resolved inventory filter that
    one entry is removed: the list without it is the object, it is posted
    unless check mode is on, and [changed=true]; a later intent of the same
    VRF stays.  With another filter the invocation fails after the reads,
    and nothing is posted.  The interpreter plays no part. *)
Theorem interface_intent_absent_on_match {S} py
    (h : handler InterfaceIntent.intentE S) (s : S) (p : InterfaceIntent.params)
    vrf_id t1 s1 fid t2 s2 (it : InterfaceIntent.intent) :
  InterfaceIntent.p_state p = absent →
  intent_parameters_given p →
  exec h (InterfaceIntent.resolve_vrf p) s = (Exited vrf_id, t1, s1) →
  exec h (InterfaceIntent.resolve_filter p) s1 = (Exited fid, t2, s2) →
  let current_intents := default [] (h _ InterfaceIntent.get_intents s2).1 in
  intent_of_vrf vrf_id current_intents = Some it →
  if bool_decide (InterfaceIntent.i_inventory_filter_id it = fid) then
    ∃ j,
      current_intents !! j = Some it
      ∧ intent_of_vrf vrf_id (take j current_intents) = None
      ∧ exec_outcome h (InterfaceIntent.main py p) s
        = Exited (InterfaceIntent.Result true
                    (InterfaceIntent.OIntents (delete j current_intents)))
      ∧ exec_trace h (InterfaceIntent.main py p) s
        = t1 ++ t2 ++ Issued InterfaceIntent.get_intents
          :: if InterfaceIntent.check_mode p then []
             else [Issued (InterfaceIntent.post_intents (delete j current_intents))]
  else
    exec_outcome h (InterfaceIntent.main py p) s
    = Failed ("Inventory filter id " +:+ fmt_str fid
              +:+ " does not match current filter associated with vrf "
              +:+ InterfaceIntent.fmt_scalar vrf_id +:+ " config intent")
    ∧ exec_trace h (InterfaceIntent.main py p) s
      = t1 ++ t2 ++ [Issued InterfaceIntent.get_intents].
Proof.
  intros Hst Hgiven Hvrf Hfilter current_intents Hit. subst current_intents.
  unfold exec_outcome, exec_trace.
  rewrite (interface_intent_main_exec py h s p _ _ _ _ _ _ Hgiven Hvrf Hfilter).
  rewrite Hst. simpl.
  pose proof (find_intent_first vrf_id fid 0
                (default [] (h _ InterfaceIntent.get_intents s2).1)) as Hfind.
  rewrite Hit in Hfind. destruct Hfind as (j & -> & Hj & Hid & Hbefore). simpl.
  unfold InterfaceIntent.enforce_absent. simpl.
  case_bool_decide as Hsame.
  - rewrite bool_decide_false by (intros Hne; by apply Hne). simpl.
    exists j. destruct (InterfaceIntent.check_mode p); simpl; [done|].
    repeat answer. done.
  - rewrite bool_decide_true by done. done.
Qed.

Lemma interface_intent_absent_on_match_witness :
  let ops := InterfaceIntent.Intent (InterfaceIntent.SInt 3) (Some "f-ops") None None in
  let eng := InterfaceIntent.Intent (InterfaceIntent.SInt 7) (Some "f-eng") None None in
  let st := IntentServer.Store [Tenant.Tenant 7 "Eng" []] [] [] [ops; eng; eng] in
  let p := InterfaceIntent.Params absent (Some "Eng") None (Some "f-eng") None
             InterfaceIntent.single false in
  ∃ j,
    [ops; eng; eng] !! j = Some eng
    ∧ intent_of_vrf (InterfaceIntent.SInt 7) (take j [ops; eng; eng]) = None
    ∧ exec_outcome IntentServer.serve (InterfaceIntent.main InterfaceIntent.Python3 p) st
      = Exited (InterfaceIntent.Result true
                  (InterfaceIntent.OIntents (delete j [ops; eng; eng])))
    ∧ exec_trace IntentServer.serve (InterfaceIntent.main InterfaceIntent.Python3 p) st
      = [Issued (InterfaceIntent.get_vrf (InterfaceIntent.vrf_by_name (Some "Eng")))] ++ []
        ++ [Issued InterfaceIntent.get_intents;
            Issued (InterfaceIntent.post_intents (delete j [ops; eng; eng]))].
Proof.
  intros ops eng st p.
  apply (interface_intent_absent_on_match InterfaceIntent.Python3 IntentServer.serve st p
           (InterfaceIntent.SInt 7)
           [Issued (InterfaceIntent.get_vrf (InterfaceIntent.vrf_by_name (Some "Eng")))]
           st (Some "f-eng") [] st eng); try reflexivity.
  right. split; reflexivity.
Defined.

(** X25.  Under Python 3, whenever no intent of the list has the resolved
    [vrf_id], the comparison [target_object_index >= 0] raises
    [TypeError]: under [present], [absent] and the single query alike the
    invocation ends with the exception after the reads, so [present] never
    creates the first intent of a VRF. *)
Theorem interface_intent_python3_no_match_raises {S}
    (h : handler InterfaceIntent.intentE S) (s : S) (p : InterfaceIntent.params)
    vrf_id t1 s1 fid t2 s2 :
  InterfaceIntent.p_state p ≠ query
  ∨ InterfaceIntent.p_query_type p = InterfaceIntent.single →
  intent_parameters_given p →
  exec h (InterfaceIntent.resolve_vrf p) s = (Exited vrf_id, t1, s1) →
  exec h (InterfaceIntent.resolve_filter p) s1 = (Exited fid, t2, s2) →
  intent_of_vrf vrf_id (default [] (h _ InterfaceIntent.get_intents s2).1) = None →
  exec_outcome h (InterfaceIntent.main InterfaceIntent.Python3 p) s = Crashed TypeError
  ∧ exec_trace h (InterfaceIntent.main InterfaceIntent.Python3 p) s
    = t1 ++ t2 ++ [Issued InterfaceIntent.get_intents].
Proof.
  intros Hsingle Hgiven Hvrf Hfilter Hnone.
  unfold exec_outcome, exec_trace.
  rewrite (interface_intent_main_exec _ h s p _ _ _ _ _ _ Hgiven Hvrf Hfilter).
  pose proof (find_intent_first vrf_id fid 0
                (default [] (h _ InterfaceIntent.get_intents s2).1)) as Hfind.
  rewrite Hnone in Hfind. simpl. rewrite Hfind. simpl.
  destruct (InterfaceIntent.p_state p) eqn:Hst; simpl; try done.
  unfold InterfaceIntent.enforce_query.
  destruct Hsingle as [?| ->]; done.
Qed.

Lemma interface_intent_python3_no_match_raises_witness :
  let ops := InterfaceIntent.Intent (InterfaceIntent.SInt 3) (Some "f-ops") None None in
  let st := IntentServer.Store [Tenant.Tenant 7 "Eng" []] [] [] [ops] in
  let p := InterfaceIntent.Params present (Some "Eng") None (Some "f-eng") None
             InterfaceIntent.single false in
  exec_outcome IntentServer.serve (InterfaceIntent.main InterfaceIntent.Python3 p) st
  = Crashed TypeError
  ∧ exec_trace IntentServer.serve (InterfaceIntent.main InterfaceIntent.Python3 p) st
    = [Issued (InterfaceIntent.get_vrf (InterfaceIntent.vrf_by_name (Some "Eng")))] ++ []
      ++ [Issued InterfaceIntent.get_intents].
Proof.
  intros ops st p.
  apply (interface_intent_python3_no_match_raises IntentServer.serve st p
           (InterfaceIntent.SInt 7)
           [Issued (InterfaceIntent.get_vrf (InterfaceIntent.vrf_by_name (Some "Eng")))]
           st (Some "f-eng") [] st); try reflexivity.
  - left. discriminate.
  - right. split; reflexivity.
Defined.

(** A [vrf_id] parameter is a string; it equals no integer. *)
Lemma intent_of_vrf_string (v : string) (l : list InterfaceIntent.intent) :
  Forall (λ i, ∃ z, InterfaceIntent.i_vrf_id i = InterfaceIntent.SInt z) l →
  intent_of_vrf (InterfaceIntent.SStr v) l = None.
Proof.
  unfold intent_of_vrf. induction 1 as [|i l [z Hz] _ IH]; simpl; [done|].
  rewrite Hz. by rewrite bool_decide_false.
Qed.

(** X26.  The [vrf_id] parameter is a string and is compared as it is
    with the [vrf_id] of each intent.  When the intents read carry integer
    VRF IDs, an invocation by [vrf_id] finds no intent of the VRF, whatever
    the list holds: [present] (Python 2, check mode off) resolves no VRF
    and posts the list with one more intent on every run. *)
Theorem interface_intent_vrf_id_parameter_never_matches {S}
    (h : handler InterfaceIntent.intentE S) (s : S) (p : InterfaceIntent.params)
    (v : string) fid t2 s2 :
  InterfaceIntent.p_state p = present →
  InterfaceIntent.check_mode p = false →
  InterfaceIntent.p_vrf_id p = Some v →
  v ≠ "" →
  (truthy_str (InterfaceIntent.p_inventory_filter_name p)
   || truthy_str (InterfaceIntent.p_inventory_filter_id p)) = true →
  exec h (InterfaceIntent.resolve_filter p) s = (Exited fid, t2, s2) →
  let current_intents := default [] (h _ InterfaceIntent.get_intents s2).1 in
  Forall (λ i, ∃ z, InterfaceIntent.i_vrf_id i = InterfaceIntent.SInt z) current_intents →
  exec_trace h (InterfaceIntent.main InterfaceIntent.Python2 p) s
  = t2 ++ [Issued InterfaceIntent.get_intents;
           Issued (InterfaceIntent.post_intents
                     (current_intents
                      ++ [InterfaceIntent.Intent (InterfaceIntent.SStr v) fid None None]));
           Issued InterfaceIntent.get_intents].
Proof.
  intros Hst Hck Hv Hne Hgiven Hfilter current_intents Hint.
  assert (Hvrf : exec h (InterfaceIntent.resolve_vrf p) s
                 = (Exited (InterfaceIntent.SStr v), [], s)).
  { unfold InterfaceIntent.resolve_vrf. rewrite Hv, Hst. simpl.
    rewrite (bool_decide_true (v ≠ "")) by done. simpl.
    rewrite (bool_decide_true (v ≠ "")) by done. done. }
  assert (Hparams : intent_parameters_given p).
  { right. split; [|done]. rewrite Hv. simpl.
    rewrite (bool_decide_true (v ≠ "")) by done. apply orb_true_r. }
  destruct (interface_intent_append_exec h s p _ _ _ _ _ _ Hst Hck Hparams Hvrf
              Hfilter (intent_of_vrf_string v _ Hint)) as (r & _ & _ & Htrace).
  exact Htrace.
Qed.

Lemma interface_intent_vrf_id_parameter_never_matches_witness :
  let eng := InterfaceIntent.Intent (InterfaceIntent.SInt 7) (Some "f-eng") None None in
  let st := IntentServer.Store [Tenant.Tenant 7 "Eng" []] [] [] [eng] in
  let p := InterfaceIntent.Params present None (Some "7") (Some "f-eng") None
             InterfaceIntent.single false in
  exec_trace IntentServer.serve (InterfaceIntent.main InterfaceIntent.Python2 p) st
  = [] ++ [Issued InterfaceIntent.get_intents;
           Issued (InterfaceIntent.post_intents
                     ([eng] ++ [InterfaceIntent.Intent (InterfaceIntent.SStr "7")
                                  (Some "f-eng") None None]));
           Issued InterfaceIntent.get_intents].
Proof.
  intros eng st p.
  apply (interface_intent_vrf_id_parameter_never_matches IntentServer.serve st p "7"
           (Some "f-eng") [] st); try reflexivity.
  - discriminate.
  - repeat constructor. by exists 7.
Defined.

Lemma find_intent_app vrf_id fid (k : nat) (front rest : list InterfaceIntent.intent) idx c :
  InterfaceIntent.find_intent vrf_id fid k front = (Some idx, c) →
  InterfaceIntent.find_intent vrf_id fid k (front ++ rest) = (Some idx, c).
Proof.
  revert k. induction front as [|it front IH]; intros k; simpl; [done|].
  case_bool_decide; [done|]. apply IH.
Qed.

Lemma annotate_last_snoc (l : list InterfaceIntent.intent) (lst : InterfaceIntent.intent)
    filter_object vrf_name :
  InterfaceIntent.annotate_last (l ++ [lst]) filter_object vrf_name
  = l ++ [InterfaceIntent.Intent (InterfaceIntent.i_vrf_id lst)
            (InterfaceIntent.i_inventory_filter_id lst) (Some filter_object)
            (Some vrf_name)].
Proof.
  unfold InterfaceIntent.annotate_last. rewrite reverse_snoc. by rewrite reverse_involutive.
Qed.

(** X27.  [present] under check mode when the intent of the VRF carries
    another filter and is not the last of the list: the entry at its index
    is replaced by the new intent, and the two keys of the preview,
    [inventory_filter] and [vrf_name] of the requested VRF, are set on the
    last intent of the list, an intent that the invocation does not
    otherwise touch; the replaced entry carries neither.  Nothing is
    posted. *)
Theorem interface_intent_check_mode_annotates_last {S} py
    (h : handler InterfaceIntent.intentE S) (s : S) (p : InterfaceIntent.params)
    vrf_id t1 s1 fid t2 s2 (it lst : InterfaceIntent.intent)
    (front : list InterfaceIntent.intent) (vrf : Tenant.tenant) :
  InterfaceIntent.p_state p = present →
  InterfaceIntent.check_mode p = true →
  intent_parameters_given p →
  exec h (InterfaceIntent.resolve_vrf p) s = (Exited vrf_id, t1, s1) →
  exec h (InterfaceIntent.resolve_filter p) s1 = (Exited fid, t2, s2) →
  default [] (h _ InterfaceIntent.get_intents s2).1 = front ++ [lst] →
  intent_of_vrf vrf_id front = Some it →
  InterfaceIntent.i_inventory_filter_id it ≠ fid →
  let s3 := (h _ InterfaceIntent.get_intents s2).2 in
  let by_id := InterfaceIntent.get_filter (InterfaceIntent.filter_by_id fid) in
  (h _ (InterfaceIntent.get_vrf (InterfaceIntent.vrf_by_id vrf_id)) (h _ by_id s3).2).1
  = Some vrf →
  ∃ j,
    front !! j = Some it
    ∧ intent_of_vrf vrf_id (take j front) = None
    ∧ exec_outcome h (InterfaceIntent.main py p) s
      = Exited
          (InterfaceIntent.Result true
             (InterfaceIntent.OIntents
                (<[j := InterfaceIntent.Intent vrf_id fid None None]> front
                 ++ [InterfaceIntent.Intent (InterfaceIntent.i_vrf_id lst)
                       (InterfaceIntent.i_inventory_filter_id lst)
                       (Some (h _ by_id s3).1) (Some (Tenant.t_name vrf))])))
    ∧ exec_trace h (InterfaceIntent.main py p) s
      = t1 ++ t2
        ++ [Issued InterfaceIntent.get_intents; Issued by_id;
            Issued (InterfaceIntent.get_vrf (InterfaceIntent.vrf_by_id vrf_id))].
Proof.
  intros Hst Hck Hgiven Hvrf Hfilter Hlist Hit Hne s3 by_id Hname. subst s3 by_id.
  unfold exec_outcome, exec_trace.
  rewrite (interface_intent_main_exec py h s p _ _ _ _ _ _ Hgiven Hvrf Hfilter).
  rewrite Hst, Hlist. simpl.
  pose proof (find_intent_first vrf_id fid 0 front) as Hfind.
  rewrite Hit in Hfind. destruct Hfind as (j & Hfind & Hj & Hid & Hbefore).
  rewrite (find_intent_app _ _ _ _ [lst] _ _ Hfind). simpl.
  rewrite (bool_decide_true (_ ≠ fid)) by done.
  unfold InterfaceIntent.enforce_present. simpl. rewrite Hck. simpl.
  destruct (h _ (InterfaceIntent.get_filter _) _) as [filter_object s4]; simpl in *.
  destruct (h _ (InterfaceIntent.get_vrf _) s4) as [vrf_object s5]; simpl in *.
  subst vrf_object. simpl.
  exists j. repeat split; try done.
  rewrite insert_app_l by (by eapply lookup_lt_Some).
  by rewrite annotate_last_snoc.
Qed.

Lemma interface_intent_check_mode_annotates_last_witness :
  let eng := Tenant.Tenant 7 "Eng" [] in
  let f := InterfaceIntent.InventoryFilter "f-new" "New" in
  let old := InterfaceIntent.Intent (InterfaceIntent.SInt 7) (Some "f-old") None None in
  let ops := InterfaceIntent.Intent (InterfaceIntent.SInt 3) (Some "f-ops") None None in
  let st := IntentServer.Store [eng] [] [f] [old; ops] in
  let p := InterfaceIntent.Params present (Some "Eng") None (Some "f-new") None
             InterfaceIntent.single true in
  exec_outcome IntentServer.serve (InterfaceIntent.main InterfaceIntent.Python3 p) st
  = Exited
      (InterfaceIntent.Result true
         (InterfaceIntent.OIntents
            [InterfaceIntent.Intent (InterfaceIntent.SInt 7) (Some "f-new") None None;
             InterfaceIntent.Intent (InterfaceIntent.SInt 3) (Some "f-ops") (Some (Some f))
               (Some "Eng")])).
Proof.
  intros eng f old ops st p.
  destruct (interface_intent_check_mode_annotates_last InterfaceIntent.Python3
              IntentServer.serve st p (InterfaceIntent.SInt 7)
              [Issued (InterfaceIntent.get_vrf (InterfaceIntent.vrf_by_name (Some "Eng")))]
              st (Some "f-new") [] st old ops [old] eng)
    as (j & Hj & _ & Hout & _).
  - reflexivity.
  - reflexivity.
  - right. split; reflexivity.
  - reflexivity.
  - reflexivity.
  - reflexivity.
  - reflexivity.
  - discriminate.
  - reflexivity.
  - destruct j as [|j]; [exact Hout|discriminate Hj].
Defined.

(** ** The user module that reuses accounts *)

Lemma string_prefix_spec (a s : string) :
  String.prefix a s = true ↔ ∃ b, s = a +:+ b.
Proof.
  revert s. induction a as [|c a IH]; intros s.
  - split; [by exists s|by destruct s].
  - destruct s as [|d s]; simpl; [split; [done|by intros [b Hb]]|].
    destruct (Ascii.ascii_dec c d) as [->|Hne].
    + rewrite IH. split; intros [b Hb]; exists b; [by rewrite Hb|by injection Hb].
    + split; [done|]. intros [b Hb]. injection Hb as Hd _. by destruct Hne.
Qed.

(** [contains] is the substring test. *)
Lemma contains_spec (needle s : string) :
  UserSevt.contains needle s = true ↔ ∃ a b, s = a +:+ needle +:+ b.
Proof.
  induction s as [|c s IH].
  - change (UserSevt.contains needle "") with (String.prefix needle "" || false).
    rewrite orb_false_r, string_prefix_spec. split.
    + intros [b Hb]. by exists EmptyString, b.
    + intros (a & b & Hab). destruct a; [by exists b|done].
  - change (UserSevt.contains needle (String c s))
      with (String.prefix needle (String c s) || UserSevt.contains needle s).
    rewrite orb_true_iff, IH, string_prefix_spec. split.
    + intros [[b Hb]|(a & b & Hab)].
      * by exists EmptyString, b.
      * exists (String c a), b. simpl. by rewrite Hab.
    + intros (a & b & Hab). destruct a as [|d a]; simpl in Hab.
      * left. by exists b.
      * right. injection Hab as _ Hs. by exists a, b.
Qed.

(** The search loop: the user found is the first with the email; when
    there is none, the account to reuse is the first reusable one. *)
Lemma find_user_spec email reuse_domain (available : option User.user)
    (all_users : list User.user) :
  (UserSevt.find_user email reuse_domain available all_users).1
  = List.find (λ u, bool_decide (User.u_email u = email)) all_users
  ∧ (List.find (λ u, bool_decide (User.u_email u = email)) all_users = None →
     (UserSevt.find_user email reuse_domain available all_users).2
     = match available with
       | Some account => Some account
       | None => List.find (reusable reuse_domain) all_users
       end).
Proof.
  revert available. induction all_users as [|u l IH]; intros available; simpl.
  - split; [done|]. by destruct available.
  - case_bool_decide as Hemail; simpl; [done|].
    unfold reusable at 1.
    destruct available as [account|]; simpl.
    + apply IH.
    + destruct (truthy_int (User.u_disabled_at u) && truthy_str reuse_domain
                && UserSevt.contains (default "" reuse_domain) (User.u_email u));
        simpl; apply IH.
Qed.

Lemma user_sevt_fetch_by_email {S} (h : handler UserSevt.userE S) (s : S)
    (p : UserSevt.params) :
  truthy_str (UserSevt.p_user_id p) = false →
  List.find (λ u, bool_decide (User.u_email u = UserSevt.p_email p))
    (h _ UserSevt.get_all s).1 = None →
  exec h (UserSevt.fetch p) s
  = (Exited (None, List.find (reusable (UserSevt.p_reuse_domain p))
                     (h _ UserSevt.get_all s).1),
     [Issued UserSevt.get_all], (h _ UserSevt.get_all s).2).
Proof.
  intros Hid Hnone. unfold UserSevt.fetch. rewrite Hid. simpl.
  destruct (h _ UserSevt.get_all s) as [all_users s1]; simpl in *.
  destruct (find_user_spec (UserSevt.p_email p) (UserSevt.p_reuse_domain p) None all_users)
    as [Hfst Hsnd].
  specialize (Hsnd Hnone). rewrite Hnone in Hfst.
  destruct (UserSevt.find_user _ _ _ _) as [existing available]; simpl in *.
  by subst.
Qed.

(** X28.  [present] with check mode off, looked up by email, when no
    account has the email.  If some disabled account has the reuse domain
    in its email, the first such account of the listing is enabled and then
    overwritten by a PUT of the new details, and no account is created;
    otherwise one POST creates the account.  Either way the account is read
    back by its ID and [changed=true]. *)
Theorem user_sevt_present_reuses_account {S} (h : handler UserSevt.userE S) (s : S)
    (p : UserSevt.params) (new_object : UserSevt.payload) t s2 :
  UserSevt.p_state p = present →
  UserSevt.check_mode p = false →
  truthy_str (UserSevt.p_user_id p) = false →
  let all_users := (h _ UserSevt.get_all s).1 in
  List.find (λ u, bool_decide (User.u_email u = UserSevt.p_email p)) all_users = None →
  exec h (UserSevt.resolve_scope p
            (UserSevt.NewObject (UserSevt.p_email p) (UserSevt.p_first_name p)
               (UserSevt.p_last_name p) (Some <$> UserSevt.p_app_scope_id p)))
    (h _ UserSevt.get_all s).2
  = (Exited new_object, t, s2) →
  (∃ r, exec_outcome h (UserSevt.main p) s = Exited r ∧ UserSevt.changed r = true)
  ∧ exec_trace h (UserSevt.main p) s
    = Issued UserSevt.get_all :: t
      ++ match List.find (reusable (UserSevt.p_reuse_domain p)) all_users with
         | Some account =>
             [Issued (UserSevt.post_enable (User.u_id account) (Some new_object));
              Issued (UserSevt.put (User.u_id account) new_object);
              Issued (UserSevt.get (Some (User.u_id account)))]
         | None =>
             [Issued (UserSevt.post new_object);
              Issued (UserSevt.get
                        (Some (User.u_id (h _ (UserSevt.post new_object) s2).1)))]
         end.
Proof.
  intros Hst Hck Hid all_users Hnone Hscope. subst all_users.
  unfold exec_outcome, exec_trace, UserSevt.main.
  rewrite exec_bind, (user_sevt_fetch_by_email h s p Hid Hnone), Hst. simpl.
  unfold UserSevt.enforce_present.
  rewrite exec_bind, Hscope, Hck. simpl.
  destruct (List.find (reusable _) _) as [account|]; simpl;
    unfold UserSevt.return_present; rewrite ?Hck; simpl; repeat answer; simpl;
    rewrite ?app_nil_r; eauto.
Qed.

Lemma user_sevt_present_reuses_account_witness :
  let old := User.UserRec "u1" "u1@pool.example.com" None None None (Some 1541993885) [] in
  let bob := User.UserRec "u2" "bsmith@example.com" (Some "Bob") (Some "Smith") None None [] in
  let st := UserServer.Store [bob; old] [] in
  let p := UserSevt.Params present None (Some "Ann") (Some "Lee") "alee@example.com" None
             None (Some "pool.example.com") false in
  let new_object := UserSevt.NewObject "alee@example.com" (Some "Ann") (Some "Lee") None in
  exec_trace UserSevtServer.serve (UserSevt.main p) st
  = Issued UserSevt.get_all :: []
    ++ [Issued (UserSevt.post_enable "u1" (Some new_object));
        Issued (UserSevt.put "u1" new_object);
        Issued (UserSevt.get (Some "u1"))].
Proof.
  intros old bob st p new_object.
  apply (user_sevt_present_reuses_account UserSevtServer.serve st p new_object [] st);
    reflexivity.
Defined.

(** X29.  [absent] on an enabled account that the read phase finds: with
    check mode off and a reuse domain, a PUT first renames the email to
    the account ID at the reuse domain, then one DELETE disables the
    account; without a reuse domain the DELETE alone is issued, and under
    check mode nothing.  [changed=true], and the object is the record as
    read before the calls. *)
Theorem user_sevt_absent_releases_account {S} (h : handler UserSevt.userE S) (s : S)
    (p : UserSevt.params) (existing : User.user) available t s1 :
  UserSevt.p_state p = absent →
  exec h (UserSevt.fetch p) s = (Exited (Some existing, available), t, s1) →
  User.u_disabled_at existing = None →
  exec_outcome h (UserSevt.main p) s
  = Exited (UserSevt.Result true false (UserSevt.OUser existing))
  ∧ exec_trace h (UserSevt.main p) s
    = t ++ if UserSevt.check_mode p then []
           else (if truthy_str (UserSevt.p_reuse_domain p) then
                   [Issued (UserSevt.put (User.u_id existing)
                              (UserSevt.NewObject
                                 (User.u_id existing +:+ "@"
                                  +:+ fmt_str (UserSevt.p_reuse_domain p))
                                 None None None))]
                 else [])
                ++ [Issued (UserSevt.delete (User.u_id existing))].
Proof.
  intros Hst Hfetch Henabled.
  unfold exec_outcome, exec_trace, UserSevt.main.
  rewrite exec_bind, Hfetch, Hst. simpl.
  unfold UserSevt.enforce_absent. rewrite Henabled. simpl.
  destruct (UserSevt.check_mode p); simpl; [by rewrite app_nil_r|].
  destruct (truthy_str (UserSevt.p_reuse_domain p)); simpl; repeat answer; done.
Qed.

Lemma user_sevt_absent_releases_account_witness :
  let bob := User.UserRec "u2" "bsmith@example.com" (Some "Bob") (Some "Smith") None None [] in
  let st := UserServer.Store [bob] [] in
  let p := UserSevt.Params absent None None None "bsmith@example.com" None None
             (Some "pool.example.com") false in
  exec_outcome UserSevtServer.serve (UserSevt.main p) st
  = Exited (UserSevt.Result true false (UserSevt.OUser bob))
  ∧ exec_trace UserSevtServer.serve (UserSevt.main p) st
    = [Issued UserSevt.get_all]
      ++ [Issued (UserSevt.put "u2"
                    (UserSevt.NewObject "u2@pool.example.com" None None None))]
      ++ [Issued (UserSevt.delete "u2")].
Proof.
  intros bob st p.
  apply (user_sevt_absent_releases_account UserSevtServer.serve st p bob None
           [Issued UserSevt.get_all] st); reflexivity.
Defined.

Lemma scope_lookups_app (t1 t2 : list (issued UserSevt.userE)) :
  scope_lookups (t1 ++ t2) = scope_lookups t1 ++ scope_lookups t2.
Proof. unfold scope_lookups. apply bind_app. Qed.

(** The read phase looks up no scope. *)
Lemma user_sevt_fetch_no_scope {S} (h : handler UserSevt.userE S) (s : S)
    (p : UserSevt.params) o t s1 :
  exec h (UserSevt.fetch p) s = (o, t, s1) → scope_lookups t = [].
Proof.
  unfold UserSevt.fetch.
  destruct (truthy_str (UserSevt.p_user_id p)); simpl.
  - destruct (h _ (UserSevt.get _) s) as [[u|] s2]; simpl; by intros [= <- <- <-].
  - destruct (h _ UserSevt.get_all s) as [all_users s2]; simpl. by intros [= <- <- <-].
Qed.

(** X30.  The scope name is resolved only when a new account is needed
    and no scope ID is given: an invocation looks up the scope named,
    once, under [present] when no account is found, [app_scope_id] is
    empty and [app_scope_name] is not, and looks up no scope in any other
    case (an account that exists, [absent], [query]).  The resolution
    cannot fail: [present] without an account always exits with
    [changed=true], and whatever the name (a [:] is not looked for) the
    payload gets the ID of the scope found, or null when none is found;
    shown under check mode, where the payload is the object returned. *)
Theorem user_sevt_scope_resolution_never_fails {S} (h : handler UserSevt.userE S) (s : S)
    (p : UserSevt.params) (existing available : option User.user) t s1 :
  exec h (UserSevt.fetch p) s = (Exited (existing, available), t, s1) →
  let resolved :=
    negb (truthy_str (UserSevt.p_app_scope_id p))
    && truthy_str (UserSevt.p_app_scope_name p) in
  let name := default "" (UserSevt.p_app_scope_name p) in
  scope_lookups (exec_trace h (UserSevt.main p) s)
  = (if bool_decide (UserSevt.p_state p = present) && bool_decide (existing = None)
        && resolved
     then [name] else [])
  ∧ (UserSevt.p_state p = present →
     existing = None →
     (∃ r, exec_outcome h (UserSevt.main p) s = Exited r ∧ UserSevt.changed r = true)
     ∧ (UserSevt.check_mode p = true →
        exec_outcome h (UserSevt.main p) s
        = Exited (UserSevt.Result true false
                    (UserSevt.ONew
                       (UserSevt.NewObject (UserSevt.p_email p) (UserSevt.p_first_name p)
                          (UserSevt.p_last_name p)
                          (if resolved
                           then Some (User.s_id <$> (h _ (UserSevt.get_scope name) s1).1)
                           else Some <$> UserSevt.p_app_scope_id p)))))).
Proof.
  intros Hfetch resolved name. subst resolved name.
  pose proof (user_sevt_fetch_no_scope h s p _ _ _ Hfetch) as Hquiet.
  unfold exec_outcome, exec_trace, UserSevt.main.
  rewrite exec_bind, Hfetch.
  split.
  - destruct (UserSevt.p_state p) eqn:Hst; simpl.
    + unfold UserSevt.enforce_present, UserSevt.resolve_scope, UserSevt.return_present.
      destruct existing as [u|]; simpl.
      * repeat first [ progress simplify_eq/= | answer | case_match ];
          by rewrite scope_lookups_app, Hquiet.
      * destruct (UserSevt.p_app_scope_name p) as [n|] eqn:Hname; simpl;
          [destruct (truthy_str (UserSevt.p_app_scope_id p)); simpl;
           [|case_bool_decide; simpl]|rewrite andb_false_r];
          repeat first [ progress simplify_eq/= | answer | case_match ];
          by rewrite scope_lookups_app, Hquiet.
    + unfold UserSevt.enforce_absent.
      repeat first [ progress simplify_eq/= | answer | case_match ];
        by rewrite scope_lookups_app, Hquiet.
    + by rewrite app_nil_r.
  - intros Hst ->. rewrite Hst. simpl.
    unfold UserSevt.enforce_present, UserSevt.resolve_scope, UserSevt.return_present.
    split.
    + destruct (UserSevt.p_app_scope_name p) as [n|]; simpl;
        repeat first [ progress simplify_eq/= | answer | case_match ]; eauto.
    + intros Hck. rewrite Hck.
      destruct (UserSevt.p_app_scope_name p) as [n|]; simpl;
        [|by rewrite andb_false_r].
      destruct (negb (truthy_str (UserSevt.p_app_scope_id p)) && bool_decide (n ≠ ""));
        simpl; [by answer|done].
Qed.

Lemma user_sevt_scope_resolution_never_fails_witness :
  let bob := User.UserRec "u2" "bsmith@example.com" (Some "Bob") (Some "Smith") None None [] in
  let st := UserServer.Store [bob] [User.Scope "s1" "Default"] in
  let p email := UserSevt.Params present None (Some "Ann") (Some "Lee") email None
                   (Some "Default:Datacenter") None true in
  (scope_lookups (exec_trace UserSevtServer.serve (UserSevt.main (p "alee@example.com")) st)
   = ["Default:Datacenter"]
   ∧ exec_outcome UserSevtServer.serve (UserSevt.main (p "alee@example.com")) st
     = Exited (UserSevt.Result true false
                 (UserSevt.ONew
                    (UserSevt.NewObject "alee@example.com" (Some "Ann") (Some "Lee")
                       (Some None)))))
  ∧ scope_lookups (exec_trace UserSevtServer.serve (UserSevt.main (p "bsmith@example.com")) st)
    = [].
Proof.
  intros bob st p.
  destruct (user_sevt_scope_resolution_never_fails UserSevtServer.serve st
              (p "alee@example.com") None None [Issued UserSevt.get_all] st)
    as [Hnew Hpayload]; [reflexivity|].
  destruct (Hpayload eq_refl eq_refl) as [_ Hobject].
  destruct (user_sevt_scope_resolution_never_fails UserSevtServer.serve st
              (p "bsmith@example.com") (Some bob) None [Issued UserSevt.get_all] st)
    as [Hexisting _]; [reflexivity|].
  split; [split|].
  - exact Hnew.
  - exact (Hobject eq_refl).
  - exact Hexisting.
Defined.
